(** * The gauntlet run loop of p4-spectec (scripts/gauntlet.py)

    A shallow embedding of [GauntletRunner]: program naming, batch ("loop")
    partitioning, verdict classification, bucket relocation, coverage
    accumulation and the run loop itself, together with the properties the
    specification states about them.

    Conventions of the model.
    - Python [int] is [Z]; [//] and [%] are [Z.div] and [Z.modulo] (both
      floor for a positive divisor, as in Python).
    - Python [str] is [string]; the text is taken to be ASCII, so
      [str.lower] maps 'A'..'Z' to 'a'..'z' and [str.isdigit] holds on
      '0'..'9' exactly.
    - The filesystem is a finite map from paths (lists of components below
      the project root) to file contents.  Directories are implicit.
    - The external tools (p4smith, p4spectec run-sl, p4spectec
      cover-dangling), the clock and the filesystem move are an
      environment [Env] consulted by the code.
    - A [KeyboardInterrupt] is modelled where it arrives at a stop check,
      between two iterations; one that arrives inside an iteration is not.
    - [int()] is modelled on digit strings of any length; the interpreter's
      limit on the length of such a string is not. *)

From Stdlib Require Import ZArith Lia Ascii String DecimalString DecimalN Bool.
From stdpp Require Import gmap strings list fin_maps sorting.

Open Scope Z_scope.
Open Scope string_scope.
Open Scope list_scope.

(** ** Text: lower-casing, substring test, decimal formatting *)

Module Text.

(** [str.lower] on one ASCII character. *)
Definition lower_ascii (c : ascii) : ascii :=
  let n := N_of_ascii c in
  if ((65 <=? n) && (n <=? 90))%N then ascii_of_N (n + 32) else c.

(** [s.lower()] *)
Fixpoint lower (s : string) : string :=
  match s with
  | EmptyString => EmptyString
  | String c s' => String (lower_ascii c) (lower s')
  end.

(** [s.startswith(p)] *)
Fixpoint starts_with (p s : string) : bool :=
  match p, s with
  | EmptyString, _ => true
  | String _ _, EmptyString => false
  | String a p', String b s' => bool_decide (a = b) && starts_with p' s'
  end.

(** [needle in hay] on strings. *)
Fixpoint contains (needle hay : string) : bool :=
  starts_with needle hay ||
  match hay with
  | EmptyString => false
  | String _ hay' => contains needle hay'
  end.

(** [s.endswith(p)] *)
Definition ends_with (p s : string) : bool :=
  bool_decide (String.substring (String.length s - String.length p)
                 (String.length p) s = p)
  && bool_decide (String.length p <= String.length s)%nat.

(** [ch.isdigit()] on an ASCII character: the run keeps the names it
    generates, which are ASCII, as strings.  [Unicode.isdigit] below is the
    test on any character. *)
Definition isdigit (c : ascii) : bool :=
  let n := N_of_ascii c in ((48 <=? n) && (n <=? 57))%N.

(** [''.join(ch for ch in s if ch.isdigit())] *)
Fixpoint digits_of (s : string) : string :=
  match s with
  | EmptyString => EmptyString
  | String c s' => if isdigit c then String c (digits_of s') else digits_of s'
  end.

(** [int(s)] for a string of ASCII digits: [None] stands for [ValueError]
    (raised on the empty string and on any character that is no digit).
    [Unicode.int] below is the conversion of any string of digits, with the
    interpreter's limit on the length of a numeral. *)
Definition py_int (s : string) : option Z :=
  match s with
  | EmptyString => None
  | _ => option_map (fun d => Z.of_N (N.of_uint d)) (NilZero.uint_of_string s)
  end.

(** [str(n)] for a non-negative [n]. *)
Definition dec (n : N) : string := NilZero.string_of_uint (N.to_uint n).

Fixpoint zeros (k : nat) : string :=
  match k with
  | O => EmptyString
  | S k' => String "0" (zeros k')
  end.

(** [f"{n:0{width}d}"]: decimal, zero-padded to [width] characters, the sign
    of a negative number counting towards the width. *)
Definition fmt_d (width : nat) (n : Z) : string :=
  if (n <? 0)%Z then
    let d := dec (Z.to_N (- n)) in
    String "-" (String.append (zeros (width - 1 - String.length d)) d)
  else
    let d := dec (Z.to_N n) in
    String.append (zeros (width - String.length d)) d.

End Text.

(** ** Data model *)

(** The verdict strings of [test_p4_program]: 'well-typed', 'ill-typed',
    'ill-formed', 'timeout' and 'error'. *)
Inductive ResultType := WellTyped | IllTyped | IllFormed | Timeout | Error.

#[global] Instance ResultType_eq_dec : EqDecision ResultType.
Proof. solve_decision. Defined.

Definition result_type_str (r : ResultType) : string :=
  match r with
  | WellTyped => "well-typed"
  | IllTyped => "ill-typed"
  | IllFormed => "ill-formed"
  | Timeout => "timeout"
  | Error => "error"
  end.

(** What [subprocess.run(..., timeout=...)] can do: return a completed
    process, raise [TimeoutExpired], or raise another exception. *)
Inductive ProcResult :=
| Completed (returncode : Z) (stdout stderr : string)
| TimeoutExpired
| OtherException.

(** Paths are lists of components below the project root. *)
Abbreviation path := (list string).

(** A file holds a generated program or a coverage record. *)
Inductive Content :=
| ProgramText (text : string)
| CoverageData (items : gset string).

Abbreviation FS := (gmap (list string) Content).

(** The trace of a run: the calls the run loop makes and the lines it
    prints that matter to the specification. *)
Inductive Event :=
| DependencyCheckFailed
| DurationLimit
| CountLimit
| Interrupted
| GenerateAttempt (program_name : string)
| GenerateFailed (program_name : string)
| ErrorTesting (program_name : string) (output : string)
| SourceNotFound (program_name : string)
| UnknownResultType (program_name : string)
| Moved (program_name : string) (dest_dir : path)
| MoveFailed (program_name : string)
| CategorizeFailed (program_name : string)
| Processed (program_name : string) (result_type : ResultType)
| Summary (welltyped illtyped illformed timeout : nat)
| MeasureCall (loop_index : Z)
| NoWatsupForCoverage
| CoverageFailed (loop_index : Z)
| CoverageUpdated (loop_index : Z)
| UnionFailed (loop_index : Z)
| GauntletCompleted (program_count : Z).

(** The filesystem and the trace. *)
Record World := { fs : FS; trace : list Event }.

Definition emit (e : Event) (w : World) : World :=
  {| fs := fs w; trace := trace w ++ [e] |}.

Definition set_fs (f : FS) (w : World) : World :=
  {| fs := f; trace := trace w |}.

(** The collaborators of the harness. *)
Record Env := {
  (** [check_dependencies]: the four existence checks *)
  p4spectec_exists : bool;
  find_p4smith : bool;
  spec_concrete_exists : bool;
  p4include_exists : bool;
  (** p4smith run for a program name: the process result and the text it
      leaves in [<name>.p4], if it writes the file *)
  p4smith : string -> ProcResult;
  p4smith_output : string -> option string;
  (** [spec_concrete_dir.glob("*.watsup")] is non-empty *)
  watsup_present : bool;
  (** p4spectec run-sl on a program name *)
  p4spectec_run_sl : string -> ProcResult;
  (** p4spectec cover-dangling on a loop directory: the process result, and
      the record it writes to the [-cov] file when it exits with 0 *)
  p4spectec_cover : Z -> ProcResult;
  measured : Z -> gset string;
  (** [shutil.move] of a program file succeeds *)
  move_ok : string -> bool;
  (** [time.time() - start_time], in whole seconds, at the stop check made
      when [program_count] programs have been started *)
  elapsed : Z -> Z;
  (** a [KeyboardInterrupt] arrives at that stop check *)
  interrupt : Z -> bool
}.

(** [GauntletRunner]: the one field the loop logic depends on.  The paths
    of [__init__] are the constants below. *)
Record GauntletRunner := { loop_size : Z }.

(** [GauntletRunner.__init__]: [self.loop_size = max(1, int(loop_size))]. *)
Definition init (loop_size : Z) : GauntletRunner :=
  {| loop_size := Z.max 1 loop_size |}.

Definition project_root : path := [].
Definition p4c_build_dir : path := project_root ++ ["p4c"; "build"].
Definition gauntlet_dir : path := project_root ++ ["gauntlet"].

(** [dir / f"{program_name}.p4"] *)
Definition p4_file (dir : path) (program_name : string) : path :=
  dir ++ [String.append program_name ".p4"].

Definition exists_ (p : path) (f : FS) : bool := bool_decide (is_Some (f !! p)).

(** ** coverage_utils *)

(** Modelled from the spec: [coverage_utils.read_coverage], which is
    imported by gauntlet.py but is not part of the sources.  It reads the
    covered-item set of a coverage file; [None] stands for the exception
    raised on a missing or unreadable file. *)
Definition read_coverage (p : path) (f : FS) : option (gset string) :=
  match f !! p with
  | Some (CoverageData c) => Some c
  | _ => None
  end.

(** Modelled from the spec: [coverage_utils.write_coverage], which
    overwrites the coverage file with the given record. *)
Definition write_coverage (p : path) (c : gset string) (f : FS) : FS :=
  <[p := CoverageData c]> f.

(** Modelled from the spec: [coverage_utils.union_coverage], the set union
    of two covered-item sets. *)
Definition union_coverage (a b : gset string) : gset string := a ∪ b.

(** ** The methods of [GauntletRunner] *)

(** [check_dependencies] *)
Definition check_dependencies (env : Env) : bool :=
  p4spectec_exists env && find_p4smith env
  && spec_concrete_exists env && p4include_exists env.

(** The effect of running p4smith in [p4c/build]: it may leave
    [<program_name>.p4] there. *)
Definition p4smith_effect (env : Env) (program_name : string) (f : FS) : FS :=
  match p4smith_output env program_name with
  | Some text => <[p4_file p4c_build_dir program_name := ProgramText text]> f
  | None => f
  end.

(** [generate_p4_program] *)
Definition generate_p4_program (env : Env) (program_name : string)
    (w : World) : bool * World :=
  if negb (find_p4smith env) then (false, w)
  else
    let output_file := p4_file p4c_build_dir program_name in
    let w1 := emit (GenerateAttempt program_name)
                (set_fs (p4smith_effect env program_name (fs w)) w) in
    match p4smith env program_name with
    | Completed returncode _ _ =>
        if negb (returncode =? 0)%Z then (false, w1)
        else if negb (exists_ output_file (fs w1)) then (false, w1)
        else (true, w1)
    | TimeoutExpired => (false, w1)
    | OtherException => (false, w1)
    end.

(** The parse of the oracle output at the end of [test_p4_program]. *)
Definition classify (output : string) : ResultType :=
  if Text.contains "well-typed" (Text.lower output) then WellTyped
  else if Text.contains "ill-typed" (Text.lower output) then IllTyped
  else if Text.contains "ill-formed" (Text.lower output) then IllFormed
  else Error.

(** [test_p4_program] *)
Definition test_p4_program (env : Env) (program_name : string)
    (w : World) : ResultType * string :=
  if negb (exists_ (p4_file p4c_build_dir program_name) (fs w)) then
    (Error, "Program file not found")
  else if negb (watsup_present env) then
    (Error, "No .watsup files found in spec-concrete")
  else
    match p4spectec_run_sl env program_name with
    | Completed _ stdout stderr =>
        let output := String.append stdout stderr in
        (classify output, output)
    | TimeoutExpired => (Timeout, "p4spectec timed out")
    | OtherException => (Error, "Failed to run p4spectec")
    end.

(** [loop_index = idx // self.loop_size] *)
Definition loop_index_of (self : GauntletRunner) (idx : Z) : Z :=
  idx / loop_size self.

(** [f"loop{loop_index:02d}"] *)
Definition loop_name (loop_index : Z) : string :=
  String.append "loop" (Text.fmt_d 2 loop_index).

(** The [idx] of [_loop_dir_for_program]: the digits of the name, parsed,
    or 0 on [ValueError]. *)
Definition program_idx (program_name : string) : Z :=
  let num_part := Text.digits_of program_name in
  match Text.py_int num_part with
  | Some idx => idx
  | None => 0
  end.

(** [_loop_dir_for_program] *)
Definition _loop_dir_for_program (self : GauntletRunner)
    (program_name : string) : path :=
  let idx := program_idx program_name in
  let loop_index := loop_index_of self idx in
  gauntlet_dir ++ [loop_name loop_index].

(** The bucket directory name of a result type; [None] is the
    "Unknown result type" branch. *)
Definition bucket_name (result_type : ResultType) : option string :=
  match result_type with
  | WellTyped => Some "welltyped"
  | IllTyped => Some "illtyped"
  | IllFormed => Some "illformed"
  | Timeout => Some "timeout"
  | Error => None
  end.

(** [shutil.move(src, dst)] of a file, when it succeeds. *)
Definition move (src dst : path) (f : FS) : FS :=
  match f !! src with
  | Some c => <[dst := c]> (delete src f)
  | None => f
  end.

(** [categorize_program] *)
Definition categorize_program (env : Env) (self : GauntletRunner)
    (program_name : string) (result_type : ResultType)
    (w : World) : bool * World :=
  let source_file := p4_file p4c_build_dir program_name in
  if negb (exists_ source_file (fs w)) then
    (false, emit (SourceNotFound program_name) w)
  else
    let loop_dir := _loop_dir_for_program self program_name in
    match bucket_name result_type with
    | None => (false, emit (UnknownResultType program_name) w)
    | Some b =>
        let dest_dir := (loop_dir ++ [b])%list in
        let dest_file := p4_file dest_dir program_name in
        if move_ok env program_name then
          (true, emit (Moved program_name dest_dir)
                   (set_fs (move source_file dest_file (fs w)) w))
        else
          (false, emit (MoveFailed program_name) w)
    end.

(** A path matched by [gauntlet_dir.glob("loop*")], then [bucket], then
    [glob("*.p4")]. *)
Definition in_bucket (bucket : string) (p : path) : bool :=
  match p with
  | [g; d; b; file] =>
      bool_decide (g = "gauntlet") && Text.starts_with "loop" d
      && bool_decide (b = bucket) && Text.ends_with ".p4" file
  | _ => false
  end.

(** [len(list((loop_dir / bucket).glob("*.p4")))] summed over the loop
    directories. *)
Definition bucket_count (bucket : string) (f : FS) : nat :=
  size (filter (fun kv : path * Content => in_bucket bucket kv.1) f).

(** The "Total" line of [print_summary]. *)
Definition stored_total (f : FS) : nat :=
  (bucket_count "welltyped" f + bucket_count "illtyped" f
   + bucket_count "illformed" f + bucket_count "timeout" f)%nat.

(** [print_summary] *)
Definition print_summary (w : World) : World :=
  emit (Summary (bucket_count "welltyped" (fs w))
                (bucket_count "illtyped" (fs w))
                (bucket_count "illformed" (fs w))
                (bucket_count "timeout" (fs w))) w.

(** [gauntlet_dir / f"{loop_name}.cov"] *)
Definition cov_file (loop_index : Z) : path :=
  gauntlet_dir ++ [String.append (loop_name loop_index) ".cov"].

(** [project_root / f"{prev_name}.cov"] *)
Definition prev_cov (loop_index : Z) : path :=
  project_root ++ [String.append (loop_name (loop_index - 1)) ".cov"].

(** [measure_loop_coverage] *)
Definition measure_loop_coverage (env : Env) (loop_index : Z)
    (w : World) : World :=
  let w := emit (MeasureCall loop_index) w in
  if negb (watsup_present env) then emit NoWatsupForCoverage w
  else
    match p4spectec_cover env loop_index with
    | Completed returncode _ _ =>
        if negb (returncode =? 0)%Z then emit (CoverageFailed loop_index) w
        else
          let w1 := set_fs (<[cov_file loop_index :=
                               CoverageData (measured env loop_index)]> (fs w)) w in
          if (loop_index >? 0)%Z then
            if exists_ (prev_cov loop_index) (fs w1) then
              match read_coverage (prev_cov loop_index) (fs w1),
                    read_coverage (cov_file loop_index) (fs w1) with
              | Some prev, Some curr =>
                  let joined := union_coverage prev curr in
                  emit (CoverageUpdated loop_index)
                    (set_fs (write_coverage (cov_file loop_index) joined (fs w1)) w1)
              | _, _ => emit (UnionFailed loop_index) w1
              end
            else w1
          else w1
    | TimeoutExpired => emit (CoverageFailed loop_index) w
    | OtherException => emit (CoverageFailed loop_index) w
    end.

(** ** [run_gauntlet] *)

(** The local variables of [run_gauntlet] that live across iterations. *)
Record Locals := { program_count : Z; last_measured_loop_index : Z }.

(** [f"gauntlet{program_count:05d}"] *)
Definition program_name_of (program_count : Z) : string :=
  String.append "gauntlet" (Text.fmt_d 5 program_count).

(** Truthiness of an [Optional[int]] argument. *)
Definition truthy (o : option Z) : bool :=
  match o with
  | Some z => negb (z =? 0)%Z
  | None => false
  end.

(** One iteration of the [while True] loop, after the stop checks. *)
Definition loop_body (env : Env) (self : GauntletRunner)
    (l : Locals) (w : World) : Locals * World :=
  let program_name := program_name_of (program_count l) in
  let l := {| program_count := program_count l + 1;
              last_measured_loop_index := last_measured_loop_index l |} in
  let '(generated, w) := generate_p4_program env program_name w in
  if negb generated then (l, emit (GenerateFailed program_name) w)
  else
    let '(result_type, output) := test_p4_program env program_name w in
    if bool_decide (result_type = Error) then
      let w := emit (ErrorTesting program_name output) w in
      let temp_file := p4_file p4c_build_dir program_name in
      if exists_ temp_file (fs w) then (l, set_fs (delete temp_file (fs w)) w)
      else (l, w)
    else
      let '(categorized, w) := categorize_program env self program_name result_type w in
      if negb categorized then (l, emit (CategorizeFailed program_name) w)
      else
        let w := emit (Processed program_name result_type) w in
        let w := if (program_count l mod 10 =? 0)%Z then print_summary w else w in
        if (program_count l mod loop_size self =? 0)%Z then
          let loop_index := ((program_count l - 1) / loop_size self)%Z in
          let w := measure_loop_coverage env loop_index w in
          ({| program_count := program_count l;
              last_measured_loop_index := loop_index |}, w)
        else (l, w).

(** The stop checks at the head of the loop; [Some e] is a [break] (or the
    interrupt) that prints [e]. *)
Definition stop_check (env : Env) (duration count : option Z)
    (l : Locals) : option Event :=
  if interrupt env (program_count l) then Some Interrupted
  else if truthy duration
          && (match duration with
              | Some d => (d <=? elapsed env (program_count l))%Z
              | None => false
              end)
  then Some DurationLimit
  else if truthy count
          && (match count with
              | Some c => (c <=? program_count l)%Z
              | None => false
              end)
  then Some CountLimit
  else None.

(** The [while True] loop; [None] when the fuel does not suffice.  A
    [KeyboardInterrupt] is taken at a stop check, between two iterations;
    one raised while an iteration is under way is not part of this model. *)
Fixpoint run_loop (env : Env) (self : GauntletRunner)
    (duration count : option Z) (fuel : nat)
    (l : Locals) (w : World) : option (Locals * World) :=
  match fuel with
  | O => None
  | S fuel' =>
      match stop_check env duration count l with
      | Some e => Some (l, emit e w)
      | None =>
          let '(l', w') := loop_body env self l w in
          run_loop env self duration count fuel' l' w'
      end
  end.

(** The code after the loop: the final coverage measurement and summary. *)
Definition finishing (env : Env) (self : GauntletRunner)
    (l : Locals) (w : World) : World :=
  let w := emit (GauntletCompleted (program_count l)) w in
  let w :=
    if (program_count l >? 0)%Z then
      let final_loop_index := ((program_count l - 1) / loop_size self)%Z in
      if negb (final_loop_index =? last_measured_loop_index l)%Z then
        measure_loop_coverage env final_loop_index w
      else w
    else w in
  print_summary w.

Definition initial_locals : Locals :=
  {| program_count := 0; last_measured_loop_index := -1 |}.

(** [run_gauntlet] *)
Definition run_gauntlet (env : Env) (self : GauntletRunner)
    (duration count : option Z) (fuel : nat)
    (w : World) : option (Locals * World) :=
  if negb (check_dependencies env) then
    Some (initial_locals, emit DependencyCheckFailed w)
  else
    match run_loop env self duration count fuel initial_locals w with
    | None => None
    | Some (l, w) => Some (l, finishing env self l w)
    end.

(** ** Vocabulary of the specification *)

(** [kw] occurs in [text] as a substring, up to the case of letters. *)
Definition occurs_ci (kw text : string) : Prop :=
  exists pre mid post, text = pre +:+ mid +:+ post /\ Text.lower mid = kw.

(** [n] iterations of the loop body. *)
Definition cycles (env : Env) (self : GauntletRunner) (n : nat)
    (lw : Locals * World) : Locals * World :=
  Nat.iter n (fun lw => loop_body env self lw.1 lw.2) lw.

(** The four ways one iteration of the loop body can go: generation fails
    and the index is skipped; the verdict is 'error' and the file is
    deleted; the relocation fails; or the program is stored, after which the
    summary and the coverage measurement may follow. *)
Inductive cycle_outcome (env : Env) (self : GauntletRunner)
    (l : Locals) (w : World) : Locals * World -> Prop :=
| cycle_skipped wg :
    generate_p4_program env (program_name_of (program_count l)) w = (false, wg) ->
    cycle_outcome env self l w
      ({| program_count := program_count l + 1;
          last_measured_loop_index := last_measured_loop_index l |},
       emit (GenerateFailed (program_name_of (program_count l))) wg)
| cycle_discarded wg output :
    generate_p4_program env (program_name_of (program_count l)) w = (true, wg) ->
    test_p4_program env (program_name_of (program_count l)) wg = (Error, output) ->
    cycle_outcome env self l w
      ({| program_count := program_count l + 1;
          last_measured_loop_index := last_measured_loop_index l |},
       set_fs (delete (p4_file p4c_build_dir (program_name_of (program_count l)))
                 (fs wg))
         (emit (ErrorTesting (program_name_of (program_count l)) output) wg))
| cycle_unsorted wg result_type output wc :
    generate_p4_program env (program_name_of (program_count l)) w = (true, wg) ->
    test_p4_program env (program_name_of (program_count l)) wg
      = (result_type, output) ->
    result_type <> Error ->
    categorize_program env self (program_name_of (program_count l)) result_type wg
      = (false, wc) ->
    cycle_outcome env self l w
      ({| program_count := program_count l + 1;
          last_measured_loop_index := last_measured_loop_index l |},
       emit (CategorizeFailed (program_name_of (program_count l))) wc)
| cycle_stored wg result_type output wc :
    generate_p4_program env (program_name_of (program_count l)) w = (true, wg) ->
    test_p4_program env (program_name_of (program_count l)) wg
      = (result_type, output) ->
    result_type <> Error ->
    categorize_program env self (program_name_of (program_count l)) result_type wg
      = (true, wc) ->
    cycle_outcome env self l w
      (let w1 := emit (Processed (program_name_of (program_count l)) result_type) wc in
       let w2 := if ((program_count l + 1) mod 10 =? 0)%Z
                 then print_summary w1 else w1 in
       if ((program_count l + 1) mod loop_size self =? 0)%Z then
         ({| program_count := program_count l + 1;
             last_measured_loop_index :=
               (program_count l + 1 - 1) / loop_size self |},
          measure_loop_coverage env
            ((program_count l + 1 - 1) / loop_size self) w2)
       else
         ({| program_count := program_count l + 1;
             last_measured_loop_index := last_measured_loop_index l |}, w2)).

(** The loop indices for which [measure_loop_coverage] was called, in order. *)
Definition measure_calls (t : list Event) : list Z :=
  omap (fun e => match e with MeasureCall k => Some k | _ => None end) t.

(** The summaries printed, in order. *)
Definition summaries (t : list Event) : list (nat * nat * nat * nat) :=
  omap (fun e => match e with
                 | Summary a b c d => Some (a, b, c, d)
                 | _ => None
                 end) t.

(** The programs that were classified and moved into a bucket, in order. *)
Definition stored_names (t : list Event) : list string :=
  omap (fun e => match e with Processed n _ => Some n | _ => None end) t.

(** The programs p4smith was run for, in order. *)
Definition attempts (t : list Event) : list string :=
  omap (fun e => match e with GenerateAttempt n => Some n | _ => None end) t.

(** Events that none of the four projections above sees. *)
Definition quiet (es : list Event) : Prop :=
  measure_calls es = [] /\ summaries es = [] /\ stored_names es = [] /\
  attempts es = [].

(** The calls, the stored programs and the end of the loop, in order. *)
Definition milestones (t : list Event) : list Event :=
  List.filter (fun e => match e with
                        | MeasureCall _ | Processed _ _ | GauntletCompleted _ => true
                        | _ => false
                        end) t.

(** The counts [print_summary] reports for a filesystem. *)
Definition summary_of (f : FS) : nat * nat * nat * nat :=
  (bucket_count "welltyped" f, bucket_count "illtyped" f,
   bucket_count "illformed" f, bucket_count "timeout" f).

(** Generation fails for a program name, whatever the filesystem holds. *)
Definition generation_fails (env : Env) (program_name : string) : Prop :=
  forall w, (generate_p4_program env program_name w).1 = false.

(** The gauntlet directory as [__init__] leaves it: nothing below it. *)
Definition fresh_gauntlet (f : FS) : Prop :=
  forall p, f !! ("gauntlet" :: p) = None.

(** A summary is printed before the next program is stored. *)
Fixpoint summary_before_next_store (t : list Event) : bool :=
  match t with
  | [] => false
  | Summary _ _ _ _ :: _ => true
  | Processed _ _ :: _ => false
  | _ :: rest => summary_before_next_store rest
  end.

(** The every-10 summary as the specification words it: whenever the
    number of stored programs reaches a multiple of 10, a summary is printed
    before another program is stored. *)
Fixpoint summary_every_10_stored (stored : nat) (t : list Event) : bool :=
  match t with
  | [] => true
  | Processed _ _ :: rest =>
      (if (S stored mod 10 =? 0)%nat then summary_before_next_store rest else true)
      && summary_every_10_stored (S stored) rest
  | _ :: rest => summary_every_10_stored stored rest
  end.

(** ** Concrete collaborators for the scenarios *)

Definition scenario_env (smith oracle cover : string -> ProcResult)
    (cov : Z -> gset string) : Env :=
  {| p4spectec_exists := true;
     find_p4smith := true;
     spec_concrete_exists := true;
     p4include_exists := true;
     p4smith := smith;
     p4smith_output := fun n =>
       match smith n with
       | Completed 0 _ _ => Some "control c() { apply { } }"
       | _ => None
       end;
     watsup_present := true;
     p4spectec_run_sl := oracle;
     p4spectec_cover := fun k => cover (loop_name k);
     measured := cov;
     move_ok := fun _ => true;
     elapsed := fun _ => 0;
     interrupt := fun _ => false |}.

Definition all_ok : string -> ProcResult := fun _ => Completed 0 "" "".

Definition says (text : string) : string -> ProcResult :=
  fun _ => Completed 0 text "".

(** p4smith times out for one program and succeeds for the others. *)
Definition times_out_for (name : string) : string -> ProcResult :=
  fun n => if bool_decide (n = name) then TimeoutExpired else Completed 0 "" "".

(** The oracle crashes on one program and accepts the others. *)
Definition crashes_for (name : string) : string -> ProcResult :=
  fun n => if bool_decide (n = name) then Completed 0 "error: crash" ""
           else Completed 0 "well-typed" "".

Definition no_coverage : Z -> gset string := fun _ => ∅.

(** Loop 0 covers the item f, every later loop the item g. *)
Definition f_then_g : Z -> gset string :=
  fun k => if (k =? 0)%Z then {["f"]} else {["g"]}.

Definition empty_world : World := {| fs := ∅; trace := [] |}.

(** ** [__init__] and [main] *)

(** The rest of [p] below the directory [d], when [p] lies at or below it. *)
Fixpoint relative_to (d p : path) : option path :=
  match d, p with
  | [], _ => Some p
  | _ :: _, [] => None
  | x :: d', y :: p' => if bool_decide (x = y) then relative_to d' p' else None
  end.

(** [d.exists()] for a directory: with directories implicit, it exists when
    a file lies at or below it. *)
Definition exists_at (d : path) (f : FS) : bool :=
  bool_decide (map_Exists (fun p _ => is_Some (relative_to d p)) f).

(** Where a path ends up when the directory [src] is renamed to [dst]. *)
Definition renamed (src dst p : path) : path :=
  match relative_to src p with
  | Some rest => dst ++ rest
  | None => p
  end.

(** [os.rename(src, dst)] of a directory onto a path that does not exist. *)
Definition rename_dir (src dst : path) (f : FS) : FS :=
  list_to_map ((fun kv : path * Content => (renamed src dst kv.1, kv.2))
                 <$> map_to_list f).

(** [f"gauntlet_backup_{timestamp}"] *)
Definition backup_name (timestamp : string) : string :=
  String.append "gauntlet_backup_" timestamp.

(** [p] lies strictly below the directory [d]. *)
Definition strictly_below (d p : path) : bool :=
  match relative_to d p with
  | Some (_ :: _) => true
  | _ => false
  end.

(** [os.path.isdir(d)]: with directories implicit, [d] is a directory when
    a file lies strictly below it. *)
Definition is_dir (d : path) (f : FS) : bool :=
  bool_decide (map_Exists (fun p _ => strictly_below d p = true) f).

(** [_backup_existing_gauntlet], with [timestamp] the result of
    [time.strftime].  [shutil.move] renames the gauntlet directory onto the
    backup path when nothing is there, and into the backup path when that
    is a directory, where it raises if the entry [gauntlet] is taken.  With
    a regular file at the backup path the rename of a directory fails and
    the copy [shutil.move] falls back on raises [FileExistsError], while a
    regular file named [gauntlet] replaces it.  [None] is the [sys.exit(1)]
    of the exception handler.  A filesystem is the set of its files: empty
    directories, and a rename that fails for a reason of its own (such as
    permissions), are not part of this model. *)
Definition _backup_existing_gauntlet (timestamp : string) (f : FS) : option FS :=
  if exists_at gauntlet_dir f then
    let backup_path := project_root ++ [backup_name timestamp] in
    if is_dir backup_path f then
      let real_dst := backup_path ++ ["gauntlet"] in
      if exists_at real_dst f then None
      else Some (rename_dir gauntlet_dir real_dst f)
    else if exists_ backup_path f then
      if is_dir gauntlet_dir f then None
      else Some (rename_dir gauntlet_dir backup_path (delete backup_path f))
    else Some (rename_dir gauntlet_dir backup_path f)
  else Some f.

(** How [main] ends: [parser.error], the [sys.exit(1)] of the backup, a run
    that has not stopped within the fuel, or a finished run. *)
Inductive MainResult :=
| ParserError (message : string)
| Exit1
| OutOfFuel
| Finished (l : Locals) (w : World).

(** [main], with [duration], [count] and [loop_size] the parsed arguments:
    the two argument checks, then [GauntletRunner(...)], whose [__init__]
    clamps the loop size, backs up the gauntlet directory and creates it
    anew (empty, so that no file tells), then [run_gauntlet]. *)
Definition main (env : Env) (duration count : option Z) (loop_size : Z)
    (timestamp : string) (fuel : nat) (w : World) : MainResult :=
  if negb (truthy duration) && negb (truthy count) then
    ParserError "Must specify either --duration or --count"
  else if truthy duration && truthy count then
    ParserError "Cannot specify both --duration and --count"
  else
    match _backup_existing_gauntlet timestamp (fs w) with
    | None => Exit1
    | Some f =>
        let runner := init loop_size in
        match run_gauntlet env runner duration count fuel (set_fs f w) with
        | None => OutOfFuel
        | Some (l, w') => Finished l w'
        end
    end.

(** The filesystem of the scenarios about [main]: results of an earlier run
    and a file outside the gauntlet directory. *)
Definition earlier_results : FS :=
  <[ ["gauntlet"; "loop00"; "welltyped"; "gauntlet00000.p4"] := ProgramText "old" ]>
  (<[ ["gauntlet"; "loop00.cov"] := CoverageData {["f"]} ]>
  (<[ ["notes.txt"] := ProgramText "keep" ]> ∅)).

(** The duration limit is in force and reached at the stop check of index
    [k]. *)
Definition duration_due (env : Env) (duration : option Z) (k : Z) : Prop :=
  exists d, duration = Some d /\ d <> 0 /\ d <= elapsed env k.

(** The count limit is in force and reached at index [k]. *)
Definition count_reached (count : option Z) (k : Z) : Prop :=
  exists c, count = Some c /\ c <> 0 /\ c <= k.

(** The collaborators [env] with the clock replaced. *)
Definition with_clock (clock : Z -> Z) (env : Env) : Env :=
  {| p4spectec_exists := p4spectec_exists env;
     find_p4smith := find_p4smith env;
     spec_concrete_exists := spec_concrete_exists env;
     p4include_exists := p4include_exists env;
     p4smith := p4smith env;
     p4smith_output := p4smith_output env;
     watsup_present := watsup_present env;
     p4spectec_run_sl := p4spectec_run_sl env;
     p4spectec_cover := p4spectec_cover env;
     measured := measured env;
     move_ok := move_ok env;
     elapsed := clock;
     interrupt := interrupt env |}.

(** The oracle never answers in time. *)
Definition never_answers : string -> ProcResult := fun _ => TimeoutExpired.

(** The collaborators [env] with the outcome of the moves replaced. *)
Definition with_moves (ok : string -> bool) (env : Env) : Env :=
  {| p4spectec_exists := p4spectec_exists env;
     find_p4smith := find_p4smith env;
     spec_concrete_exists := spec_concrete_exists env;
     p4include_exists := p4include_exists env;
     p4smith := p4smith env;
     p4smith_output := p4smith_output env;
     watsup_present := watsup_present env;
     p4spectec_run_sl := p4spectec_run_sl env;
     p4spectec_cover := p4spectec_cover env;
     measured := measured env;
     move_ok := ok;
     elapsed := elapsed env;
     interrupt := interrupt env |}.

(** p4smith leaves a program file only when it exits with 0. *)
Definition p4smith_writes_on_success (env : Env) : Prop :=
  forall name text, p4smith_output env name = Some text ->
    exists out err, p4smith env name = Completed 0 out err.

(** The collaborators [env] with the files p4smith leaves replaced. *)
Definition with_p4smith_output (output : string -> option string)
    (env : Env) : Env :=
  {| p4spectec_exists := p4spectec_exists env;
     find_p4smith := find_p4smith env;
     spec_concrete_exists := spec_concrete_exists env;
     p4include_exists := p4include_exists env;
     p4smith := p4smith env;
     p4smith_output := output;
     watsup_present := watsup_present env;
     p4spectec_run_sl := p4spectec_run_sl env;
     p4spectec_cover := p4spectec_cover env;
     measured := measured env;
     move_ok := move_ok env;
     elapsed := elapsed env;
     interrupt := interrupt env |}.

(** p4smith writes its file for every program; for [name] it is killed by
    the timeout when it has written the beginning. *)
Definition writes_then_times_out (name : string) : Env :=
  with_p4smith_output
    (fun n => if bool_decide (n = name) then Some "control c() {"
              else Some "control c() { apply { } }")
    (scenario_env (times_out_for name) (says "well-typed") all_ok no_coverage).

(** ** Names as Python reads them *)

Module Unicode.

(** A Python [str]: the sequence of its code points. *)
Definition str := list N.

(** What [_loop_dir_for_program] takes from the interpreter: the character
    database, which decides [ch.isdigit()] and the digit value that [int]
    reads ([unicodedata.decimal(ch, None)]), and the limit on the length
    of a numeral ([sys.get_int_max_str_digits()]: 0 for none, 4300 by
    default from Python 3.11 on). *)
Record Interpreter := {
  isdigit : N -> bool;
  decimal : N -> option Z;
  int_max_str_digits : nat
}.

(** What holds of every database: a decimal value is a digit from 0 to 9,
    and below U+0080 the digits, with their values, are the ten characters
    from '0' to '9'. *)
Definition consistent (py : Interpreter) : Prop :=
  (forall ch d, decimal py ch = Some d -> 0 <= d <= 9) /\
  (forall ch, (ch < 128)%N ->
     isdigit py ch = ((48 <=? ch) && (ch <=? 57))%N /\
     decimal py ch = if ((48 <=? ch) && (ch <=? 57))%N
                     then Some (Z.of_N ch - 48) else None).

(** [''.join(ch for ch in s if ch.isdigit())] *)
Fixpoint digits_of (py : Interpreter) (s : str) : str :=
  match s with
  | [] => []
  | ch :: s' =>
      if isdigit py ch then ch :: digits_of py s' else digits_of py s'
  end.

(** The digits of a numeral read from the left; [None] at a character
    without a decimal value. *)
Fixpoint read_decimal (py : Interpreter) (acc : Z) (s : str) : option Z :=
  match s with
  | [] => Some acc
  | ch :: s' =>
      match decimal py ch with
      | Some d => read_decimal py (10 * acc + d) s'
      | None => None
      end
  end.

(** The numeral is longer than the interpreter converts: the limit applies
    to numerals of more than 640 characters. *)
Definition exceeds_limit (py : Interpreter) (s : str) : bool :=
  (640 <? length s)%nat
  && negb (int_max_str_digits py =? 0)%nat
  && (int_max_str_digits py <? length s)%nat.

(** [int(s)] for a string of characters that [str.isdigit] accepts (so
    without sign, blank or underscore); [None] stands for [ValueError]:
    the empty string, a character that is a digit without being a decimal
    (such as a superscript two), or a numeral beyond the limit. *)
Definition int (py : Interpreter) (s : str) : option Z :=
  match s with
  | [] => None
  | _ => if exceeds_limit py s then None else read_decimal py 0 s
  end.

(** [idx] of [_loop_dir_for_program], with the fallback of its
    [except ValueError]. *)
Definition program_idx (py : Interpreter) (program_name : str) : Z :=
  match int py (digits_of py program_name) with
  | Some idx => idx
  | None => 0
  end.

(** [_loop_dir_for_program] on any name. *)
Definition _loop_dir_for_program (py : Interpreter) (self : GauntletRunner)
    (program_name : str) : path :=
  let idx := program_idx py program_name in
  let loop_index := loop_index_of self idx in
  gauntlet_dir ++ [loop_name loop_index].

(** The value of a numeral from its digit values, the most significant
    first. *)
Fixpoint positional (values : list Z) : Z :=
  match values with
  | [] => 0
  | d :: values' => d * 10 ^ Z.of_nat (length values') + positional values'
  end.

(** The code points of a string of characters below U+0100. *)
Definition codepoints (s : string) : str :=
  N_of_ascii <$> list_ascii_of_string s.

(** A part of the character database of CPython 3.11, enough for the
    examples: the ASCII digits, the superscripts two, three and one (digits
    without a decimal value), the Arabic-Indic digits (decimals) and the
    circled digit one; the default limit. *)
Definition example_interpreter : Interpreter :=
  {| isdigit := fun ch =>
       ((48 <=? ch) && (ch <=? 57) || (ch =? 178) || (ch =? 179) || (ch =? 185)
        || (1632 <=? ch) && (ch <=? 1641) || (ch =? 9312))%N;
     decimal := fun ch =>
       if ((48 <=? ch) && (ch <=? 57))%N then Some (Z.of_N ch - 48)
       else if ((1632 <=? ch) && (ch <=? 1641))%N then Some (Z.of_N ch - 1632)
       else None;
     int_max_str_digits := 4300 |}.

End Unicode.

(** A numeral of the Standard Library read from the left, from an
    accumulator. *)
Fixpoint read_uint (acc : Z) (d : Decimal.uint) : Z :=
  match d with
  | Decimal.Nil => acc
  | Decimal.D0 d' => read_uint (10 * acc + 0) d'
  | Decimal.D1 d' => read_uint (10 * acc + 1) d'
  | Decimal.D2 d' => read_uint (10 * acc + 2) d'
  | Decimal.D3 d' => read_uint (10 * acc + 3) d'
  | Decimal.D4 d' => read_uint (10 * acc + 4) d'
  | Decimal.D5 d' => read_uint (10 * acc + 5) d'
  | Decimal.D6 d' => read_uint (10 * acc + 6) d'
  | Decimal.D7 d' => read_uint (10 * acc + 7) d'
  | Decimal.D8 d' => read_uint (10 * acc + 8) d'
  | Decimal.D9 d' => read_uint (10 * acc + 9) d'
  end.

(** * Properties *)

(** ** Text *)

Example fmt_d_5 : Text.fmt_d 5 17 = "00017". Proof. reflexivity. Qed.
Example fmt_d_wide : Text.fmt_d 2 123 = "123". Proof. reflexivity. Qed.
Example fmt_d_neg : Text.fmt_d 3 (-1) = "-01". Proof. reflexivity. Qed.
Example lower_mixed : Text.lower "Well-Typed!" = "well-typed!". Proof. reflexivity. Qed.
Example contains_mid : Text.contains "ill" "still" = true. Proof. reflexivity. Qed.
Example ends_with_p4 : Text.ends_with ".p4" "a.p4" = true. Proof. reflexivity. Qed.
Example ends_with_short : Text.ends_with ".p4" "p4" = false. Proof. reflexivity. Qed.
Example py_int_empty : Text.py_int "" = None. Proof. reflexivity. Qed.
Example py_int_zeros : Text.py_int "00012" = Some 12. Proof. reflexivity. Qed.
Example name_of_7 : program_name_of 7 = "gauntlet00007". Proof. reflexivity. Qed.
Example loop_name_12 : loop_name 12 = "loop12". Proof. reflexivity. Qed.

Section text_facts.

Lemma lower_app (a b : string) :
  Text.lower (a +:+ b) = Text.lower a +:+ Text.lower b.
Proof. induction a as [|c a IH]; simpl; [done | by rewrite IH]. Qed.

Lemma lower_split (s a b : string) :
  Text.lower s = a +:+ b ->
  exists s1 s2, s = s1 +:+ s2 /\ Text.lower s1 = a /\ Text.lower s2 = b.
Proof.
  revert s. induction a as [|c a IH]; intros s H.
  - exists EmptyString, s. by simpl in *.
  - destruct s as [|c' s]; simpl in H; [discriminate |].
    injection H as Hc Hs. destruct (IH _ Hs) as (s1 & s2 & -> & <- & <-).
    exists (String c' s1), s2. simpl. by rewrite Hc.
Qed.

Lemma starts_with_spec (p s : string) :
  Text.starts_with p s = true <-> exists post, s = p +:+ post.
Proof.
  revert s. induction p as [|a p IH]; intros s; simpl.
  - split; [intros _; by exists s | done].
  - destruct s as [|b s].
    + split; [done | intros [post H]; discriminate].
    + rewrite andb_true_iff, bool_decide_eq_true, IH. split.
      * intros [-> [post ->]]. by exists post.
      * intros [post H]. injection H as -> ->. eauto.
Qed.

Lemma contains_spec (needle hay : string) :
  Text.contains needle hay = true <->
  exists pre post, hay = pre +:+ needle +:+ post.
Proof.
  induction hay as [|c hay IH]; simpl; rewrite orb_true_iff, starts_with_spec.
  - split.
    + intros [[post H] | H]; [| done]. exists EmptyString, post. by simpl.
    + intros (pre & post & H). left. destruct pre; simpl in H; [eauto | done].
  - rewrite IH. split.
    + intros [[post H] | (pre & post & H)].
      * exists EmptyString, post. by simpl.
      * exists (String c pre), post. simpl. by rewrite H.
    + intros (pre & post & H). destruct pre as [|c' pre]; simpl in H.
      * left. eauto.
      * right. injection H as _ H. eauto.
Qed.

(** The test the code makes, [kw in output.lower()], is the occurrence of
    [kw] up to case. *)
Lemma occurs_ci_contains (kw text : string) :
  occurs_ci kw text <-> Text.contains kw (Text.lower text) = true.
Proof.
  rewrite contains_spec. split.
  - intros (pre & mid & post & -> & <-).
    exists (Text.lower pre), (Text.lower post). by rewrite !lower_app.
  - intros (pre & post & H).
    destruct (lower_split _ _ _ H) as (s1 & s2 & -> & <- & H2).
    destruct (lower_split _ _ _ H2) as (s3 & s4 & -> & <- & _).
    by exists s1, s3, s4.
Qed.

End text_facts.

(** ** Classification *)

(** The three tests of the parse, in the order the code makes them. *)
Lemma classify_spec (output : string) :
  (occurs_ci "well-typed" output -> classify output = WellTyped) /\
  (~ occurs_ci "well-typed" output -> occurs_ci "ill-typed" output ->
   classify output = IllTyped) /\
  (~ occurs_ci "well-typed" output -> ~ occurs_ci "ill-typed" output ->
   occurs_ci "ill-formed" output -> classify output = IllFormed) /\
  (~ occurs_ci "well-typed" output -> ~ occurs_ci "ill-typed" output ->
   ~ occurs_ci "ill-formed" output -> classify output = Error).
Proof.
  unfold classify. rewrite !occurs_ci_contains.
  destruct (Text.contains "well-typed" _), (Text.contains "ill-typed" _),
    (Text.contains "ill-formed" _); repeat split; intros; congruence.
Qed.

Lemma test_p4_program_completed env name w rc out err :
  exists_ (p4_file p4c_build_dir name) (fs w) = true ->
  watsup_present env = true ->
  p4spectec_run_sl env name = Completed rc out err ->
  test_p4_program env name w = (classify (out +:+ err), out +:+ err).
Proof.
  intros Hf Hw Hr. unfold test_p4_program. by rewrite Hf, Hw, Hr.
Qed.

(** C3: the verdict of a completed oracle run is found by a case-insensitive
    substring search of stdout followed by stderr, the first match winning
    in the order well-typed, ill-typed, ill-formed, and Error when nothing
    matches; a text with both "ill-typed" and "ill-formed" and without
    "well-typed" is IllTyped, as is the text of the scenario. *)
Theorem classify_first_match_wins env name w rc out err :
  exists_ (p4_file p4c_build_dir name) (fs w) = true ->
  watsup_present env = true ->
  p4spectec_run_sl env name = Completed rc out err ->
  let text := out +:+ err in
  let verdict := (test_p4_program env name w).1 in
  (occurs_ci "well-typed" text -> verdict = WellTyped) /\
  (~ occurs_ci "well-typed" text -> occurs_ci "ill-typed" text ->
   verdict = IllTyped) /\
  (~ occurs_ci "well-typed" text -> ~ occurs_ci "ill-typed" text ->
   occurs_ci "ill-formed" text -> verdict = IllFormed) /\
  (~ occurs_ci "well-typed" text -> ~ occurs_ci "ill-typed" text ->
   ~ occurs_ci "ill-formed" text -> verdict = Error) /\
  (occurs_ci "ill-typed" text -> occurs_ci "ill-formed" text ->
   ~ occurs_ci "well-typed" text -> verdict = IllTyped) /\
  classify "result: ill-formed but also ill-typed" = IllTyped.
Proof.
  intros Hf Hw Hr text verdict. subst verdict.
  rewrite (test_p4_program_completed _ _ _ _ _ _ Hf Hw Hr). cbn [fst].
  fold text. destruct (classify_spec text) as (H1 & H2 & H3 & H4).
  repeat split; auto.
Qed.

Lemma classify_first_match_wins_witness :
  let env := scenario_env all_ok
               (fun _ => Completed 0 "Result: ILL-FORMED but " "also Ill-Typed")
               all_ok no_coverage in
  let w := set_fs (p4smith_effect env "gauntlet00000" ∅) empty_world in
  (test_p4_program env "gauntlet00000" w).1 = IllTyped.
Proof.
  intros env w.
  assert (Hf : exists_ (p4_file p4c_build_dir "gauntlet00000") (fs w) = true)
    by (vm_compute; reflexivity).
  assert (Hw : watsup_present env = true) by reflexivity.
  assert (Hr : p4spectec_run_sl env "gauntlet00000"
               = Completed 0 "Result: ILL-FORMED but " "also Ill-Typed")
    by reflexivity.
  destruct (classify_first_match_wins env _ w _ _ _ Hf Hw Hr)
    as (_ & _ & _ & _ & H & _).
  apply H.
  - apply occurs_ci_contains. vm_compute. reflexivity.
  - apply occurs_ci_contains. vm_compute. reflexivity.
  - intros Hc%occurs_ci_contains. vm_compute in Hc. discriminate.
Defined.

(** ** Program names and batch directories *)

Section naming.

Lemma digits_of_app (a b : string) :
  Text.digits_of (a +:+ b) = Text.digits_of a +:+ Text.digits_of b.
Proof.
  induction a as [|c a IH]; simpl; [done |].
  destruct (Text.isdigit c); simpl; by rewrite IH.
Qed.

Lemma digits_of_zeros k : Text.digits_of (Text.zeros k) = Text.zeros k.
Proof. induction k as [|k IH]; simpl; [done |]. cbn. by rewrite IH. Qed.

Lemma digits_of_numeral d :
  Text.digits_of (NilEmpty.string_of_uint d) = NilEmpty.string_of_uint d.
Proof. induction d; simpl; [done | cbn; by rewrite IHd ..]. Qed.

Lemma numeral_of_nonnil d :
  d <> Decimal.Nil -> NilZero.string_of_uint d = NilEmpty.string_of_uint d.
Proof. by destruct d. Qed.

Lemma to_uint_nonnil n : N.to_uint n <> Decimal.Nil.
Proof. destruct n; simpl; [done | apply DecimalPos.Unsigned.to_uint_nonnil]. Qed.

Lemma dec_numeral n : Text.dec n = NilEmpty.string_of_uint (N.to_uint n).
Proof. apply numeral_of_nonnil, to_uint_nonnil. Qed.

Lemma dec_nonempty n : Text.dec n <> EmptyString.
Proof.
  rewrite dec_numeral. pose proof (to_uint_nonnil n) as H.
  by destruct (N.to_uint n).
Qed.

Lemma uint_of_zeros k s :
  NilEmpty.uint_of_string (Text.zeros k +:+ s) =
  Nat.iter k Decimal.D0 <$> NilEmpty.uint_of_string s.
Proof.
  induction k as [|k IH].
  - change (Text.zeros 0 +:+ s) with s. by destruct (NilEmpty.uint_of_string s).
  - change (Text.zeros (S k) +:+ s) with (String "0" (Text.zeros k +:+ s)).
    cbn [NilEmpty.uint_of_string]. rewrite IH.
    by destruct (NilEmpty.uint_of_string s).
Qed.

Lemma of_uint_leading_zeros k d :
  N.of_uint (Nat.iter k Decimal.D0 d) = N.of_uint d.
Proof. induction k as [|k IH]; simpl; [done | exact IH]. Qed.

Lemma py_int_padded k n :
  Text.py_int (Text.zeros k +:+ Text.dec n) = Some (Z.of_N n).
Proof.
  unfold Text.py_int.
  assert (Hne : Text.zeros k +:+ Text.dec n <> EmptyString).
  { pose proof (dec_nonempty n) as H. destruct k; [exact H | discriminate]. }
  destruct (Text.zeros k +:+ Text.dec n) as [|c s] eqn:E; [done |].
  unfold NilZero.uint_of_string. rewrite <- E.
  rewrite uint_of_zeros, dec_numeral, NilEmpty.usu. simpl.
  by rewrite of_uint_leading_zeros, DecimalN.Unsigned.of_to.
Qed.

Lemma digits_of_padded k n :
  Text.digits_of (Text.zeros k +:+ Text.dec n) = Text.zeros k +:+ Text.dec n.
Proof. by rewrite digits_of_app, digits_of_zeros, dec_numeral, digits_of_numeral. Qed.

(** The index is read back from a generated name. *)
Lemma program_idx_name (i : Z) : 0 <= i -> program_idx (program_name_of i) = i.
Proof.
  intros Hi. unfold program_idx, program_name_of, Text.fmt_d.
  destruct (Z.ltb_spec i 0) as [?|_]; [lia |].
  rewrite digits_of_app, digits_of_padded.
  change (Text.digits_of "gauntlet" +:+ ?s) with s.
  rewrite py_int_padded. lia.
Qed.

Lemma program_name_of_inj (i j : Z) :
  0 <= i -> 0 <= j -> program_name_of i = program_name_of j -> i = j.
Proof.
  intros Hi Hj H. rewrite <- (program_idx_name i Hi), <- (program_idx_name j Hj).
  by rewrite H.
Qed.

End naming.

Section loop_dir.

Lemma uint_of_digit c d :
  Text.isdigit c = true -> exists d', uint_of_char c (Some d) = Some d'.
Proof.
  destruct c as [[] [] [] [] [] [] [] []]; intros H;
    try discriminate H; cbn; eauto.
Qed.

Lemma digits_numeral name :
  exists d, NilEmpty.uint_of_string (Text.digits_of name) = Some d.
Proof.
  induction name as [|c name [d IH]]; simpl; [by eexists |].
  destruct (Text.isdigit c) eqn:E; [| by eexists].
  cbn [NilEmpty.uint_of_string]. rewrite IH. by apply uint_of_digit.
Qed.

Lemma digits_of_filter name :
  list_ascii_of_string (Text.digits_of name) =
  List.filter Text.isdigit (list_ascii_of_string name).
Proof.
  induction name as [|c name IH]; simpl; [done |].
  destruct (Text.isdigit c); simpl; by rewrite IH.
Qed.

Lemma py_int_numeral s d :
  NilEmpty.uint_of_string s = Some d ->
  Text.py_int s = if decide (s = EmptyString) then None
                  else Some (Z.of_N (N.of_uint d)).
Proof.
  intros H. destruct s as [|c s]; [done |].
  unfold Text.py_int, NilZero.uint_of_string. by rewrite H.
Qed.

Lemma program_idx_numeral name d :
  NilEmpty.uint_of_string (Text.digits_of name) = Some d ->
  program_idx name = Z.of_N (N.of_uint d).
Proof.
  intros H. unfold program_idx. rewrite (py_int_numeral _ _ H).
  case_decide as E; [| done]. rewrite E in H. by injection H as <-.
Qed.

Lemma loop_name_0 : loop_name 0 = "loop00".
Proof. reflexivity. Qed.

End loop_dir.

(** C7: the batch of index [i] is [i] divided by the configured loop size
    clamped to at least 1 (so 0 and negative sizes act as 1); it is a
    function of [i] and the size alone, non-negative, and non-decreasing in
    [i]; it is the batch the generated name of [i] is filed under. *)
Theorem batch_of_clamped (configured i : Z) :
  0 <= i ->
  let self := init configured in
  loop_index_of self i = i / Z.max 1 configured /\
  (configured <= 0 -> loop_index_of self i = i) /\
  (1 <= configured -> loop_index_of self i = i / configured) /\
  0 <= loop_index_of self i /\
  (forall j, i <= j -> loop_index_of self i <= loop_index_of self j) /\
  _loop_dir_for_program self (program_name_of i) =
    ["gauntlet"; loop_name (i / Z.max 1 configured)].
Proof.
  intros Hi self. unfold loop_index_of, self, init. cbn [loop_size].
  repeat split.
  - intros Hc. rewrite Z.max_l by lia. apply Z.div_1_r.
  - intros Hc. by rewrite Z.max_r by lia.
  - apply Z.div_pos; lia.
  - intros j Hj. apply Z.div_le_mono; lia.
  - unfold _loop_dir_for_program, loop_index_of. cbn [loop_size].
    by rewrite program_idx_name.
Qed.

Lemma batch_of_clamped_witness :
  loop_index_of (init 0) 7 = 7 /\ loop_index_of (init 5) 12 = 2 /\
  _loop_dir_for_program (init 5) "gauntlet00012" = ["gauntlet"; "loop02"].
Proof.
  destruct (batch_of_clamped 0 7 ltac:(lia)) as (_ & H0 & _).
  destruct (batch_of_clamped 5 12 ltac:(lia)) as (H5 & _ & _ & _ & _ & Hd).
  split; [apply H0; lia |]. split; [exact H5 | exact Hd].
Defined.

Section unicode_names.

Context (py : Unicode.Interpreter).

Lemma unicode_digits_of_filter s :
  Unicode.digits_of py s = List.filter (Unicode.isdigit py) s.
Proof.
  induction s as [|ch s IH]; [done |]. cbn.
  destruct (Unicode.isdigit py ch); by rewrite IH.
Qed.

Lemma read_decimal_None acc s :
  Unicode.read_decimal py acc s = None <->
  Exists (fun ch => Unicode.decimal py ch = None) s.
Proof.
  revert acc. induction s as [|ch s IH]; intros acc; cbn.
  - split; [done | by intros H%Exists_nil].
  - rewrite Exists_cons. destruct (Unicode.decimal py ch) as [d|] eqn:Hd.
    + rewrite IH. split; [by right | by intros [? | ?]].
    + split; [by left | done].
Qed.

Lemma read_decimal_values acc s values :
  Forall2 (fun ch d => Unicode.decimal py ch = Some d) s values ->
  Unicode.read_decimal py acc s =
    Some (acc * 10 ^ Z.of_nat (length values) + Unicode.positional values).
Proof.
  intros H. revert acc. induction H as [|ch d s values Hd _ IH]; intros acc.
  - cbn. f_equal. lia.
  - cbn [Unicode.read_decimal]. rewrite Hd, IH. f_equal.
    cbn [Unicode.positional length]. rewrite Nat2Z.inj_succ, Z.pow_succ_r by lia.
    ring.
Qed.

Lemma read_decimal_nonneg acc s v :
  Unicode.consistent py -> 0 <= acc ->
  Unicode.read_decimal py acc s = Some v -> 0 <= v.
Proof.
  intros [Hdec _]. revert acc. induction s as [|ch s IH]; intros acc Hacc; cbn.
  - by intros [= <-].
  - destruct (Unicode.decimal py ch) as [d|] eqn:Hd; [| done].
    apply IH. specialize (Hdec ch d Hd). lia.
Qed.

Lemma unicode_program_idx_nonneg name :
  Unicode.consistent py -> 0 <= Unicode.program_idx py name.
Proof.
  intros Hpy. unfold Unicode.program_idx, Unicode.int.
  destruct (Unicode.digits_of py name) as [|ch s]; [done |].
  destruct (Unicode.exceeds_limit py (ch :: s)); [done |].
  destruct (Unicode.read_decimal py 0 (ch :: s)) as [v|] eqn:Hv; [| done].
  by eapply read_decimal_nonneg.
Qed.

Lemma exceeds_limit_spec s :
  Unicode.exceeds_limit py s = true <->
  (640 < length s)%nat /\
  (0 < Unicode.int_max_str_digits py < length s)%nat.
Proof.
  unfold Unicode.exceeds_limit.
  rewrite !andb_true_iff, negb_true_iff, !Nat.ltb_lt, Nat.eqb_neq. lia.
Qed.

Lemma unicode_int_None s :
  Unicode.int py s = None <->
  s = [] \/ Exists (fun ch => Unicode.decimal py ch = None) s \/
  ((640 < length s)%nat /\ (0 < Unicode.int_max_str_digits py < length s)%nat).
Proof.
  rewrite <- exceeds_limit_spec, <- (read_decimal_None 0).
  unfold Unicode.int. destruct s as [|ch s]; [by split; [left |] |].
  destruct (Unicode.exceeds_limit py (ch :: s)).
  - split; [by right; right | done].
  - split; [by right; left | by intros [? | [? | ?]]].
Qed.

End unicode_names.

(** C10: the batch directory is defined for every name, whatever its
    characters.  The characters that [str.isdigit] accepts, in the order
    in which they occur, are parsed as the index: when each has a decimal
    value and the numeral is within the interpreter's limit, the index is
    the value of the numeral.  Otherwise (no digit at all, a digit such as
    a superscript two that [int] does not read, or a numeral beyond the
    limit) the index is 0 and the directory is loop00. *)
Theorem loop_dir_total (py : Unicode.Interpreter) (configured : Z)
    (name : Unicode.str) :
  Unicode.consistent py ->
  let self := init configured in
  let digits := Unicode.digits_of py name in
  let idx := Unicode.program_idx py name in
  digits = List.filter (Unicode.isdigit py) name /\
  Unicode._loop_dir_for_program py self name
    = ["gauntlet"; loop_name (idx / Z.max 1 configured)] /\
  0 <= idx / Z.max 1 configured <= idx /\
  (Unicode.int py digits = None <->
   digits = [] \/
   Exists (fun ch => Unicode.decimal py ch = None) digits \/
   ((640 < length digits)%nat /\
    (0 < Unicode.int_max_str_digits py < length digits)%nat)) /\
  (forall values,
     Forall2 (fun ch d => Unicode.decimal py ch = Some d) digits values ->
     digits <> [] ->
     (length digits <= 640 \/ Unicode.int_max_str_digits py = 0
      \/ length digits <= Unicode.int_max_str_digits py)%nat ->
     idx = Unicode.positional values) /\
  (Unicode.int py digits = None ->
   idx = 0 /\
   Unicode._loop_dir_for_program py self name = ["gauntlet"; "loop00"]).
Proof.
  intros Hpy self digits idx.
  pose proof (unicode_program_idx_nonneg py name Hpy) as Hidx. fold idx in Hidx.
  split; [apply unicode_digits_of_filter |]. split; [done |]. split.
  { split; [apply Z.div_pos; lia |]. apply Z.div_le_upper_bound; nia. }
  split; [apply unicode_int_None |]. split.
  - intros values Hvalues Hne Hlimit.
    unfold idx, Unicode.program_idx, Unicode.int. fold digits.
    destruct digits as [|ch s] eqn:Hdigits; [done |].
    destruct (Unicode.exceeds_limit py (ch :: s)) eqn:Hex.
    { apply exceeds_limit_spec in Hex. lia. }
    rewrite (read_decimal_values py 0 _ values Hvalues). lia.
  - intros Hnone.
    assert (Hzero : idx = 0).
    { unfold idx, Unicode.program_idx. fold digits. by rewrite Hnone. }
    split; [done |].
    unfold Unicode._loop_dir_for_program, loop_index_of. fold idx.
    by rewrite Hzero.
Qed.

Lemma loop_dir_total_witness :
  (* x²5: the superscript is a digit that int does not read *)
  Unicode._loop_dir_for_program Unicode.example_interpreter (init 1000)
    [120; 178; 53]%N = ["gauntlet"; "loop00"] /\
  (* no digit at all *)
  Unicode._loop_dir_for_program Unicode.example_interpreter (init 1000)
    (Unicode.codepoints "no digits here") = ["gauntlet"; "loop00"] /\
  (* a1b2 is read as 12 *)
  Unicode.program_idx Unicode.example_interpreter (Unicode.codepoints "a1b2") = 12.
Proof.
  assert (Hpy : Unicode.consistent Unicode.example_interpreter).
  { split.
    - intros ch d. cbn.
      destruct ((48 <=? ch) && (ch <=? 57))%N eqn:H1.
      { apply andb_true_iff in H1 as [?%N.leb_le ?%N.leb_le].
        intros [= <-]. lia. }
      destruct ((1632 <=? ch) && (ch <=? 1641))%N eqn:H2; [| done].
      apply andb_true_iff in H2 as [?%N.leb_le ?%N.leb_le].
      intros [= <-]. lia.
    - intros ch Hch. cbn.
      destruct ((48 <=? ch) && (ch <=? 57))%N eqn:H1; [done |].
      repeat match goal with
             | |- context [(?a =? ?b)%N] =>
                 destruct (N.eqb_spec a b); [lia |]
             end.
      destruct ((1632 <=? ch) && (ch <=? 1641))%N eqn:H2; [| done].
      apply andb_true_iff in H2 as [?%N.leb_le ?%N.leb_le]. lia. }
  destruct (loop_dir_total Unicode.example_interpreter 1000 [120; 178; 53]%N Hpy)
    as (_ & _ & _ & _ & _ & H1).
  destruct (loop_dir_total Unicode.example_interpreter 1000
              (Unicode.codepoints "no digits here") Hpy)
    as (_ & _ & _ & _ & _ & H2).
  destruct (loop_dir_total Unicode.example_interpreter 1000
              (Unicode.codepoints "a1b2") Hpy)
    as (_ & _ & _ & _ & H3 & _).
  split; [apply H1; reflexivity |]. split; [apply H2; reflexivity |].
  apply (H3 [1; 2]).
  - repeat constructor.
  - discriminate.
  - left. apply Nat.leb_le. vm_compute. reflexivity.
Defined.

(** *** The names of the run

    The run model keeps names as strings of ASCII characters and reads
    their index with [Text.isdigit] and [Text.py_int]; on such names, of at
    most 640 digits, it computes the directory that
    [Unicode._loop_dir_for_program] computes. *)

Section ascii_names.

Context (py : Unicode.Interpreter) (Hpy : Unicode.consistent py).

Lemma of_uint_acc_read d p :
  Z.pos (Pos.of_uint_acc d p) = read_uint (Z.pos p) d.
Proof.
  revert p. induction d; intros p; cbn [Pos.of_uint_acc read_uint];
    [done | rewrite IHd; f_equal; lia ..].
Qed.

Lemma of_uint_read d : Z.of_N (N.of_uint d) = read_uint 0 d.
Proof.
  unfold N.of_uint.
  induction d; cbn [Pos.of_uint read_uint]; [done | exact IHd | ..];
    cbn [Z.of_N]; by rewrite of_uint_acc_read.
Qed.

Lemma read_decimal_uint acc s d :
  NilEmpty.uint_of_string s = Some d ->
  Unicode.read_decimal py acc (Unicode.codepoints s) = Some (read_uint acc d).
Proof.
  destruct Hpy as [_ Hascii].
  revert acc d. induction s as [|c s IH]; intros acc d.
  - intros [= <-]. done.
  - cbn [NilEmpty.uint_of_string].
    destruct (NilEmpty.uint_of_string s) as [d'|] eqn:Hs;
      [| by destruct c as [[] [] [] [] [] [] [] []]].
    intros Hc.
    change (Unicode.codepoints (String c s))
      with (N_of_ascii c :: Unicode.codepoints s).
    cbn [Unicode.read_decimal].
    destruct c as [[] [] [] [] [] [] [] []]; try discriminate Hc;
      injection Hc as <-;
      (match goal with
       | |- context [Unicode.decimal py ?ch] =>
           let v := eval vm_compute in ch in
           change ch with v;
           let H := fresh in
           pose proof (proj2 (Hascii v eq_refl)) as H; cbn in H; rewrite H
       end;
       apply (IH _ _ eq_refl)).
Qed.

Lemma codepoints_digits_of name :
  Forall (fun c => (N_of_ascii c < 128)%N) (list_ascii_of_string name) ->
  Unicode.digits_of py (Unicode.codepoints name)
  = Unicode.codepoints (Text.digits_of name).
Proof.
  destruct Hpy as [_ Hascii].
  induction name as [|c name IH]; [done |].
  cbn [list_ascii_of_string]. intros [Hc Hname]%Forall_cons.
  change (Unicode.codepoints (String c name))
    with (N_of_ascii c :: Unicode.codepoints name).
  cbn [Unicode.digits_of Text.digits_of].
  rewrite (proj1 (Hascii _ Hc)). fold (Text.isdigit c).
  destruct (Text.isdigit c); by rewrite IH.
Qed.

Lemma loop_dir_ascii (self : GauntletRunner) (name : string) :
  Forall (fun c => (N_of_ascii c < 128)%N) (list_ascii_of_string name) ->
  (String.length (Text.digits_of name) <= 640)%nat ->
  Unicode.program_idx py (Unicode.codepoints name) = program_idx name /\
  Unicode._loop_dir_for_program py self (Unicode.codepoints name)
  = _loop_dir_for_program self name.
Proof.
  intros Hname Hlen.
  assert (Hidx : Unicode.program_idx py (Unicode.codepoints name) = program_idx name).
  { destruct (digits_numeral name) as [d Hd].
    rewrite (program_idx_numeral _ _ Hd).
    unfold Unicode.program_idx, Unicode.int.
    rewrite codepoints_digits_of by done.
    destruct (Text.digits_of name) as [|c s] eqn:Hs.
    { injection Hd as <-. done. }
    change (Unicode.codepoints (String c s))
      with (N_of_ascii c :: Unicode.codepoints s).
    assert (Hex : Unicode.exceeds_limit py (N_of_ascii c :: Unicode.codepoints s)
                  = false).
    { unfold Unicode.exceeds_limit.
      assert (length (N_of_ascii c :: Unicode.codepoints s)
              = String.length (String c s)) as ->.
      { unfold Unicode.codepoints. cbn [length String.length].
        rewrite length_fmap. f_equal. clear. induction s; cbn; congruence. }
      apply Nat.ltb_ge in Hlen. by rewrite Hlen. }
    rewrite Hex.
    change (N_of_ascii c :: Unicode.codepoints s)
      with (Unicode.codepoints (String c s)).
    rewrite (read_decimal_uint 0 _ d Hd). by rewrite of_uint_read. }
  split; [done |].
  unfold Unicode._loop_dir_for_program, _loop_dir_for_program. by rewrite Hidx.
Qed.

End ascii_names.

(** ** The filesystem: bucket counts *)

Section buckets.

Implicit Types (f : FS) (p : path) (c : Content) (b : string).

Lemma bucket_count_insert_other b p c f :
  in_bucket b p = false ->
  bucket_count b (<[p := c]> f) = bucket_count b f.
Proof.
  intros H. unfold bucket_count. rewrite map_filter_insert_not; [done |].
  intros y. cbn. rewrite H. auto.
Qed.

Lemma bucket_count_delete_other b p f :
  in_bucket b p = false ->
  bucket_count b (delete p f) = bucket_count b f.
Proof.
  intros H. unfold bucket_count. rewrite map_filter_delete_not; [done |].
  intros y _. cbn. rewrite H. auto.
Qed.

Lemma bucket_count_delete_le b p f :
  (bucket_count b (delete p f) <= bucket_count b f)%nat.
Proof.
  unfold bucket_count. rewrite map_filter_delete.
  apply map_subseteq_size, delete_subseteq.
Qed.

Lemma bucket_count_insert_le b p c f :
  (bucket_count b (<[p := c]> f) <= S (bucket_count b f))%nat.
Proof.
  unfold bucket_count. rewrite map_filter_insert. case_decide.
  - rewrite map_size_insert. destruct (_ !! p); simpl; lia.
  - pose proof (bucket_count_delete_le b p f) as H'. unfold bucket_count in H'. lia.
Qed.

Lemma in_bucket_staged b name : in_bucket b (p4_file p4c_build_dir name) = false.
Proof. reflexivity. Qed.

Lemma in_bucket_cov b k : in_bucket b (cov_file k) = false.
Proof. reflexivity. Qed.

Lemma in_bucket_unique b b' p :
  in_bucket b p = true -> in_bucket b' p = true -> b = b'.
Proof.
  destruct p as [|g [|d [|x [|file [|]]]]]; try done. cbn.
  rewrite !andb_true_iff, !bool_decide_eq_true.
  intros [[_ H1] _] [[_ H2] _]. congruence.
Qed.

Lemma summary_of_insert_other p c f :
  (forall b, in_bucket b p = false) ->
  summary_of (<[p := c]> f) = summary_of f.
Proof. intros H. unfold summary_of. by rewrite !bucket_count_insert_other. Qed.

Lemma stored_total_insert_other p c f :
  (forall b, in_bucket b p = false) ->
  stored_total (<[p := c]> f) = stored_total f.
Proof. intros H. unfold stored_total. by rewrite !bucket_count_insert_other. Qed.

Lemma stored_total_delete_other p f :
  (forall b, in_bucket b p = false) ->
  stored_total (delete p f) = stored_total f.
Proof. intros H. unfold stored_total. by rewrite !bucket_count_delete_other. Qed.

(** One insertion stores at most one more program. *)
Lemma stored_total_insert_le p c f :
  (stored_total (<[p := c]> f) <= S (stored_total f))%nat.
Proof.
  unfold stored_total.
  destruct (in_bucket "welltyped" p) eqn:E1.
  { assert (forall b, b <> "welltyped" -> in_bucket b p = false) as H.
    { intros b Hb. destruct (in_bucket b p) eqn:E; [| done].
      by destruct Hb; eapply in_bucket_unique. }
    rewrite (bucket_count_insert_other "illtyped"), (bucket_count_insert_other "illformed"),
      (bucket_count_insert_other "timeout") by (apply H; discriminate).
    pose proof (bucket_count_insert_le "welltyped" p c f). lia. }
  rewrite (bucket_count_insert_other "welltyped") by done.
  destruct (in_bucket "illtyped" p) eqn:E2.
  { assert (forall b, b <> "illtyped" -> in_bucket b p = false) as H.
    { intros b Hb. destruct (in_bucket b p) eqn:E; [| done].
      by destruct Hb; eapply in_bucket_unique. }
    rewrite (bucket_count_insert_other "illformed"),
      (bucket_count_insert_other "timeout") by (apply H; discriminate).
    pose proof (bucket_count_insert_le "illtyped" p c f). lia. }
  rewrite (bucket_count_insert_other "illtyped") by done.
  destruct (in_bucket "illformed" p) eqn:E3.
  { assert (forall b, b <> "illformed" -> in_bucket b p = false) as H.
    { intros b Hb. destruct (in_bucket b p) eqn:E; [| done].
      by destruct Hb; eapply in_bucket_unique. }
    rewrite (bucket_count_insert_other "timeout") by (apply H; discriminate).
    pose proof (bucket_count_insert_le "illformed" p c f). lia. }
  rewrite (bucket_count_insert_other "illformed") by done.
  pose proof (bucket_count_insert_le "timeout" p c f). lia.
Qed.

End buckets.

(** ** The effect of each method *)

Section methods.

Context (env : Env) (self : GauntletRunner).

Local Abbreviation staged name := (p4_file p4c_build_dir name).

Lemma generate_fs name w :
  fs (generate_p4_program env name w).2 =
    if find_p4smith env then p4smith_effect env name (fs w) else fs w.
Proof.
  unfold generate_p4_program.
  destruct (find_p4smith env); cbn [negb]; [| done].
  destruct (p4smith env name); [| done | done].
  by repeat case_match.
Qed.

Lemma generate_trace name w :
  trace (generate_p4_program env name w).2 =
    trace w ++ (if find_p4smith env then [GenerateAttempt name] else []).
Proof.
  unfold generate_p4_program.
  destruct (find_p4smith env); cbn [negb]; [| by rewrite app_nil_r].
  destruct (p4smith env name); [| done | done].
  by repeat case_match.
Qed.

Lemma generate_ok name w :
  (generate_p4_program env name w).1 = true ->
  find_p4smith env = true /\
  is_Some (fs (generate_p4_program env name w).2 !! staged name).
Proof.
  rewrite generate_fs. unfold generate_p4_program.
  destruct (find_p4smith env); cbn [negb]; [| done].
  destruct (p4smith env name); [| done | done].
  destruct (negb _); [done |].
  destruct (negb (exists_ _ _)) eqn:E; [done |]. intros _. split; [done |].
  apply negb_false_iff, bool_decide_eq_true in E. exact E.
Qed.

Lemma p4smith_effect_other name p f :
  p <> staged name -> p4smith_effect env name f !! p = f !! p.
Proof.
  intros Hp. unfold p4smith_effect.
  destruct (p4smith_output env name); [| done]. by rewrite lookup_insert_ne.
Qed.

Lemma p4smith_effect_stored name f :
  stored_total (p4smith_effect env name f) = stored_total f.
Proof.
  unfold p4smith_effect. destruct (p4smith_output env name); [| done].
  by apply stored_total_insert_other.
Qed.

Lemma p4smith_effect_summary name f :
  summary_of (p4smith_effect env name f) = summary_of f.
Proof.
  unfold p4smith_effect. destruct (p4smith_output env name); [| done].
  by apply summary_of_insert_other.
Qed.

Lemma test_error_cases name w out :
  test_p4_program env name w = (Error, out) ->
  exists_ (staged name) (fs w) = false \/ watsup_present env = false \/
  p4spectec_run_sl env name = OtherException \/
  exists rc o e, p4spectec_run_sl env name = Completed rc o e /\
                 out = o +:+ e /\ classify out = Error.
Proof.
  unfold test_p4_program.
  destruct (exists_ _ _); cbn [negb]; [| auto].
  destruct (watsup_present env); cbn [negb]; [| auto].
  destruct (p4spectec_run_sl env name) as [rc o e | |]; [| done | auto].
  intros [= H <-]. do 3 right. by exists rc, o, e.
Qed.

(** A successful relocation moves the staged file into its bucket; a failed
    one leaves the filesystem alone. *)
Lemma categorize_true name rt w w' :
  categorize_program env self name rt w = (true, w') ->
  exists b c,
    bucket_name rt = Some b /\ fs w !! staged name = Some c /\
    move_ok env name = true /\
    fs w' = <[p4_file (_loop_dir_for_program self name ++ [b]) name := c]>
              (delete (staged name) (fs w)) /\
    trace w' = trace w ++ [Moved name (_loop_dir_for_program self name ++ [b])].
Proof.
  unfold categorize_program.
  destruct (exists_ _ _) eqn:E; cbn [negb]; [| done].
  destruct (bucket_name rt) as [b|]; [| done].
  destruct (move_ok env name); [| done]. intros [= <-].
  apply bool_decide_eq_true in E as [c Hc]. exists b, c.
  cbn [fs trace emit set_fs]. unfold move. by rewrite Hc.
Qed.

Lemma categorize_false name rt w w' :
  categorize_program env self name rt w = (false, w') ->
  fs w' = fs w /\
  exists e, trace w' = trace w ++ [e] /\
            (e = SourceNotFound name \/ e = UnknownResultType name \/
             e = MoveFailed name).
Proof.
  unfold categorize_program.
  destruct (exists_ _ _); cbn [negb]; [| intros [= <-]; eauto 6].
  destruct (bucket_name rt); [| intros [= <-]; eauto 6].
  destruct (move_ok env name); [done | intros [= <-]; eauto 6].
Qed.

Lemma print_summary_fs w : fs (print_summary w) = fs w.
Proof. done. Qed.

Lemma print_summary_trace w :
  trace (print_summary w) =
    trace w ++ [Summary (bucket_count "welltyped" (fs w))
                  (bucket_count "illtyped" (fs w))
                  (bucket_count "illformed" (fs w))
                  (bucket_count "timeout" (fs w))].
Proof. done. Qed.

(** [measure_loop_coverage] writes nothing but the coverage file of its
    loop, and logs its call first. *)
Lemma measure_fs k w :
  fs (measure_loop_coverage env k w) = fs w \/
  exists c, fs (measure_loop_coverage env k w) = <[cov_file k := CoverageData c]> (fs w).
Proof.
  unfold measure_loop_coverage.
  destruct (watsup_present env); cbn [negb]; [| by left].
  destruct (p4spectec_cover env k); [| by left | by left].
  destruct (negb _); [by left |].
  repeat case_match; cbn [fs set_fs emit]; unfold write_coverage;
    rewrite ?insert_insert_eq; eauto.
Qed.

Lemma measure_trace k w :
  exists es, trace (measure_loop_coverage env k w) = trace w ++ MeasureCall k :: es /\
    measure_calls es = [] /\ summaries es = [] /\ stored_names es = [] /\
    attempts es = [].
Proof.
  unfold measure_loop_coverage.
  destruct (watsup_present env); cbn [negb];
    [| exists [NoWatsupForCoverage]; cbn; by rewrite <- app_assoc].
  destruct (p4spectec_cover env k);
    [| exists [CoverageFailed k]; cbn; by rewrite <- app_assoc ..].
  destruct (negb _); [exists [CoverageFailed k]; cbn; by rewrite <- app_assoc |].
  repeat case_match; cbn [trace set_fs emit];
    first [ by exists [] | rewrite <- app_assoc; by eexists [_] ].
Qed.

Lemma measure_stored k w :
  stored_total (fs (measure_loop_coverage env k w)) = stored_total (fs w) /\
  summary_of (fs (measure_loop_coverage env k w)) = summary_of (fs w).
Proof.
  destruct (measure_fs k w) as [-> | [c ->]]; [done |].
  by rewrite stored_total_insert_other, summary_of_insert_other.
Qed.

End methods.

(** ** One iteration of the loop *)

Section cycle.

Context (env : Env) (self : GauntletRunner).

Lemma loop_body_outcome l w : cycle_outcome env self l w (loop_body env self l w).
Proof.
  unfold loop_body. cbn [program_count last_measured_loop_index].
  destruct (generate_p4_program _ _ w) as [[] wg] eqn:Hg; cbn [negb];
    [| by apply cycle_skipped].
  destruct (test_p4_program _ _ wg) as [rt out] eqn:Ht.
  case_bool_decide as Hrt.
  - subst rt. cbn [fs emit].
    destruct (exists_ _ (fs wg)) eqn:He.
    + by eapply cycle_discarded.
    + pose proof (cycle_discarded env self l w wg out Hg Ht) as H.
      rewrite delete_id in H; [by destruct wg |].
      unfold exists_ in He. apply bool_decide_eq_false in He.
      by apply eq_None_not_Some.
  - destruct (categorize_program _ _ _ rt wg) as [[] wc] eqn:Hc; cbn [negb].
    + exact (cycle_stored env self l w wg rt out wc Hg Ht Hrt Hc).
    + by eapply cycle_unsorted.
Qed.

End cycle.

Section cycle_facts.

Context (env : Env) (self : GauntletRunner).

Local Abbreviation staged name := (p4_file p4c_build_dir name).

(** The filesystem and the trace after one iteration, case by case. *)
Lemma cycle_effect l w :
  let name := program_name_of (program_count l) in
  let boundary := ((program_count l + 1) mod loop_size self =? 0)%Z in
  let k := (program_count l + 1 - 1) / loop_size self in
  let G := if find_p4smith env then [GenerateAttempt name] else [] in
  let fg := if find_p4smith env then p4smith_effect env name (fs w) else fs w in
  let l' := (loop_body env self l w).1 in
  let w' := (loop_body env self l w).2 in
  program_count l' = program_count l + 1 /\
  ( ( (generate_p4_program env name w).1 = false /\
      last_measured_loop_index l' = last_measured_loop_index l /\
      fs w' = fg /\ trace w' = trace w ++ G ++ [GenerateFailed name] )
  \/ ( exists out,
      (generate_p4_program env name w).1 = true /\
      test_p4_program env name (generate_p4_program env name w).2 = (Error, out) /\
      last_measured_loop_index l' = last_measured_loop_index l /\
      fs w' = delete (staged name) fg /\
      trace w' = trace w ++ G ++ [ErrorTesting name out] )
  \/ ( exists e,
      (generate_p4_program env name w).1 = true /\
      last_measured_loop_index l' = last_measured_loop_index l /\
      fs w' = fg /\ quiet [e] /\
      trace w' = trace w ++ G ++ [e; CategorizeFailed name] )
  \/ ( exists rt b c es,
      (generate_p4_program env name w).1 = true /\
      bucket_name rt = Some b /\ fg !! staged name = Some c /\
      let fm := <[p4_file (_loop_dir_for_program self name ++ [b]) name := c]>
                  (delete (staged name) fg) in
      quiet es /\
      trace w' = trace w ++ G
                 ++ [Moved name (_loop_dir_for_program self name ++ [b]);
                     Processed name rt]
                 ++ (if ((program_count l + 1) mod 10 =? 0)%Z
                     then [Summary (bucket_count "welltyped" fm)
                             (bucket_count "illtyped" fm)
                             (bucket_count "illformed" fm)
                             (bucket_count "timeout" fm)]
                     else [])
                 ++ (if boundary then MeasureCall k :: es else []) /\
      (fs w' = fm \/
       boundary = true /\ exists cov, fs w' = <[cov_file k := CoverageData cov]> fm) /\
      last_measured_loop_index l' =
        if boundary then k else last_measured_loop_index l ) ).
Proof.
  intros name boundary k G fg l' w'. subst l' w'.
  pose proof (generate_fs env name w) as Hgf.
  pose proof (generate_trace env name w) as Hgt.
  fold name G fg in Hgf, Hgt.
  generalize (loop_body_outcome env self l w).
  generalize (loop_body env self l w). intros lw H.
  destruct H as [wg Hg | wg out Hg Ht | wg rt out wc Hg Ht Hrt Hc
                | wg rt out wc Hg Ht Hrt Hc];
    fold name in Hg; rewrite Hg in Hgf, Hgt |- *; cbn [fst snd] in *.
  - split; [done |]. left. cbn [fs trace emit]. rewrite Hgf, Hgt.
    repeat split. by rewrite <- app_assoc.
  - split; [done |]. right; left. exists out. fold name in Ht |- *.
    cbn [fs trace emit set_fs program_count last_measured_loop_index].
    rewrite Hgf, Hgt. repeat split; try done. by rewrite <- app_assoc.
  - split; [done |]. right; right; left. fold name in Hc |- *.
    destruct (categorize_false env self _ _ _ _ Hc) as (Hf & e & He & Hq).
    exists e. cbn [fs trace emit program_count last_measured_loop_index].
    rewrite Hf, He, Hgf, Hgt.
    repeat split; try done; try (by destruct Hq as [-> | [-> | ->]]).
    by rewrite <- !app_assoc.
  - fold name boundary k in Hc |- *.
    destruct (categorize_true env self _ _ _ _ Hc) as (b & c & Hb & Hs & _ & Hf & Hm).
    rewrite Hgf in Hs, Hf. rewrite Hgt in Hm.
    set (fm := <[p4_file (_loop_dir_for_program self name ++ [b]) name := c]>
                 (delete (staged name) fg)) in *.
    set (w1 := emit (Processed name rt) wc).
    set (w2 := if ((program_count l + 1) mod 10 =? 0)%Z then print_summary w1 else w1).
    assert (Hf2 : fs w2 = fm) by (subst w2 w1; destruct ((program_count l + 1) mod 10 =? 0)%Z; exact Hf).
    assert (Ht2 : trace w2 = trace w ++ G
                 ++ [Moved name (_loop_dir_for_program self name ++ [b]);
                     Processed name rt]
                 ++ (if ((program_count l + 1) mod 10 =? 0)%Z
                     then [Summary (bucket_count "welltyped" fm)
                             (bucket_count "illtyped" fm)
                             (bucket_count "illformed" fm)
                             (bucket_count "timeout" fm)]
                     else [])).
    { subst w2 w1. destruct ((program_count l + 1) mod 10 =? 0)%Z.
      - rewrite print_summary_trace. cbn [fs trace emit]. rewrite Hm, Hf.
        by rewrite <- !app_assoc.
      - cbn [trace emit]. rewrite Hm, app_nil_r. by rewrite <- !app_assoc. }
    destruct boundary eqn:Hbd; cbn [fst snd program_count last_measured_loop_index].
    + split; [done |]. do 3 right.
      destruct (measure_trace env k w2) as (es & Hes & Hq).
      exists rt, b, c, es. repeat split; try done; try apply Hq.
      * rewrite Hes, Ht2. by rewrite <- !app_assoc.
      * destruct (measure_fs env k w2) as [-> | [cov ->]]; rewrite Hf2; eauto.
    + split; [done |]. do 3 right. exists rt, b, c, [].
      repeat split; try done.
      * rewrite Ht2. by rewrite !app_nil_r.
      * by left.
Qed.

End cycle_facts.

Section projections.

Lemma measure_calls_app a b : measure_calls (a ++ b) = measure_calls a ++ measure_calls b.
Proof. apply omap_app. Qed.
Lemma summaries_app a b : summaries (a ++ b) = summaries a ++ summaries b.
Proof. apply omap_app. Qed.
Lemma stored_names_app a b : stored_names (a ++ b) = stored_names a ++ stored_names b.
Proof. apply omap_app. Qed.
Lemma attempts_app a b : attempts (a ++ b) = attempts a ++ attempts b.
Proof. apply omap_app. Qed.

Lemma measure_calls_cons e es : measure_calls (e :: es) = measure_calls [e] ++ measure_calls es.
Proof. apply (measure_calls_app [e]). Qed.
Lemma summaries_cons e es : summaries (e :: es) = summaries [e] ++ summaries es.
Proof. apply (summaries_app [e]). Qed.
Lemma stored_names_cons e es : stored_names (e :: es) = stored_names [e] ++ stored_names es.
Proof. apply (stored_names_app [e]). Qed.
Lemma attempts_cons e es : attempts (e :: es) = attempts [e] ++ attempts es.
Proof. apply (attempts_app [e]). Qed.

End projections.

(** Split a trace equation into the four projections and simplify. *)
Ltac project Hq :=
  destruct Hq as (?Hq1 & ?Hq2 & ?Hq3 & ?Hq4);
  rewrite ?measure_calls_app, ?summaries_app, ?stored_names_app, ?attempts_app;
  repeat match goal with
  | |- context [measure_calls (?e :: ?es)] =>
      lazymatch es with [] => fail | _ => rewrite (measure_calls_cons e es) end
  | |- context [summaries (?e :: ?es)] =>
      lazymatch es with [] => fail | _ => rewrite (summaries_cons e es) end
  | |- context [stored_names (?e :: ?es)] =>
      lazymatch es with [] => fail | _ => rewrite (stored_names_cons e es) end
  | |- context [attempts (?e :: ?es)] =>
      lazymatch es with [] => fail | _ => rewrite (attempts_cons e es) end
  end;
  rewrite ?Hq1, ?Hq2, ?Hq3, ?Hq4; cbn; rewrite ?app_nil_r.

Section cycle_consequences.

Context (env : Env) (self : GauntletRunner).

Local Abbreviation staged name := (p4_file p4c_build_dir name).

Lemma quiet_nil : quiet [].
Proof. done. Qed.

Lemma loop_body_count l w :
  program_count (loop_body env self l w).1 = program_count l + 1.
Proof. apply cycle_effect. Qed.

(** p4smith is run once per iteration, for the name of the current index. *)
Lemma loop_body_attempts l w :
  attempts (trace (loop_body env self l w).2) =
    attempts (trace w)
    ++ (if find_p4smith env then [program_name_of (program_count l)] else []).
Proof.
  pose proof (cycle_effect env self l w) as H. cbn zeta in H.
  destruct (find_p4smith env);
    destruct ((program_count l + 1) `mod` 10 =? 0)%Z;
    destruct ((program_count l + 1) `mod` loop_size self =? 0)%Z;
    destruct H as
      (_ & [(_ & _ & _ & ->) | [(out & _ & _ & _ & _ & ->)
        | [(e & _ & _ & _ & Hq & ->) | (rt & b & c & es & _ & _ & _ & Hq & -> & _)]]]);
    try (pose proof quiet_nil as Hq); by project Hq.
Qed.

(** Which iterations call [measure_loop_coverage], and what they leave in
    [last_measured_loop_index]. *)
Lemma loop_body_measure l w :
  let l' := (loop_body env self l w).1 in
  let w' := (loop_body env self l w).2 in
  (measure_calls (trace w') = measure_calls (trace w) /\
   last_measured_loop_index l' = last_measured_loop_index l)
  \/
  (measure_calls (trace w')
     = measure_calls (trace w) ++ [(program_count l + 1 - 1) / loop_size self] /\
   last_measured_loop_index l' = (program_count l + 1 - 1) / loop_size self /\
   (program_count l + 1) mod loop_size self = 0).
Proof.
  pose proof (cycle_effect env self l w) as H. cbn zeta in *.
  destruct (find_p4smith env);
    destruct ((program_count l + 1) `mod` 10 =? 0)%Z;
    destruct (Z.eqb_spec ((program_count l + 1) `mod` loop_size self) 0) as [Hbd|Hbd];
    destruct H as
      (_ & [(_ & Hl & _ & Ht) | [(out & _ & _ & Hl & _ & Ht)
        | [(e & _ & Hl & _ & Hq & Ht) | (rt & b & c & es & _ & _ & _ & Hq & Ht & _ & Hl)]]]);
    rewrite Ht, Hl; try (pose proof quiet_nil as Hq);
    first [ left; by project Hq | right; by project Hq ].
Qed.

(** Which iterations store a program, and the summary an iteration that
    stores one prints. *)
Lemma loop_body_store l w :
  let l' := (loop_body env self l w).1 in
  let w' := (loop_body env self l w).2 in
  (stored_names (trace w') = stored_names (trace w) /\
   summaries (trace w') = summaries (trace w))
  \/
  (stored_names (trace w')
     = stored_names (trace w) ++ [program_name_of (program_count l)] /\
   summaries (trace w') =
     summaries (trace w)
     ++ (if ((program_count l + 1) mod 10 =? 0)%Z then [summary_of (fs w')] else [])).
Proof.
  pose proof (cycle_effect env self l w) as H. cbn zeta in *.
  destruct H as
      (_ & [(_ & _ & _ & Ht) | [(out & _ & _ & _ & _ & Ht)
        | [(e & _ & _ & _ & Hq & Ht) | (rt & b & c & es & _ & _ & _ & Hq & Ht & Hf & _)]]]);
    rewrite Ht.
  1-3: left; try (pose proof quiet_nil as Hq);
       destruct (find_p4smith env); by project Hq.
  right.
  match type of Hf with (_ = ?fm \/ _) =>
    assert (Hsum : summary_of (fs (loop_body env self l w).2) = summary_of fm)
  end.
  { destruct Hf as [-> | [_ [cov ->]]]; [done |]. by apply summary_of_insert_other. }
  rewrite Hsum. clear Hsum Hf Ht.
  destruct (find_p4smith env);
    destruct ((program_count l + 1) `mod` 10 =? 0)%Z;
    destruct ((program_count l + 1) `mod` loop_size self =? 0)%Z;
    by project Hq.
Qed.

End cycle_consequences.

Section paths.

Lemma list_ascii_app a b :
  list_ascii_of_string (a +:+ b) = list_ascii_of_string a ++ list_ascii_of_string b.
Proof. induction a as [|c a IH]; simpl; [done | by rewrite IH]. Qed.

Lemma append_inj_r a b s : a +:+ s = b +:+ s -> a = b.
Proof.
  intros H%(f_equal list_ascii_of_string). rewrite !list_ascii_app in H.
  apply app_inv_tail in H.
  by rewrite <- (string_of_list_ascii_of_string a),
             <- (string_of_list_ascii_of_string b), H.
Qed.

Lemma last_p4_file dir name : last (p4_file dir name) = Some (name +:+ ".p4").
Proof. apply last_snoc. Qed.

Lemma p4_file_name_inj i j :
  0 <= i -> 0 <= j ->
  program_name_of i +:+ ".p4" = program_name_of j +:+ ".p4" -> i = j.
Proof. intros Hi Hj H%append_inj_r. by apply program_name_of_inj. Qed.

Lemma cov_file_not_p4 k i p :
  last p = Some (program_name_of i +:+ ".p4") -> p <> cov_file k.
Proof. intros Hp ->. discriminate Hp. Qed.

End paths.

Section cycle_filesystem.

Context (env : Env) (self : GauntletRunner).

Local Abbreviation staged name := (p4_file p4c_build_dir name).

(** An iteration stores at most one program. *)
Lemma loop_body_stored_le l w :
  (stored_total (fs (loop_body env self l w).2) <= S (stored_total (fs w)))%nat.
Proof.
  pose proof (cycle_effect env self l w) as H. cbn zeta in H.
  set (fg := if find_p4smith env
             then p4smith_effect env (program_name_of (program_count l)) (fs w)
             else fs w) in *.
  assert (Hfg : stored_total fg = stored_total (fs w)).
  { subst fg. destruct (find_p4smith env); [apply p4smith_effect_stored | done]. }
  destruct H as
      (_ & [(_ & _ & -> & _) | [(out & _ & _ & _ & -> & _)
        | [(e & _ & _ & -> & _) | (rt & b & c & es & _ & _ & _ & _ & _ & Hf & _)]]]).
  - lia.
  - rewrite stored_total_delete_other by done. lia.
  - lia.
  - match type of Hf with (_ = ?fm \/ _) =>
      assert (Hfm : (stored_total fm <= S (stored_total (fs w)))%nat)
    end.
    { etrans; [apply stored_total_insert_le |].
      rewrite stored_total_delete_other by done. lia. }
    destruct Hf as [-> | [_ [cov ->]]]; [done |].
    by rewrite stored_total_insert_other.
Qed.

(** An iteration whose generation fails leaves only what p4smith did. *)
Lemma loop_body_skipped l w :
  generation_fails env (program_name_of (program_count l)) ->
  fs (loop_body env self l w).2 =
    if find_p4smith env
    then p4smith_effect env (program_name_of (program_count l)) (fs w)
    else fs w.
Proof.
  intros Hfail. pose proof (cycle_effect env self l w) as H. cbn zeta in H.
  specialize (Hfail w).
  destruct H as
      (_ & [(_ & _ & -> & _) | [(out & Hg & _) | [(e & Hg & _) | (rt & b & c & es & Hg & _)]]]);
    [done | congruence ..].
Qed.

(** An iteration touches only files named after its own program, and
    coverage files. *)
Lemma loop_body_frame l w p :
  last p <> Some (program_name_of (program_count l) +:+ ".p4") ->
  (forall k, p <> cov_file k) ->
  fs (loop_body env self l w).2 !! p = fs w !! p.
Proof.
  intros Hp Hcov. pose proof (cycle_effect env self l w) as H. cbn zeta in H.
  set (name := program_name_of (program_count l)) in *.
  set (fg := if find_p4smith env then p4smith_effect env name (fs w) else fs w) in *.
  assert (Hstaged : p <> staged name).
  { intros ->. by rewrite last_p4_file in Hp. }
  assert (Hfg : fg !! p = fs w !! p).
  { subst fg. destruct (find_p4smith env); [by apply p4smith_effect_other | done]. }
  destruct H as
      (_ & [(_ & _ & -> & _) | [(out & _ & _ & _ & -> & _)
        | [(e & _ & _ & -> & _) | (rt & b & c & es & _ & _ & _ & _ & _ & Hf & _)]]]).
  - done.
  - by rewrite lookup_delete_ne.
  - done.
  - assert (Hdest : p <> p4_file (_loop_dir_for_program self name ++ [b]) name).
    { intros ->. by rewrite last_p4_file in Hp. }
    destruct Hf as [-> | [_ [cov ->]]].
    + by rewrite lookup_insert_ne, lookup_delete_ne.
    + rewrite lookup_insert_ne by (symmetry; apply Hcov).
      by rewrite lookup_insert_ne, lookup_delete_ne.
Qed.

Lemma finishing_fs l w :
  fs (finishing env self l w) = fs w \/
  exists k cov, fs (finishing env self l w) = <[cov_file k := CoverageData cov]> (fs w).
Proof.
  unfold finishing. rewrite print_summary_fs.
  destruct (_ >? 0)%Z; [| by left].
  destruct (negb _); [| by left].
  destruct (measure_fs env ((program_count l - 1) `div` loop_size self)
              (emit (GauntletCompleted (program_count l)) w)) as [-> | [cov ->]];
    [by left | right; eauto].
Qed.

Lemma finishing_stored l w :
  stored_total (fs (finishing env self l w)) = stored_total (fs w).
Proof.
  destruct (finishing_fs l w) as [-> | (k & cov & ->)]; [done |].
  by apply stored_total_insert_other.
Qed.

Lemma finishing_attempts l w :
  attempts (trace (finishing env self l w)) = attempts (trace w).
Proof.
  unfold finishing. rewrite print_summary_trace, attempts_app.
  cbn [attempts omap]. rewrite app_nil_r.
  destruct (_ >? 0)%Z; [| cbn; by rewrite attempts_app, app_nil_r].
  destruct (negb _); [| cbn; by rewrite attempts_app, app_nil_r].
  destruct (measure_trace env ((program_count l - 1) `div` loop_size self)
              (emit (GauntletCompleted (program_count l)) w)) as (es & -> & Hq).
  cbn [trace emit]. by project Hq.
Qed.

End cycle_filesystem.

(** ** The run loop *)

Section run.

Context (env : Env) (self : GauntletRunner).

Lemma cycles_S n lw :
  cycles env self (S n) lw =
    loop_body env self (cycles env self n lw).1 (cycles env self n lw).2.
Proof. reflexivity. Qed.

Lemma cycles_shift n l w :
  cycles env self (S n) (l, w) = cycles env self n (loop_body env self l w).
Proof. unfold cycles. by rewrite Nat.iter_succ_r. Qed.

Lemma cycles_count n l w :
  program_count (cycles env self n (l, w)).1 = program_count l + Z.of_nat n.
Proof.
  induction n as [|n IH]; [cbn; lia |].
  rewrite cycles_S, loop_body_count, IH. lia.
Qed.

Lemma run_loop_S duration count fuel l w :
  run_loop env self duration count (S fuel) l w =
    match stop_check env duration count l with
    | Some e => Some (l, emit e w)
    | None => run_loop env self duration count fuel
                (loop_body env self l w).1 (loop_body env self l w).2
    end.
Proof. cbn [run_loop]. by destruct (loop_body env self l w). Qed.

Lemma stop_check_count (c : Z) l :
  (forall k, interrupt env k = false) ->
  0 < c ->
  stop_check env None (Some c) l =
    if (c <=? program_count l)%Z then Some CountLimit else None.
Proof.
  intros Hint Hc. unfold stop_check. rewrite Hint. cbn [truthy andb].
  by destruct (Z.eqb_spec c 0) as [?|_]; [lia |].
Qed.

(** In count mode, without interrupts, the loop makes exactly [count]
    iterations and then stops on the count limit. *)
Lemma run_loop_by_count (c : Z) n extra l w :
  (forall k, interrupt env k = false) ->
  0 < c ->
  program_count l + Z.of_nat n = c ->
  run_loop env self None (Some c) (S n + extra) l w =
    Some ((cycles env self n (l, w)).1,
          emit CountLimit (cycles env self n (l, w)).2).
Proof.
  intros Hint Hc. revert l w.
  induction n as [|n IH]; intros l w Hn;
    change (S ?a + extra)%nat with (S (a + extra));
    rewrite run_loop_S, stop_check_count by done.
  - destruct (Z.leb_spec c (program_count l)); [done | lia].
  - destruct (Z.leb_spec c (program_count l)); [lia |].
    rewrite cycles_shift.
    pose proof (loop_body_count env self l w) as Hpc.
    destruct (loop_body env self l w) as [l' w']. cbn [fst snd] in *.
    apply IH. lia.
Qed.

Lemma cycles_attempts n w :
  find_p4smith env = true ->
  attempts (trace (cycles env self n (initial_locals, w)).2) =
    attempts (trace w)
    ++ ((fun k => program_name_of (Z.of_nat k)) <$> seq 0 n).
Proof.
  intros Hfind. induction n as [|n IH]; [cbn; by rewrite app_nil_r |].
  rewrite cycles_S, loop_body_attempts, IH, Hfind, cycles_count.
  rewrite seq_S, fmap_app, app_assoc. cbn. by rewrite Z.add_0_l.
Qed.

Lemma cycles_stored_le n w :
  (stored_total (fs (cycles env self n (initial_locals, w)).2)
   <= stored_total (fs w) + n)%nat.
Proof.
  induction n as [|n IH]; [cbn; lia |].
  rewrite cycles_S.
  pose proof (loop_body_stored_le env self
                (cycles env self n (initial_locals, w)).1
                (cycles env self n (initial_locals, w)).2). lia.
Qed.

Section one_failure.

Context (i : Z) (Hi : 0 <= i).
Context (Hfind : find_p4smith env = true).
Context (Hfail : generation_fails env (program_name_of i)).

(** The failed index costs one stored program. *)
Lemma cycles_stored_failed n w :
  (stored_total (fs (cycles env self n (initial_locals, w)).2)
   + (if decide (i < Z.of_nat n)%Z then 1 else 0)
   <= stored_total (fs w) + n)%nat.
Proof.
  induction n as [|n IH]; [cbn; case_decide; lia |].
  rewrite cycles_S.
  pose proof (cycles_count n initial_locals w) as Hpc. cbn in Hpc.
  destruct (decide (i = Z.of_nat n)) as [->|Hne].
  - rewrite loop_body_skipped by (by rewrite Hpc).
    rewrite Hfind, p4smith_effect_stored.
    pose proof (cycles_stored_le n w). repeat case_decide; lia.
  - pose proof (loop_body_stored_le env self
                  (cycles env self n (initial_locals, w)).1
                  (cycles env self n (initial_locals, w)).2).
    repeat case_decide; lia.
Qed.

Lemma p4smith_effect_lookup_ext name f f' p :
  f !! p = f' !! p ->
  p4smith_effect env name f !! p = p4smith_effect env name f' !! p.
Proof.
  intros H. unfold p4smith_effect. destruct (p4smith_output env name); [| done].
  destruct (decide (p = p4_file p4c_build_dir name)) as [->|Hne].
  - by rewrite !lookup_insert_eq.
  - by rewrite !lookup_insert_ne.
Qed.

(** The files named after the failed index are those p4smith left. *)
Lemma cycles_failed_frame n w p :
  last p = Some (program_name_of i +:+ ".p4") ->
  fs (cycles env self n (initial_locals, w)).2 !! p =
    (if decide (i < Z.of_nat n)
     then p4smith_effect env (program_name_of i) (fs w) else fs w) !! p.
Proof.
  intros Hp. induction n as [|n IH]; [by case_decide; [lia |] |].
  rewrite cycles_S.
  pose proof (cycles_count n initial_locals w) as Hpc. cbn in Hpc.
  destruct (decide (i = Z.of_nat n)) as [->|Hne].
  - rewrite loop_body_skipped by (by rewrite Hpc). rewrite Hfind, Hpc.
    rewrite decide_True by lia. apply p4smith_effect_lookup_ext.
    rewrite IH. by rewrite decide_False by lia.
  - rewrite loop_body_frame.
    + rewrite IH. repeat case_decide; try lia; done.
    + rewrite Hp, Hpc, Z.add_0_l. intros H.
      assert (program_name_of i +:+ ".p4"
              = program_name_of (Z.of_nat n) +:+ ".p4") as H' by congruence.
      apply p4_file_name_inj in H'; lia.
    + intros k. by eapply cov_file_not_p4.
Qed.

End one_failure.

End run.

(** ** Generation failures *)

Lemma fresh_gauntlet_stored f : fresh_gauntlet f -> stored_total f = 0%nat.
Proof.
  intros Hfresh.
  assert (forall b, bucket_count b f = 0%nat) as H.
  { intros b. unfold bucket_count.
    rewrite map_empty_filter_2; [apply map_size_empty |].
    intros p c Hp Hin. cbn in Hin.
    destruct p as [|g [|d [|x [|file [|]]]]]; try done. cbn in Hin.
    destruct (bool_decide_reflect (g = "gauntlet")) as [->|]; [| done].
    by rewrite Hfresh in Hp. }
  unfold stored_total. by rewrite !H.
Qed.

(** X16: in a run by count, not interrupted, in which generation fails for
    index [i], no bucket holds a program of [i] and the files named after
    it are as p4smith left them (the code neither writes nor removes one),
    p4smith is still run for every later index, the index counter reaches
    the count, and fewer programs are stored than the count. *)
Theorem failed_generation_is_skipped env self (c i : Z) (extra : nat) w :
  check_dependencies env = true ->
  (forall k, interrupt env k = false) ->
  0 <= i < c ->
  generation_fails env (program_name_of i) ->
  fresh_gauntlet (fs w) ->
  exists l w',
    run_gauntlet env self None (Some c) (S (Z.to_nat c) + extra) w = Some (l, w') /\
    program_count l = c /\
    (stored_total (fs w') <= Z.to_nat c - 1)%nat /\
    attempts (trace w') =
      attempts (trace w)
      ++ ((fun k => program_name_of (Z.of_nat k)) <$> seq 0 (Z.to_nat c)) /\
    (i + 1 < c -> program_name_of (i + 1) ∈ attempts (trace w')) /\
    (forall p, last p = Some (program_name_of i +:+ ".p4") ->
               fs w' !! p = p4smith_effect env (program_name_of i) (fs w) !! p) /\
    (forall d b, fs w' !! ["gauntlet"; d; b; program_name_of i +:+ ".p4"] = None).
Proof.
  intros Hdeps Hint Hi Hfail Hfresh.
  assert (Hfind : find_p4smith env = true).
  { unfold check_dependencies in Hdeps.
    by destruct (p4spectec_exists env), (find_p4smith env). }
  set (n := Z.to_nat c).
  set (lw := cycles env self n (initial_locals, w)).
  assert (Hrun : run_gauntlet env self None (Some c) (S n + extra) w =
                 Some (lw.1, finishing env self lw.1 (emit CountLimit lw.2))).
  { unfold run_gauntlet. rewrite Hdeps. cbn [negb].
    rewrite (run_loop_by_count env self c n extra initial_locals w Hint)
      by (cbn; lia). done. }
  assert (Hframe : forall p, last p = Some (program_name_of i +:+ ".p4") ->
            fs (finishing env self lw.1 (emit CountLimit lw.2)) !! p
            = p4smith_effect env (program_name_of i) (fs w) !! p).
  { intros p Hp.
    assert (fs lw.2 !! p = p4smith_effect env (program_name_of i) (fs w) !! p) as <-.
    { unfold lw. rewrite (cycles_failed_frame env self i) by (done || lia).
      by rewrite decide_True by lia. }
    destruct (finishing_fs env self lw.1 (emit CountLimit lw.2))
      as [-> | (k & cov & ->)]; [done |].
    rewrite lookup_insert_ne; [done |].
    intros Heq. by eapply cov_file_not_p4. }
  assert (Hatt : attempts (trace (finishing env self lw.1 (emit CountLimit lw.2))) =
            attempts (trace w)
            ++ ((fun k => program_name_of (Z.of_nat k)) <$> seq 0 n)).
  { rewrite finishing_attempts. cbn [trace emit].
    rewrite attempts_app. cbn. rewrite app_nil_r.
    by apply cycles_attempts. }
  exists lw.1, (finishing env self lw.1 (emit CountLimit lw.2)).
  split; [exact Hrun |]. split.
  { unfold lw. rewrite cycles_count. cbn. lia. }
  split.
  { rewrite finishing_stored. cbn [fs emit].
    pose proof (cycles_stored_failed env self i (proj1 Hi) Hfind Hfail n w) as H.
    rewrite (fresh_gauntlet_stored _ Hfresh) in H. fold lw in H.
    rewrite decide_True in H by lia. lia. }
  split; [exact Hatt |]. split.
  { intros Hnext. rewrite Hatt. apply elem_of_app. right.
    apply list_elem_of_fmap. exists (Z.to_nat (i + 1)). split.
    - f_equal. lia.
    - apply elem_of_seq. lia. }
  split; [exact Hframe |].
  intros d b. rewrite Hframe by done.
  rewrite p4smith_effect_other by done. apply Hfresh.
Qed.

Lemma failed_generation_is_skipped_witness :
  let env := scenario_env (times_out_for "gauntlet00003") (says "well-typed")
               all_ok no_coverage in
  exists l w',
    run_gauntlet env (init 1000) None (Some 5) 6 empty_world = Some (l, w') /\
    program_count l = 5 /\
    (stored_total (fs w') <= 4)%nat /\
    "gauntlet00004" ∈ attempts (trace w') /\
    (forall d b, fs w' !! ["gauntlet"; d; b; "gauntlet00003.p4"] = None).
Proof.
  intros env.
  destruct (failed_generation_is_skipped env (init 1000) 5 3 0 empty_world)
    as (l & w' & Hrun & Hpc & Hst & _ & Hnext & _ & Hnone).
  - reflexivity.
  - intros k. reflexivity.
  - lia.
  - intros w. reflexivity.
  - intros p. apply lookup_empty.
  - exists l, w'. split; [exact Hrun |]. split; [exact Hpc |].
    split; [exact Hst |]. split; [apply Hnext; lia | exact Hnone].
Defined.

(** C5: a generation that fails after p4smith has written its file leaves
    the file in staging.  In a run of count 5 in which p4smith writes the
    beginning of [gauntlet00003.p4] and is then killed by the timeout,
    index 4 is attempted next, the counter reaches 5 and 4 programs are
    stored, but the file of index 3 is still in [p4c/build] when the run
    ends.  When it is the oracle that fails on index 3 (an error verdict),
    the loop deletes that same file. *)
Theorem failed_generation_leaves_staged_file :
  (fun lw : Locals * World =>
     (program_count lw.1, stored_names (trace lw.2), stored_total (fs lw.2),
      attempts (trace lw.2),
      fs lw.2 !! p4_file p4c_build_dir "gauntlet00003"))
    <$> run_gauntlet (writes_then_times_out "gauntlet00003")
          (init 1000) None (Some 5) 6 empty_world
  = Some (5,
          ["gauntlet00000"; "gauntlet00001"; "gauntlet00002"; "gauntlet00004"],
          4%nat,
          ["gauntlet00000"; "gauntlet00001"; "gauntlet00002"; "gauntlet00003";
           "gauntlet00004"],
          Some (ProgramText "control c() {")) /\
  (generate_p4_program (writes_then_times_out "gauntlet00003") "gauntlet00003"
     empty_world).1 = false /\
  (fun lw : Locals * World =>
     (program_count lw.1, stored_total (fs lw.2),
      fs lw.2 !! p4_file p4c_build_dir "gauntlet00003"))
    <$> run_gauntlet
          (scenario_env all_ok (crashes_for "gauntlet00003") all_ok no_coverage)
          (init 1000) None (Some 5) 6 empty_world
  = Some (5, 4%nat, None).
Proof. repeat split; vm_compute; reflexivity. Qed.

(** ** Error verdicts *)

Lemma p4smith_effect_bucket env name b f :
  bucket_count b (p4smith_effect env name f) = bucket_count b f.
Proof.
  unfold p4smith_effect. destruct (p4smith_output env name); [| done].
  by apply bucket_count_insert_other.
Qed.

(** C8: when the oracle completes and its output has none of the three
    keywords, the verdict is Error and the iteration deletes the staged file
    and changes nothing else: no bucket gains a file, the stored counts stay,
    and the program is not recorded as stored.  "error: crash" is such an
    output. *)
Theorem error_verdict_is_discarded env self l w rc out err :
  let name := program_name_of (program_count l) in
  (generate_p4_program env name w).1 = true ->
  watsup_present env = true ->
  p4spectec_run_sl env name = Completed rc out err ->
  ~ occurs_ci "well-typed" (out +:+ err) ->
  ~ occurs_ci "ill-typed" (out +:+ err) ->
  ~ occurs_ci "ill-formed" (out +:+ err) ->
  let wg := (generate_p4_program env name w).2 in
  let w' := (loop_body env self l w).2 in
  (test_p4_program env name wg).1 = Error /\
  fs w' !! p4_file p4c_build_dir name = None /\
  (forall p, p <> p4_file p4c_build_dir name -> fs w' !! p = fs w !! p) /\
  (forall b, bucket_count b (fs w') = bucket_count b (fs w)) /\
  stored_total (fs w') = stored_total (fs w) /\
  stored_names (trace w') = stored_names (trace w) /\
  trace w' = trace w ++ [GenerateAttempt name; ErrorTesting name (out +:+ err)] /\
  classify "error: crash" = Error.
Proof.
  intros name Hgen Hwat Hrun Hw Hi Hf wg w'.
  destruct (generate_ok env name w Hgen) as [Hfind [c Hc]]. fold wg in Hc.
  assert (Hex : exists_ (p4_file p4c_build_dir name) (fs wg) = true).
  { unfold exists_. apply bool_decide_eq_true. eauto. }
  assert (Hcls : classify (out +:+ err) = Error).
  { by apply classify_spec. }
  pose proof (test_p4_program_completed env name wg rc out err Hex Hwat Hrun) as Htest.
  rewrite Hcls in Htest.
  assert (Hfs : fs wg = p4smith_effect env name (fs w)).
  { unfold wg. by rewrite generate_fs, Hfind. }
  assert (Htr : trace wg = trace w ++ [GenerateAttempt name]).
  { unfold wg. by rewrite generate_trace, Hfind. }
  assert (Hw' : w' = set_fs (delete (p4_file p4c_build_dir name) (fs wg))
                       (emit (ErrorTesting name (out +:+ err)) wg)).
  { unfold w', loop_body. fold name.
    destruct (generate_p4_program env name w) as [ok wg0] eqn:Hg.
    cbn [fst snd] in *. subst ok wg. cbn [negb]. rewrite Htest.
    rewrite bool_decide_eq_true_2 by done. cbn [fs emit]. by rewrite Hex. }
  rewrite Hw', Htest. cbn [fst fs trace set_fs emit]. rewrite Hfs, Htr.
  split; [done |]. split; [apply lookup_delete_eq |]. split.
  { intros p Hp. by rewrite lookup_delete_ne, p4smith_effect_other. }
  split.
  { intros b. by rewrite bucket_count_delete_other, p4smith_effect_bucket. }
  split.
  { by rewrite stored_total_delete_other, p4smith_effect_stored. }
  split.
  { rewrite !stored_names_app. cbn. by rewrite !app_nil_r. }
  split; [by rewrite <- app_assoc | reflexivity].
Qed.

Lemma error_verdict_is_discarded_witness :
  let env := scenario_env all_ok (says "error: crash") all_ok no_coverage in
  let w' := (loop_body env (init 1000) initial_locals empty_world).2 in
  fs w' !! p4_file p4c_build_dir "gauntlet00000" = None /\
  stored_total (fs w') = 0%nat /\
  trace w' = [GenerateAttempt "gauntlet00000";
              ErrorTesting "gauntlet00000" "error: crash"].
Proof.
  intros env w'.
  destruct (error_verdict_is_discarded env (init 1000) initial_locals empty_world
              0 "error: crash" "")
    as (_ & Hgone & _ & _ & Hst & _ & Htr & _).
  - reflexivity.
  - reflexivity.
  - reflexivity.
  - intros Hc%occurs_ci_contains. vm_compute in Hc. discriminate.
  - intros Hc%occurs_ci_contains. vm_compute in Hc. discriminate.
  - intros Hc%occurs_ci_contains. vm_compute in Hc. discriminate.
  - split; [exact Hgone |]. split; [| exact Htr].
    etrans; [exact Hst | vm_compute; reflexivity].
Defined.

(** ** Bucket relocation *)

Lemma categorize_fs_ext env self name rt w1 w2 :
  fs w1 = fs w2 ->
  (categorize_program env self name rt w1).1 = (categorize_program env self name rt w2).1 /\
  fs (categorize_program env self name rt w1).2 = fs (categorize_program env self name rt w2).2.
Proof.
  intros H. unfold categorize_program. rewrite H.
  destruct (exists_ _ _); cbn [negb]; [| done].
  destruct (bucket_name rt); [| done].
  by destruct (move_ok env name).
Qed.

(** C6: relocating the program of an index a second time, with the same
    verdict, changes no file; after a successful first relocation the bucket
    holds the artifact, the staged file is gone, and the second call finds
    nothing to move. *)
Theorem relocation_idempotent env self (idx : Z) rt w :
  let name := program_name_of idx in
  let first := categorize_program env self name rt w in
  let second := categorize_program env self name rt first.2 in
  fs second.2 = fs first.2 /\
  (first.1 = true ->
   second.1 = false /\
   fs first.2 !! p4_file p4c_build_dir name = None /\
   exists b c,
     bucket_name rt = Some b /\
     fs w !! p4_file p4c_build_dir name = Some c /\
     fs first.2 !! p4_file (_loop_dir_for_program self name ++ [b]) name = Some c).
Proof.
  intros name first second. subst second.
  destruct first as [[] w1] eqn:Hfirst; cbn [fst snd].
  - destruct (categorize_true env self _ _ _ _ Hfirst)
      as (b & c & Hb & Hc & _ & Hfs & _).
    assert (Hgone : fs w1 !! p4_file p4c_build_dir name = None).
    { rewrite Hfs, lookup_insert_ne by done. apply lookup_delete_eq. }
    assert (Hsecond : categorize_program env self name rt w1
                      = (false, emit (SourceNotFound name) w1)).
    { unfold categorize_program, exists_.
      rewrite bool_decide_eq_false_2; [done |]. rewrite Hgone. by intros [? ?]. }
    rewrite Hsecond. cbn [fst snd fs emit]. split; [done |]. intros _.
    split; [done |]. split; [done |]. exists b, c.
    split; [done |]. split; [done |]. rewrite Hfs. apply lookup_insert_eq.
  - destruct (categorize_false env self _ _ _ _ Hfirst) as (Hfs & _).
    split; [| done].
    destruct (categorize_fs_ext env self name rt w1 w Hfs) as [H1 H2].
    rewrite H2. fold first. by rewrite Hfirst.
Qed.

Lemma relocation_idempotent_witness :
  let env := scenario_env all_ok (says "well-typed") all_ok no_coverage in
  let w := set_fs (p4smith_effect env "gauntlet00007" ∅) empty_world in
  let first := categorize_program env (init 5) "gauntlet00007" WellTyped w in
  let second := categorize_program env (init 5) "gauntlet00007" WellTyped first.2 in
  fs second.2 = fs first.2 /\ second.1 = false /\
  is_Some (fs first.2 !! ["gauntlet"; "loop01"; "welltyped"; "gauntlet00007.p4"]).
Proof.
  intros env w first second.
  destruct (relocation_idempotent env (init 5) 7 WellTyped w) as [Hsame Hmoved].
  split; [exact Hsame |].
  destruct Hmoved as (Hfalse & _ & b & c & Hb & _ & Hdest); [reflexivity |].
  split; [exact Hfalse |].
  injection Hb as <-. exists c. exact Hdest.
Defined.

(** ** Coverage measurements of a run *)

Section measurements.

Context (env : Env) (self : GauntletRunner).
Context (Hsize : 1 <= loop_size self).

(** [last_measured_loop_index] is the loop that ended at the latest measured
    boundary, which is never ahead of the index counter. *)
Lemma cycles_last_measured n w :
  let l := (cycles env self n (initial_locals, w)).1 in
  -1 <= last_measured_loop_index l /\
  (last_measured_loop_index l + 1) * loop_size self <= program_count l.
Proof.
  induction n as [|n IH]; [cbn; lia |].
  cbn zeta in *. rewrite cycles_S, loop_body_count.
  set (l := (cycles env self n (initial_locals, w)).1) in *.
  set (w1 := (cycles env self n (initial_locals, w)).2).
  assert (Hpc : 0 <= program_count l).
  { unfold l. rewrite cycles_count. cbn. lia. }
  destruct (loop_body_measure env self l w1) as [[_ ->] | (_ & -> & Hmod)]; [lia |].
  replace (program_count l + 1 - 1) with (program_count l) by lia.
  apply Z.mod_divide in Hmod as [q Hq]; [| lia].
  assert (program_count l = (q - 1) * loop_size self + (loop_size self - 1)) as Hdiv by lia.
  assert (program_count l `div` loop_size self = q - 1) as ->.
  { rewrite Hdiv, Z.div_add_l by lia. rewrite Z.div_small by lia. lia. }
  nia.
Qed.

Lemma finishing_measure_calls l w :
  measure_calls (trace (finishing env self l w)) =
    measure_calls (trace w)
    ++ (if (program_count l >? 0)%Z
           && negb ((program_count l - 1) / loop_size self
                    =? last_measured_loop_index l)%Z
        then [(program_count l - 1) / loop_size self] else []).
Proof.
  unfold finishing. rewrite print_summary_trace, measure_calls_app.
  cbn [measure_calls omap]. rewrite app_nil_r.
  destruct (_ >? 0)%Z; cbn [andb];
    [| cbn; by rewrite measure_calls_app].
  destruct (negb _);
    [| cbn; by rewrite measure_calls_app].
  destruct (measure_trace env ((program_count l - 1) `div` loop_size self)
              (emit (GauntletCompleted (program_count l)) w)) as (es & -> & Hq).
  cbn [trace emit]. by project Hq.
Qed.

End measurements.

(** C9: the code after the loop measures coverage once more exactly when the
    last iteration did not measure at a batch boundary, and then for the
    batch of the last index; in particular when the run stops mid-batch.  With
    batches of 5 and 13 stored programs, the measurements are those of loops
    0 and 1 at the boundaries and of loop 2 after the loop. *)
Theorem finishing_measures_partial_batch env (configured : Z) (n : nat) w0 :
  let self := init configured in
  let before := cycles env self n (initial_locals, w0) in
  let after := loop_body env self before.1 before.2 in
  let final := finishing env self after.1 after.2 in
  let partial := (program_count after.1 - 1) / loop_size self in
  measure_calls (trace final) =
    measure_calls (trace after.2)
    ++ (if decide (measure_calls (trace after.2) = measure_calls (trace before.2))
        then [partial] else []) /\
  (program_count after.1 mod loop_size self <> 0 ->
   measure_calls (trace final) = measure_calls (trace after.2) ++ [partial]) /\
  (fun lw : Locals * World =>
     (program_count lw.1, measure_calls (trace lw.2), milestones (trace lw.2)))
    <$> run_gauntlet
          (scenario_env all_ok (says "well-typed") all_ok no_coverage)
          (init 5) None (Some 13) 14 empty_world
  = Some (13, [0; 1; 2],
          [Processed "gauntlet00000" WellTyped; Processed "gauntlet00001" WellTyped;
           Processed "gauntlet00002" WellTyped; Processed "gauntlet00003" WellTyped;
           Processed "gauntlet00004" WellTyped; MeasureCall 0;
           Processed "gauntlet00005" WellTyped; Processed "gauntlet00006" WellTyped;
           Processed "gauntlet00007" WellTyped; Processed "gauntlet00008" WellTyped;
           Processed "gauntlet00009" WellTyped; MeasureCall 1;
           Processed "gauntlet00010" WellTyped; Processed "gauntlet00011" WellTyped;
           Processed "gauntlet00012" WellTyped; GauntletCompleted 13;
           MeasureCall 2]).
Proof.
  intros self before after final partial.
  assert (Hsize : 1 <= loop_size self) by (cbn; lia).
  destruct (cycles_last_measured env self Hsize n w0) as [Hlo Hhi].
  pose proof (cycles_count env self n initial_locals w0) as Hn.
  fold before in Hlo, Hhi, Hn. cbn [initial_locals program_count] in Hn.
  pose proof (loop_body_count env self before.1 before.2) as Hpc.
  fold after in Hpc.
  assert (Hfin : measure_calls (trace final) =
    measure_calls (trace after.2)
    ++ (if decide (measure_calls (trace after.2) = measure_calls (trace before.2))
        then [partial] else [])).
  { unfold final. rewrite finishing_measure_calls. fold partial. f_equal.
    destruct (Z.gtb_spec (program_count after.1) 0) as [_|?]; [| lia].
    cbn [andb].
    destruct (loop_body_measure env self before.1 before.2)
      as [[Hcalls Hlast] | (Hcalls & Hlast & Hmod)]; fold after in Hcalls, Hlast.
    - rewrite decide_True by done.
      destruct (Z.eqb_spec partial (last_measured_loop_index after.1)) as [Heq|]; [| done].
      exfalso. rewrite Hlast in Heq. unfold partial in Heq. rewrite Hpc in Heq.
      replace (program_count before.1 + 1 - 1) with (program_count before.1) in Heq by lia.
      assert ((last_measured_loop_index before.1 + 1)
              <= program_count before.1 `div` loop_size self); [| lia].
      apply Z.div_le_lower_bound; lia.
    - rewrite decide_False.
      + rewrite Hlast. unfold partial. rewrite Hpc, Z.eqb_refl. done.
      + rewrite Hcalls. intros Heq%(f_equal length).
        rewrite length_app in Heq. cbn in Heq. lia. }
  split; [exact Hfin |]. split; [| vm_compute; reflexivity].
  intros Hmid. rewrite Hfin. f_equal.
  destruct (loop_body_measure env self before.1 before.2)
    as [[Hcalls _] | (_ & _ & Hmod)].
  - fold after in Hcalls. by rewrite decide_True.
  - rewrite Hpc in Hmid. done.
Qed.


Lemma finishing_measures_partial_batch_witness :
  let env := scenario_env all_ok (says "well-typed") all_ok no_coverage in
  let before := cycles env (init 5) 12 (initial_locals, empty_world) in
  let after := loop_body env (init 5) before.1 before.2 in
  program_count after.1 mod loop_size (init 5) <> 0 /\
  measure_calls (trace (finishing env (init 5) after.1 after.2)) =
    measure_calls (trace after.2)
    ++ [(program_count after.1 - 1) / loop_size (init 5)].
Proof.
  intros env before after.
  assert (Hmid : program_count after.1 mod loop_size (init 5) <> 0)
    by (vm_compute; discriminate).
  split; [exact Hmid |].
  exact (proj1 (proj2 (finishing_measures_partial_batch env 5 12 empty_world)) Hmid).
Defined.

(** ** The every-10 summary *)

(** C4, as stated, fails: with index 0 skipped and indices 1..11 stored, the
    tenth program is stored by index 10 and another is stored after it with
    no summary in between; the summary printed during the run comes at index
    9, with nine programs stored. *)
Lemma summary_counter_is_not_stored_count :
  (fun lw : Locals * World =>
     (summary_every_10_stored 0 (trace lw.2), stored_names (trace lw.2),
      summaries (trace lw.2)))
    <$> run_gauntlet
          (scenario_env (times_out_for "gauntlet00000") (says "well-typed")
             all_ok no_coverage)
          (init 1000) None (Some 12) 13 empty_world
  = Some (false,
          ["gauntlet00001"; "gauntlet00002"; "gauntlet00003"; "gauntlet00004";
           "gauntlet00005"; "gauntlet00006"; "gauntlet00007"; "gauntlet00008";
           "gauntlet00009"; "gauntlet00010"; "gauntlet00011"],
          [(9, 0, 0, 0); (11, 0, 0, 0)]%nat).
Proof. vm_compute. reflexivity. Qed.

(** C4, amended: every iteration advances the index counter, stored or not;
    an iteration that classifies and stores its program prints a summary
    exactly when the counter, which includes the skipped and discarded
    indices, has reached a multiple of 10, and the summary gives the
    per-verdict counts over all loop directories. *)
Theorem summary_follows_index_counter env self l w :
  let name := program_name_of (program_count l) in
  let l' := (loop_body env self l w).1 in
  let w' := (loop_body env self l w).2 in
  program_count l' = program_count l + 1 /\
  (stored_names (trace w') = stored_names (trace w) ++ [name] ->
   summaries (trace w') =
     summaries (trace w)
     ++ (if ((program_count l + 1) mod 10 =? 0)%Z
         then [summary_of (fs w')] else [])).
Proof.
  intros name l' w'. split; [apply loop_body_count |].
  intros Hstored.
  destruct (loop_body_store env self l w) as [[Hsame _] | [_ Hsum]]; [| exact Hsum].
  exfalso. fold w' in Hsame. rewrite Hsame in Hstored.
  apply (f_equal length) in Hstored. rewrite length_app in Hstored.
  cbn in Hstored. lia.
Qed.

Lemma summary_follows_index_counter_witness :
  let env := scenario_env all_ok (says "well-typed") all_ok no_coverage in
  let l := {| program_count := 9; last_measured_loop_index := -1 |} in
  summaries (trace (loop_body env (init 1000) l empty_world).2) = [(1, 0, 0, 0)%nat].
Proof.
  intros env l.
  destruct (summary_follows_index_counter env (init 1000) l empty_world) as [_ H].
  etrans; [apply H; vm_compute; reflexivity |].
  vm_compute. reflexivity.
Defined.

(** ** Defects of the coverage bookkeeping *)

(** Without a record of the previous loop directly under the project root,
    the record written for a loop is the raw measurement, whatever the
    gauntlet directory holds for the previous loop. *)
Lemma measure_ignores_gauntlet_record env k w rc out err :
  watsup_present env = true ->
  p4spectec_cover env k = Completed rc out err -> rc = 0 ->
  fs w !! prev_cov k = None ->
  read_coverage (cov_file k) (fs (measure_loop_coverage env k w))
    = Some (measured env k).
Proof.
  intros Hw Hc -> Hprev. unfold measure_loop_coverage.
  rewrite Hw, Hc. cbn [negb Z.eqb fs set_fs emit].
  assert (Hnot : exists_ (prev_cov k)
            (<[cov_file k := CoverageData (measured env k)]> (fs w)) = false).
  { unfold exists_. apply bool_decide_eq_false.
    rewrite lookup_insert_ne by done. rewrite Hprev. by intros [? ?]. }
  rewrite Hnot.
  destruct (k >? 0)%Z; cbn [fs set_fs]; unfold read_coverage;
    by rewrite lookup_insert_eq.
Qed.

(** C1, on the code: two batches of one program each, covering f and g.
    Both are measured in order and the record of batch 0 is persisted in the
    gauntlet directory, yet the record of batch 1 is g alone: the union
    looks for the previous record under the project root. *)
Theorem coverage_union_reads_project_root :
  (fun lw : Locals * World =>
     (measure_calls (trace lw.2),
      read_coverage (cov_file 0) (fs lw.2),
      read_coverage (cov_file 1) (fs lw.2)))
    <$> run_gauntlet
          (scenario_env all_ok (says "well-typed") all_ok f_then_g)
          (init 1) None (Some 2) 3 empty_world
  = Some ([0; 1], Some {["f"]}, Some {["g"]}) /\
  ({["g"]} : gset string) <> union_coverage {["f"]} {["g"]} /\
  cov_file 0 = ["gauntlet"; "loop00.cov"] /\
  prev_cov 1 = ["loop00.cov"].
Proof.
  split; [vm_compute; reflexivity |]. split; [| done].
  unfold union_coverage. intros H.
  assert ("f" ∈ ({["g"]} : gset string)) as Hf by (rewrite H; set_solver).
  set_solver.
Qed.

(** C2, on the code: batches of 2 and a count of 4.  When generation fails
    for index 1, or its verdict is Error, the boundary of batch 0 passes
    without a measurement: loop 1 alone is measured, and no coverage record
    is written for loop 0 although it holds a stored program. *)
Theorem boundary_measurement_skipped_on_failure :
  let view := fun lw : Locals * World =>
    (measure_calls (trace lw.2), milestones (trace lw.2),
     fs lw.2 !! cov_file 0,
     bool_decide (is_Some (fs lw.2 !! ["gauntlet"; "loop00"; "welltyped";
                                       "gauntlet00000.p4"]))) in
  let expected :=
    Some ([1],
          [Processed "gauntlet00000" WellTyped;
           Processed "gauntlet00002" WellTyped;
           Processed "gauntlet00003" WellTyped; MeasureCall 1;
           GauntletCompleted 4],
          None, true) in
  view <$> run_gauntlet
             (scenario_env (times_out_for "gauntlet00001") (says "well-typed")
                all_ok no_coverage)
             (init 2) None (Some 4) 5 empty_world = expected /\
  view <$> run_gauntlet
             (scenario_env all_ok (crashes_for "gauntlet00001")
                all_ok no_coverage)
             (init 2) None (Some 4) 5 empty_world = expected.
Proof. split; vm_compute; reflexivity. Qed.

(** * Further properties of the code *)

(** ** Names *)

(** X1: the index is read back from the name the loop gives it, whatever the
    number of digits, and distinct indices get distinct names. *)
Theorem name_index_round_trip (i j : Z) :
  0 <= i -> 0 <= j ->
  program_idx (program_name_of i) = i /\
  Text.py_int (Text.digits_of (program_name_of i)) = Some i /\
  (program_name_of i = program_name_of j -> i = j) /\
  (i <> j ->
   p4_file p4c_build_dir (program_name_of i)
   <> p4_file p4c_build_dir (program_name_of j)).
Proof.
  intros Hi Hj. split; [by apply program_idx_name |]. split.
  { pose proof (program_idx_name i Hi) as H. unfold program_idx in H.
    unfold program_name_of, Text.fmt_d in *.
    destruct (Z.ltb_spec i 0) as [?|_]; [lia |].
    rewrite digits_of_app, digits_of_padded.
    change (Text.digits_of "gauntlet" +:+ ?s) with s.
    rewrite py_int_padded. f_equal. lia. }
  split; [by apply program_name_of_inj |].
  intros Hne Heq. apply Hne. unfold p4_file in Heq.
  apply app_inj_tail in Heq as [_ Heq]. by apply p4_file_name_inj.
Qed.

Lemma name_index_round_trip_witness :
  program_idx (program_name_of 123456) = 123456 /\
  program_name_of 123456 = "gauntlet123456".
Proof.
  split; [| reflexivity].
  apply (name_index_round_trip 123456 0); lia.
Defined.

(** ** Stopping *)

Section stopping.

Context (env : Env) (self : GauntletRunner) (duration count : option Z).

(** The stop check looks at the index counter alone. *)
Lemma stop_check_counter l l' :
  program_count l = program_count l' ->
  stop_check env duration count l = stop_check env duration count l'.
Proof. intros H. unfold stop_check. by rewrite H. Qed.

(** The loop makes exactly the iterations before the first index at which
    the stop check fires. *)
Lemma run_loop_first_stop n extra l w e :
  (forall j l', (j < n)%nat -> program_count l' = program_count l + Z.of_nat j ->
                stop_check env duration count l' = None) ->
  (forall l', program_count l' = program_count l + Z.of_nat n ->
              stop_check env duration count l' = Some e) ->
  run_loop env self duration count (S n + extra) l w =
    Some ((cycles env self n (l, w)).1, emit e (cycles env self n (l, w)).2).
Proof.
  revert l w. induction n as [|n IH]; intros l w Hgo Hstop;
    change (S ?a + extra)%nat with (S (a + extra)); rewrite run_loop_S.
  - rewrite (Hstop l) by lia. done.
  - rewrite (Hgo 0%nat l) by lia.
    rewrite cycles_shift.
    pose proof (loop_body_count env self l w) as Hpc.
    destruct (loop_body env self l w) as [l1 w1]. cbn [fst snd] in *.
    apply IH.
    + intros j l' Hj Hl'. apply (Hgo (S j)); lia.
    + intros l' Hl'. apply Hstop. lia.
Qed.

(** Whenever the loop returns, it has made some number of iterations and
    then logged the reason of the stop. *)
Lemma run_loop_result fuel l w l' w' :
  run_loop env self duration count fuel l w = Some (l', w') ->
  exists n e, (n < fuel)%nat /\
    l' = (cycles env self n (l, w)).1 /\
    w' = emit e (cycles env self n (l, w)).2 /\
    stop_check env duration count l' = Some e.
Proof.
  revert l w. induction fuel as [|fuel IH]; intros l w; [done |].
  rewrite run_loop_S. destruct (stop_check env duration count l) as [e|] eqn:Hs.
  - intros [= <- <-]. exists 0%nat, e. split; [lia | done].
  - intros H. destruct (IH _ _ H) as (n & e & Hn & -> & -> & He).
    exists (S n), e. rewrite cycles_shift.
    destruct (loop_body env self l w) as [l1 w1]. split; [lia | done].
Qed.

End stopping.

(** Settle a goal about which limits are in force. *)
Ltac limits :=
  repeat match goal with
  | H : _ /\ _ |- _ => destruct H
  | H : ex _ |- _ => destruct H
  | H : Some _ = Some _ |- _ => injection H as ->
  | H : None = Some _ |- _ => discriminate H
  | H : Some _ = None |- _ => discriminate H
  | H : true = false |- _ => discriminate H
  | H : false = true |- _ => discriminate H
  | H : Some ?a = Some ?b |- _ => first [discriminate H]
  end;
  try congruence; try lia;
  try solve [eexists; split; [reflexivity | split; lia]];
  try match goal with
      | H : ~ _ |- _ =>
          solve [exfalso; apply H; eexists; split; [reflexivity | split; lia]]
      end;
  try (intros (? & [= <-] & ? & ?); lia);
  try (intros (? & [= ] & ? & ?)).

Section stop_conditions.

Context (env : Env) (self : GauntletRunner) (duration count : option Z).

Local Abbreviation due := (duration_due env duration).
Local Abbreviation full := (count_reached count).

Lemma stop_check_cases l :
  (stop_check env duration count l = None <->
   interrupt env (program_count l) = false /\
   ~ due (program_count l) /\ ~ full (program_count l)) /\
  (stop_check env duration count l = Some Interrupted <->
   interrupt env (program_count l) = true) /\
  (stop_check env duration count l = Some DurationLimit <->
   interrupt env (program_count l) = false /\ due (program_count l)) /\
  (stop_check env duration count l = Some CountLimit <->
   interrupt env (program_count l) = false /\
   ~ due (program_count l) /\ full (program_count l)).
Proof.
  unfold stop_check, duration_due, count_reached, truthy.
  destruct (interrupt env (program_count l)).
  { repeat split; try done; intros; limits. }
  destruct duration as [d|], count as [c|]; cbn [andb];
    repeat match goal with
    | |- context [(?a =? ?b)%Z] => destruct (Z.eqb_spec a b)
    | |- context [(?a <=? ?b)%Z] => destruct (Z.leb_spec a b)
    end; cbn [negb andb];
    repeat split; try done; intros; limits.
Qed.

Lemma stop_check_events l e :
  stop_check env duration count l = Some e ->
  e = Interrupted \/ e = DurationLimit \/ e = CountLimit.
Proof. unfold stop_check. repeat case_match; intros [= <-]; auto. Qed.

(** X2: the loop runs up to the first index at which an interrupt arrives,
    the elapsed time has reached a non-zero duration, or the counter has
    reached a non-zero count; the interrupt is looked at first, then the
    duration, then the count; the code after the loop then runs on the
    state the iterations left. *)
Theorem run_stops_at_first_limit (n extra : nat) w :
  check_dependencies env = true ->
  (forall j, (j < n)%nat ->
     interrupt env (Z.of_nat j) = false /\
     ~ due (Z.of_nat j) /\ ~ full (Z.of_nat j)) ->
  interrupt env (Z.of_nat n) = true \/ due (Z.of_nat n) \/ full (Z.of_nat n) ->
  let after := cycles env self n (initial_locals, w) in
  exists e,
    run_gauntlet env self duration count (S n + extra) w =
      Some (after.1, finishing env self after.1 (emit e after.2)) /\
    program_count after.1 = Z.of_nat n /\
    (interrupt env (Z.of_nat n) = true -> e = Interrupted) /\
    (interrupt env (Z.of_nat n) = false -> due (Z.of_nat n) -> e = DurationLimit) /\
    (interrupt env (Z.of_nat n) = false -> ~ due (Z.of_nat n) -> e = CountLimit).
Proof.
  intros Hdeps Hgo Hstop after.
  assert (Hpc : program_count after.1 = Z.of_nat n).
  { unfold after. rewrite cycles_count. cbn. lia. }
  assert (Hsome : exists e, forall l', program_count l' = Z.of_nat n ->
            stop_check env duration count l' = Some e).
  { destruct (stop_check env duration count after.1) as [e|] eqn:He.
    - exists e. intros l' Hl'. rewrite <- He. apply stop_check_counter. congruence.
    - apply (stop_check_cases after.1) in He. rewrite Hpc in He.
      destruct He as (Hi & Hd & Hf). destruct Hstop as [? | [? | ?]]; [congruence | done ..]. }
  destruct Hsome as [e He]. exists e. split.
  { unfold run_gauntlet. rewrite Hdeps. cbn [negb].
    rewrite (run_loop_first_stop env self duration count n extra initial_locals w e); [done | |].
    - intros j l' Hj Hl'. cbn in Hl'. apply stop_check_cases. rewrite Hl', Z.add_0_l.
      by apply Hgo.
    - intros l' Hl'. apply He. cbn in Hl'. lia. }
  split; [exact Hpc |].
  specialize (He after.1 Hpc).
  destruct (stop_check_cases after.1) as (_ & HI & HD & HC). rewrite Hpc in HI, HD, HC.
  split; [| split].
  - intros Hi. apply HI in Hi. congruence.
  - intros Hi Hd. assert (stop_check env duration count after.1 = Some DurationLimit)
      by (by apply HD). congruence.
  - intros Hi Hd. destruct Hstop as [? | [? | Hf]]; [congruence | done |].
    assert (stop_check env duration count after.1 = Some CountLimit)
      by (by apply HC). congruence.
Qed.

(** X3: called with no limit in force (each of duration and count absent or
    0) and never interrupted, the loop does not end: no amount of fuel makes
    it return. *)
Theorem run_without_limit_never_returns fuel l w :
  (forall k, interrupt env k = false) ->
  truthy duration = false -> truthy count = false ->
  run_loop env self duration count fuel l w = None /\
  (check_dependencies env = true ->
   run_gauntlet env self duration count fuel w = None).
Proof.
  intros Hint Hd Hc.
  assert (Hloop : forall fuel l w, run_loop env self duration count fuel l w = None).
  { clear fuel l w. induction fuel as [|fuel IH]; intros l w; [done |].
    rewrite run_loop_S. unfold stop_check. rewrite Hint, Hd, Hc. cbn [andb].
    apply IH. }
  split; [apply Hloop |].
  intros Hdeps. unfold run_gauntlet. by rewrite Hdeps, Hloop.
Qed.

(** X4: a run whose stop check fires before the first iteration runs no
    tool, measures no coverage and leaves every file alone; it prints the
    counts of what the buckets already hold. *)
Theorem run_without_iterations extra w :
  check_dependencies env = true ->
  interrupt env 0 = true \/ due 0 \/ full 0 ->
  exists l w',
    run_gauntlet env self duration count (S extra) w = Some (l, w') /\
    program_count l = 0 /\ fs w' = fs w /\
    attempts (trace w') = attempts (trace w) /\
    measure_calls (trace w') = measure_calls (trace w) /\
    summaries (trace w') = summaries (trace w) ++ [summary_of (fs w)].
Proof.
  intros Hdeps Hstop.
  unfold run_gauntlet. rewrite Hdeps. cbn [negb]. rewrite run_loop_S.
  destruct (stop_check env duration count initial_locals) as [e|] eqn:He.
  2: { apply (stop_check_cases initial_locals) in He as (Hi & Hd & Hf).
       cbn in Hi, Hd, Hf. destruct Hstop as [? | [? | ?]]; [congruence | done ..]. }
  apply stop_check_events in He.
  eexists _, _. split; [done |]. split; [done |].
  unfold finishing. cbn [program_count initial_locals Z.gtb Z.compare].
  rewrite print_summary_fs, print_summary_trace. cbn [fs trace emit].
  split; [done |].
  rewrite !attempts_app, !measure_calls_app, !summaries_app.
  by destruct He as [-> | [-> | ->]]; cbn; rewrite !app_nil_r.
Qed.

End stop_conditions.

(** ** Coverage records *)

Lemma measure_writes_one_record_aux env k w :
  (forall p, p <> cov_file k ->
     fs (measure_loop_coverage env k w) !! p = fs w !! p) /\
  stored_names (trace (measure_loop_coverage env k w)) = stored_names (trace w) /\
  (forall e, e ∈ trace w -> e ∈ trace (measure_loop_coverage env k w)).
Proof.
  split; [| split].
  - intros p Hp. destruct (measure_fs env k w) as [-> | [c ->]]; [done |].
    by rewrite lookup_insert_ne.
  - destruct (measure_trace env k w) as (es & -> & Hq).
    rewrite (stored_names_app (trace w) (MeasureCall k :: es)).
    rewrite (stored_names_cons (MeasureCall k) es).
    destruct Hq as (_ & _ & -> & _). cbn. by rewrite app_nil_r.
  - intros e He. destruct (measure_trace env k w) as (es & -> & _).
    apply elem_of_app. by left.
Qed.

(** X5: whatever the coverage tool does, [measure_loop_coverage] changes no
    file but the record of its own loop in the gauntlet directory: programs,
    other records and the summary counts stay as they are. *)
Theorem measure_writes_one_record env k w :
  let w' := measure_loop_coverage env k w in
  (forall p, p <> cov_file k -> fs w' !! p = fs w !! p) /\
  summary_of (fs w') = summary_of (fs w) /\
  stored_total (fs w') = stored_total (fs w) /\
  stored_names (trace w') = stored_names (trace w).
Proof.
  intros w'. subst w'.
  destruct (measure_stored env k w) as [Hst Hsum].
  split; [| split; [done | split; [done |]]].
  - intros p Hp. destruct (measure_fs env k w) as [-> | [c ->]]; [done |].
    by rewrite lookup_insert_ne.
  - destruct (measure_trace env k w) as (es & -> & Hq).
    rewrite (stored_names_app (trace w) (MeasureCall k :: es)).
    rewrite (stored_names_cons (MeasureCall k) es).
    destruct Hq as (_ & _ & -> & _). cbn. by rewrite app_nil_r.
Qed.

(** X6: when the coverage tool succeeds, the record written for the loop
    contains the measurement.  For loop 0, and when no readable record named
    after the previous loop lies directly under the project root, it is the
    measurement itself; otherwise it is the union of that record and the
    measurement, and that record is left as it was. *)
Theorem measure_record env k w out err :
  watsup_present env = true ->
  p4spectec_cover env k = Completed 0 out err ->
  let w' := measure_loop_coverage env k w in
  (exists rec, read_coverage (cov_file k) (fs w') = Some rec /\
               measured env k ⊆ rec) /\
  (k <= 0 -> read_coverage (cov_file k) (fs w') = Some (measured env k)) /\
  (read_coverage (prev_cov k) (fs w) = None ->
   read_coverage (cov_file k) (fs w') = Some (measured env k)) /\
  (forall prev, 0 < k -> read_coverage (prev_cov k) (fs w) = Some prev ->
     read_coverage (cov_file k) (fs w') = Some (prev ∪ measured env k) /\
     read_coverage (prev_cov k) (fs w') = Some prev).
Proof.
  intros Hw Hc w'.
  assert (Hne : prev_cov k <> cov_file k) by done.
  assert (Hcases :
    (read_coverage (cov_file k) (fs w') = Some (measured env k) /\
     (k <= 0 \/ read_coverage (prev_cov k) (fs w) = None)) \/
    (exists prev, 0 < k /\ read_coverage (prev_cov k) (fs w) = Some prev /\
       read_coverage (cov_file k) (fs w') = Some (prev ∪ measured env k) /\
       read_coverage (prev_cov k) (fs w') = Some prev)).
  { unfold w', measure_loop_coverage. rewrite Hw, Hc.
    cbn [negb Z.eqb fs set_fs emit].
    assert (Hcur : read_coverage (cov_file k)
              (<[cov_file k := CoverageData (measured env k)]> (fs w))
              = Some (measured env k)).
    { unfold read_coverage. by rewrite lookup_insert_eq. }
    assert (Hprev : read_coverage (prev_cov k)
              (<[cov_file k := CoverageData (measured env k)]> (fs w))
              = read_coverage (prev_cov k) (fs w)).
    { unfold read_coverage. by rewrite lookup_insert_ne. }
    destruct (Z.gtb_spec k 0) as [Hk|Hk]; [| left; split; [done | left; lia]].
    rewrite Hcur, Hprev.
    destruct (exists_ _ _) eqn:Hex.
    - destruct (read_coverage (prev_cov k) (fs w)) as [prev|] eqn:Hp.
      + right. exists prev. split; [lia |]. split; [done |].
        cbn [fs set_fs emit]. unfold write_coverage, union_coverage, read_coverage.
        rewrite lookup_insert_eq, lookup_insert_ne, lookup_insert_ne by done.
        split; [done |]. unfold read_coverage in Hp.
        by destruct (fs w !! prev_cov k) as [[]|].
      + left. split; [| by right]. cbn [fs set_fs emit]. exact Hcur.
    - left. split; [exact Hcur |]. right.
      unfold exists_ in Hex. apply bool_decide_eq_false in Hex.
      rewrite lookup_insert_ne in Hex by done.
      unfold read_coverage. destruct (fs w !! prev_cov k); [| done].
      by destruct Hex. }
  split; [| split; [| split]].
  - destruct Hcases as [[-> _] | (prev & _ & _ & -> & _)];
      eexists; split; [done | set_solver | done | set_solver].
  - intros Hk. destruct Hcases as [[-> _] | (prev & ? & _)]; [done | lia].
  - intros Hnone. destruct Hcases as [[-> _] | (prev & _ & ? & _)]; [done | congruence].
  - intros prev Hk Hp.
    destruct Hcases as [[_ [? | ?]] | (prev' & _ & Hp' & H1 & H2)]; [lia | congruence |].
    rewrite Hp in Hp'. by injection Hp' as <-.
Qed.

Lemma measure_record_witness :
  let env := scenario_env all_ok (says "well-typed") all_ok f_then_g in
  let w := set_fs (<[prev_cov 1 := CoverageData {["f"]}]> ∅) empty_world in
  read_coverage (cov_file 1) (fs (measure_loop_coverage env 1 w))
    = Some ({["f"]} ∪ {["g"]}).
Proof.
  intros env w.
  destruct (measure_record env 1 w "" "") as (_ & _ & _ & H);
    [reflexivity | reflexivity |].
  destruct (H {["f"]}) as [Hrec _]; [lia | vm_compute; reflexivity |].
  exact Hrec.
Defined.

(** ** The order of the measurements *)

Section measurement_order.

Context (env : Env) (self : GauntletRunner).
Context (Hsize : 1 <= loop_size self).

Lemma cycles_measure_sorted n w :
  measure_calls (trace w) = [] ->
  let l := (cycles env self n (initial_locals, w)).1 in
  let calls := measure_calls (trace (cycles env self n (initial_locals, w)).2) in
  StronglySorted Z.lt calls /\
  Forall (fun k => 0 <= k <= last_measured_loop_index l) calls.
Proof.
  intros Hnone. induction n as [|n IH].
  { cbn. rewrite Hnone. split; constructor. }
  cbn zeta in *. rewrite cycles_S.
  destruct (cycles_last_measured env self Hsize n w) as [Hlo Hhi].
  pose proof (cycles_count env self n initial_locals w) as Hpc. cbn in Hpc.
  set (l := (cycles env self n (initial_locals, w)).1) in *.
  set (w1 := (cycles env self n (initial_locals, w)).2) in *.
  destruct IH as [Hsorted Hall].
  destruct (loop_body_measure env self l w1) as [[-> ->] | (-> & -> & Hmod)];
    [done |].
  replace (program_count l + 1 - 1) with (program_count l) by lia.
  assert (Hk : last_measured_loop_index l + 1 <= program_count l `div` loop_size self).
  { apply Z.div_le_lower_bound; lia. }
  split.
  - apply StronglySorted_app. split; [| split; [done | repeat constructor]].
    intros x y Hx Hy. apply list_elem_of_singleton in Hy as ->.
    rewrite Forall_forall in Hall. specialize (Hall x Hx). lia.
  - apply Forall_app. split.
    + eapply Forall_impl; [exact Hall |]. intros x Hx. cbn beta in Hx. lia.
    + repeat constructor; lia.
Qed.

End measurement_order.

(** X7: in a run of a runner built by [__init__] in which no interrupt
    arrives while an iteration is under way (one at a stop check may end
    the run, as may the duration or the count), no loop is measured twice:
    the loop indices passed to [measure_loop_coverage] increase strictly,
    and none lies beyond the loop of the last index. *)
Theorem measurements_strictly_increase env (configured : Z) duration count
    fuel w l w' :
  measure_calls (trace w) = [] ->
  run_gauntlet env (init configured) duration count fuel w = Some (l, w') ->
  StronglySorted Z.lt (measure_calls (trace w')) /\
  Forall (fun k => 0 <= k <= (program_count l - 1) / loop_size (init configured))
    (measure_calls (trace w')).
Proof.
  intros Hnone. unfold run_gauntlet.
  destruct (check_dependencies env); cbn [negb].
  2: { intros [= <- <-]. cbn [trace emit]. rewrite measure_calls_app, Hnone.
       cbn. split; constructor. }
  destruct (run_loop _ _ _ _ _ _ _) as [[l1 w1]|] eqn:Hrun; [| done].
  intros [= <- <-].
  destruct (run_loop_result _ _ _ _ _ _ _ _ _ Hrun) as (n & e & _ & Hl & Hw & He).
  set (self := init configured) in *.
  assert (Hsize : 1 <= loop_size self) by (cbn; lia).
  destruct (cycles_measure_sorted env self Hsize n w Hnone) as [Hsorted Hall].
  destruct (cycles_last_measured env self Hsize n w) as [Hlo Hhi].
  pose proof (cycles_count env self n initial_locals w) as Hpc. cbn in Hpc.
  rewrite <- Hl in Hall, Hlo, Hhi, Hpc.
  assert (Hcalls : measure_calls (trace w1)
                   = measure_calls (trace (cycles env self n (initial_locals, w)).2)).
  { rewrite Hw. cbn [trace emit]. rewrite measure_calls_app.
    apply stop_check_events in He.
    destruct He as [-> | [-> | ->]]; cbn; by rewrite app_nil_r. }
  rewrite <- Hcalls in Hsorted, Hall.
  rewrite finishing_measure_calls.
  assert (Hbound : program_count l1 > 0 ->
            last_measured_loop_index l1 <= (program_count l1 - 1) `div` loop_size self).
  { intros Hpos. apply Z.div_le_lower_bound; [lia |].
    assert (last_measured_loop_index l1 * loop_size self
            <= (last_measured_loop_index l1 + 1) * loop_size self - 1); nia. }
  destruct (Z.gtb_spec (program_count l1) 0) as [Hpos|Hzero]; cbn [andb].
  - destruct (Z.eqb_spec ((program_count l1 - 1) `div` loop_size self)
                (last_measured_loop_index l1)) as [Heq|Hne]; cbn [negb].
    + rewrite app_nil_r. split; [done |].
      eapply Forall_impl; [exact Hall |]. intros x Hx. cbn beta in Hx. lia.
    + specialize (Hbound ltac:(lia)). split.
      * apply StronglySorted_app. split; [| split; [done | repeat constructor]].
        intros x y Hx Hy. apply list_elem_of_singleton in Hy as ->.
        rewrite Forall_forall in Hall. specialize (Hall x Hx). lia.
      * apply Forall_app. split.
        -- eapply Forall_impl; [exact Hall |]. intros x Hx. cbn beta in Hx. lia.
        -- repeat constructor; [apply Z.div_pos; lia | lia].
  - rewrite app_nil_r. split; [done |].
    assert (n = 0%nat) as -> by lia.
    rewrite Hcalls. cbn. rewrite Hnone. constructor.
Qed.

Lemma measurements_strictly_increase_witness :
  match run_gauntlet (scenario_env all_ok (says "well-typed") all_ok no_coverage)
          (init 2) None (Some 5) 6 empty_world with
  | Some (l, w') => StronglySorted Z.lt (measure_calls (trace w'))
  | None => False
  end.
Proof.
  pose proof (measurements_strictly_increase
                (scenario_env all_ok (says "well-typed") all_ok no_coverage)
                2 None (Some 5) 6 empty_world) as H.
  assert (Hs : match run_gauntlet
                       (scenario_env all_ok (says "well-typed") all_ok no_coverage)
                       (init 2) None (Some 5) 6 empty_world with
               | Some _ => true
               | None => false
               end = true) by (vm_compute; reflexivity).
  revert Hs.
  destruct (run_gauntlet (scenario_env all_ok (says "well-typed") all_ok no_coverage)
              (init 2) None (Some 5) 6 empty_world) as [[l w']|].
  - intros _. exact (proj1 (H l w' eq_refl eq_refl)).
  - discriminate.
Defined.

Lemma run_stops_at_first_limit_witness :
  let env := with_clock (fun k => 10 * k)
               (scenario_env all_ok (says "well-typed") all_ok no_coverage) in
  let after := cycles env (init 2) 3 (initial_locals, empty_world) in
  run_gauntlet env (init 2) (Some 25) None 4 empty_world =
    Some (after.1, finishing env (init 2) after.1 (emit DurationLimit after.2)).
Proof.
  intros env after.
  destruct (run_stops_at_first_limit env (init 2) (Some 25) None 3 0 empty_world)
    as (e & Hrun & _ & _ & He & _).
  - reflexivity.
  - intros j Hj. split; [reflexivity |]. split.
    + intros (d & [= <-] & _ & Hle). cbn in Hle. lia.
    + intros (c & [=] & _).
  - right. left. exists 25. split; [reflexivity |]. split; [lia | cbn; lia].
  - rewrite He in Hrun; [exact Hrun | reflexivity |].
    exists 25. split; [reflexivity |]. split; [lia | cbn; lia].
Defined.

Lemma run_without_limit_never_returns_witness :
  run_gauntlet (scenario_env all_ok (says "well-typed") all_ok no_coverage)
    (init 1000) None (Some 0) 50 empty_world = None.
Proof.
  apply (run_without_limit_never_returns
           (scenario_env all_ok (says "well-typed") all_ok no_coverage)
           (init 1000) None (Some 0) 50 initial_locals empty_world);
    [intros k; reflexivity | reflexivity ..].
Defined.

Lemma run_without_iterations_witness :
  let env := scenario_env all_ok (says "well-typed") all_ok no_coverage in
  exists l w',
    run_gauntlet env (init 1000) None (Some (-3)) 1 empty_world = Some (l, w') /\
    program_count l = 0 /\ fs w' = ∅ /\ attempts (trace w') = [].
Proof.
  intros env.
  destruct (run_without_iterations env (init 1000) None (Some (-3)) 0 empty_world)
    as (l & w' & Hrun & Hpc & Hfs & Hatt & _).
  - reflexivity.
  - right. right. exists (-3). split; [reflexivity |]. split; lia.
  - exists l, w'. split; [exact Hrun |]. split; [exact Hpc |].
    split; [exact Hfs | exact Hatt].
Defined.

(** ** Where a program is stored *)

(** X8: an iteration whose program is generated, gets a verdict with a
    bucket (anything but 'error', so a timeout too) and is moved, leaves the
    program text under [gauntlet/loopNN/<bucket>], [NN] being the index
    divided by the loop size, removes it from staging and records it as
    processed. *)
Theorem stored_program_location env self l w result_type b :
  let name := program_name_of (program_count l) in
  let wg := (generate_p4_program env name w).2 in
  let w' := (loop_body env self l w).2 in
  0 <= program_count l ->
  (generate_p4_program env name w).1 = true ->
  (test_p4_program env name wg).1 = result_type ->
  bucket_name result_type = Some b ->
  move_ok env name = true ->
  is_Some (fs wg !! p4_file p4c_build_dir name) /\
  fs w' !! ["gauntlet"; loop_name (program_count l / loop_size self); b;
            name +:+ ".p4"]
    = fs wg !! p4_file p4c_build_dir name /\
  fs w' !! p4_file p4c_build_dir name = None /\
  stored_names (trace w') = stored_names (trace w) ++ [name] /\
  Processed name result_type ∈ trace w'.
Proof.
  intros name wg w' Hpc Hgen Hrt Hb Hmv.
  destruct (generate_ok env name w Hgen) as [Hfind [c Hc]]. fold wg in Hc.
  assert (Hex : exists_ (p4_file p4c_build_dir name) (fs wg) = true).
  { unfold exists_. apply bool_decide_eq_true. eauto. }
  assert (Hne : result_type <> Error) by (intros ->; discriminate Hb).
  assert (Hdir : _loop_dir_for_program self name
                 = ["gauntlet"; loop_name (program_count l / loop_size self)]).
  { unfold _loop_dir_for_program, loop_index_of, name.
    by rewrite program_idx_name. }
  set (dest := ["gauntlet"; loop_name (program_count l / loop_size self); b;
                name +:+ ".p4"]).
  set (wc := emit (Moved name (_loop_dir_for_program self name ++ [b]))
               (set_fs (move (p4_file p4c_build_dir name) dest (fs wg)) wg)).
  assert (Hcat : categorize_program env self name result_type wg = (true, wc)).
  { unfold categorize_program. rewrite Hex, Hb, Hmv. cbn [negb].
    unfold wc, dest. by rewrite Hdir. }
  assert (Hfc : fs wc = <[dest := c]> (delete (p4_file p4c_build_dir name) (fs wg))).
  { unfold wc. cbn [fs emit set_fs]. unfold move. by rewrite Hc. }
  set (w1 := emit (Processed name result_type) wc).
  set (w2 := if ((program_count l + 1) `mod` 10 =? 0)%Z then print_summary w1 else w1).
  assert (Hf2 : fs w2 = fs wc).
  { unfold w2, w1. by destruct ((program_count l + 1) `mod` 10 =? 0)%Z. }
  assert (Ht2 : stored_names (trace w2) = stored_names (trace wg) ++ [name] /\
                Processed name result_type ∈ trace w2).
  { unfold w2, w1. destruct ((program_count l + 1) `mod` 10 =? 0)%Z.
    - rewrite print_summary_trace. cbn [trace emit set_fs wc].
      rewrite !stored_names_app. cbn. rewrite !app_nil_r. split; [done |].
      set_solver.
    - cbn [trace emit set_fs wc]. rewrite !stored_names_app. cbn.
      rewrite !app_nil_r. split; [done |]. set_solver. }
  assert (Hw' : w' = if ((program_count l + 1) `mod` loop_size self =? 0)%Z
                     then measure_loop_coverage env
                            ((program_count l + 1 - 1) `div` loop_size self) w2
                     else w2).
  { unfold w', loop_body. fold name.
    destruct (generate_p4_program env name w) as [ok wg0] eqn:Hg.
    cbn [fst snd program_count last_measured_loop_index] in *. subst ok wg.
    cbn [negb].
    destruct (test_p4_program env name wg0) as [rt out] eqn:Ht.
    cbn [fst] in Hrt. subst rt.
    rewrite bool_decide_eq_false_2 by done. rewrite Hcat. cbn [negb].
    fold w1 w2. by destruct ((program_count l + 1) `mod` loop_size self =? 0)%Z. }
  assert (Hstored : stored_names (trace wg) = stored_names (trace w)).
  { unfold wg. rewrite generate_trace, Hfind, stored_names_app. cbn.
    by rewrite app_nil_r. }
  assert (Hgone : fs w2 !! p4_file p4c_build_dir name = None).
  { rewrite Hf2, Hfc, lookup_insert_ne by done. apply lookup_delete_eq. }
  assert (Hthere : fs w2 !! dest = Some c).
  { rewrite Hf2, Hfc. apply lookup_insert_eq. }
  split; [eauto |]. rewrite Hc, Hw'.
  destruct ((program_count l + 1) `mod` loop_size self =? 0)%Z.
  - destruct (measure_writes_one_record_aux env
                ((program_count l + 1 - 1) `div` loop_size self) w2)
      as (Hframe & Hnames & Hin).
    rewrite !Hframe by done. rewrite Hnames.
    destruct Ht2 as [-> Hin2]. rewrite Hstored. repeat split; try done.
    by apply Hin.
  - destruct Ht2 as [-> Hin2]. by rewrite Hstored.
Qed.

Lemma stored_program_location_witness :
  let env := scenario_env all_ok never_answers all_ok no_coverage in
  let l := {| program_count := 12; last_measured_loop_index := 1 |} in
  fs (loop_body env (init 5) l empty_world).2
    !! ["gauntlet"; "loop02"; "timeout"; "gauntlet00012.p4"]
  = Some (ProgramText "control c() { apply { } }").
Proof.
  intros env l.
  destruct (stored_program_location env (init 5) l empty_world Timeout "timeout")
    as (_ & H & _); [cbn; lia | reflexivity ..|].
  etrans; [exact H |]. vm_compute. reflexivity.
Defined.

(** ** The buckets and the trace agree *)

Section bucket_paths.

Lemma starts_with_app p s : Text.starts_with p (p +:+ s) = true.
Proof. apply starts_with_spec. by exists s. Qed.

Lemma substring_app_r s p :
  String.substring (String.length s) (String.length p) (s +:+ p) = p.
Proof.
  induction s as [|c s IH]; [| exact IH].
  change (EmptyString +:+ p) with p. cbn [String.length].
  induction p as [|c p IHp]; [done |]. cbn. by rewrite IHp.
Qed.

Lemma length_append s p :
  String.length (s +:+ p) = (String.length s + String.length p)%nat.
Proof.
  induction s as [|c s IH]; [done |].
  change (S (String.length (s +:+ p)) = S (String.length s + String.length p)).
  by rewrite IH.
Qed.

Lemma ends_with_app p s : Text.ends_with p (s +:+ p) = true.
Proof.
  unfold Text.ends_with. rewrite length_append.
  replace (String.length s + String.length p - String.length p)%nat
    with (String.length s) by lia.
  rewrite substring_app_r.
  apply andb_true_iff. split; apply bool_decide_eq_true; [done | lia].
Qed.

Lemma in_bucket_dest self name b :
  in_bucket b (p4_file (_loop_dir_for_program self name ++ [b]) name) = true.
Proof.
  change (in_bucket b ["gauntlet"; loop_name (loop_index_of self (program_idx name));
                       b; name +:+ ".p4"] = true).
  unfold in_bucket, loop_name.
  by rewrite starts_with_app, ends_with_app, !bool_decide_eq_true_2.
Qed.

Lemma bucket_count_insert_new (b : string) (p : path) (c : Content) (f : FS) :
  in_bucket b p = true -> f !! p = None ->
  bucket_count b (<[p := c]> f) = S (bucket_count b f).
Proof.
  intros Hin Hnone. unfold bucket_count.
  rewrite map_filter_insert_True by (cbn; by rewrite Hin).
  apply map_size_insert_None. by apply map_lookup_filter_None_2; left.
Qed.

Lemma stored_total_insert_new (rt : ResultType) (b : string) (p : path)
    (c : Content) (f : FS) :
  bucket_name rt = Some b -> in_bucket b p = true -> f !! p = None ->
  stored_total (<[p := c]> f) = S (stored_total f).
Proof.
  intros Hb Hin Hnone. unfold stored_total.
  assert (Hother : forall b', b' <> b -> in_bucket b' p = false).
  { intros b' Hne. destruct (in_bucket b' p) eqn:E; [| done].
    destruct Hne. by eapply in_bucket_unique. }
  destruct rt; cbn in Hb; try discriminate Hb; injection Hb as <-;
    rewrite (bucket_count_insert_new _ p c f Hin Hnone);
    rewrite !bucket_count_insert_other by (apply Hother; discriminate); lia.
Qed.

End bucket_paths.

Section stored_invariant.

Context (env : Env) (self : GauntletRunner).

Local Abbreviation staged name := (p4_file p4c_build_dir name).

(** From a fresh gauntlet directory, the buckets hold files named after
    started indices only, and as many as there are programs recorded as
    processed. *)
Lemma cycles_stored_inv n w :
  fresh_gauntlet (fs w) ->
  let w1 := (cycles env self n (initial_locals, w)).2 in
  (forall p b, in_bucket b p = true -> is_Some (fs w1 !! p) ->
     exists j, 0 <= j < Z.of_nat n /\ last p = Some (program_name_of j +:+ ".p4")) /\
  length (stored_names (trace w1))
    = (length (stored_names (trace w)) + stored_total (fs w1))%nat.
Proof.
  intros Hfresh. induction n as [|n IH].
  { cbn. split.
    - intros p b Hin [c Hc]. exfalso.
      destruct p as [|g [|d [|x [|file [|]]]]]; try done. cbn in Hin.
      destruct (bool_decide_reflect (g = "gauntlet")) as [->|]; [| done].
      by rewrite Hfresh in Hc.
    - rewrite (fresh_gauntlet_stored _ Hfresh). lia. }
  cbn zeta in *. rewrite cycles_S.
  pose proof (cycles_count env self n initial_locals w) as Hpc.
  cbn [initial_locals program_count] in Hpc. rewrite Z.add_0_l in Hpc.
  set (l1 := (cycles env self n (initial_locals, w)).1) in *.
  set (w1 := (cycles env self n (initial_locals, w)).2) in *.
  destruct IH as [IHA IHB].
  pose proof (cycle_effect env self l1 w1) as H. cbn zeta in H.
  rewrite Hpc in H.
  set (name := program_name_of (Z.of_nat n)) in *.
  set (fg := if find_p4smith env then p4smith_effect env name (fs w1) else fs w1) in *.
  assert (Hfg : forall p, p <> staged name -> fg !! p = fs w1 !! p).
  { intros p Hp. subst fg. destruct (find_p4smith env); [| done].
    by apply p4smith_effect_other. }
  assert (Hfgst : stored_total fg = stored_total (fs w1)).
  { subst fg. destruct (find_p4smith env); [apply p4smith_effect_stored | done]. }
  assert (Hold : forall p b, in_bucket b p = true -> is_Some (fg !! p) ->
            exists j, 0 <= j < Z.of_nat (S n) /\
                      last p = Some (program_name_of j +:+ ".p4")).
  { intros p b Hin Hsome.
    assert (p <> staged name) as Hp by (intros ->; discriminate Hin).
    rewrite Hfg in Hsome by done.
    destruct (IHA p b Hin Hsome) as (j & Hj & Hlast). exists j. split; [lia | done]. }
  destruct H as
      (_ & [(_ & _ & Hf & Ht) | [(out & _ & _ & _ & Hf & Ht)
        | [(e & _ & _ & Hf & Hq & Ht) | (rt & b & c & es & _ & Hb & Hc & Hq & Ht & Hf & _)]]]).
  - rewrite Hf, Ht, Hfgst. split; [exact Hold |].
    pose proof quiet_nil as Hq.
    destruct (find_p4smith env); rewrite <- IHB; f_equal; by project Hq.
  - rewrite Hf, Ht. rewrite stored_total_delete_other, Hfgst by done. split.
    + intros p b Hin Hsome. apply (Hold p b Hin).
      destruct (decide (p = staged name)) as [->|Hp]; [discriminate Hin |].
      by rewrite lookup_delete_ne in Hsome.
    + pose proof quiet_nil as Hq.
      destruct (find_p4smith env); rewrite <- IHB; f_equal; by project Hq.
  - rewrite Hf, Ht, Hfgst. split; [exact Hold |].
    destruct (find_p4smith env); rewrite <- IHB; f_equal; by project Hq.
  - set (dest := p4_file (_loop_dir_for_program self name ++ [b]) name) in *.
    set (fm := <[dest := c]> (delete (staged name) fg)) in *.
    assert (Hin : in_bucket b dest = true) by apply in_bucket_dest.
    assert (Hne : dest <> staged name) by (intros E; rewrite E in Hin; discriminate Hin).
    assert (Hnone : delete (staged name) fg !! dest = None).
    { rewrite lookup_delete_ne by done. rewrite Hfg by done.
      destruct (fs w1 !! dest) eqn:Hd; [| done]. exfalso.
      destruct (IHA dest b Hin) as (j & Hj & Hlast); [by rewrite Hd |].
      unfold dest in Hlast. rewrite last_p4_file in Hlast.
      assert (name +:+ ".p4" = program_name_of j +:+ ".p4") as Hnm by congruence.
      apply p4_file_name_inj in Hnm; lia. }
    assert (Hfm : stored_total fm = S (stored_total (fs w1))).
    { unfold fm. rewrite (stored_total_insert_new rt b) by done.
      by rewrite stored_total_delete_other, Hfgst. }
    assert (HfmA : forall p b', in_bucket b' p = true -> is_Some (fm !! p) ->
              exists j, 0 <= j < Z.of_nat (S n) /\
                        last p = Some (program_name_of j +:+ ".p4")).
    { intros p b' Hin' Hsome. destruct (decide (p = dest)) as [->|Hp].
      - exists (Z.of_nat n). split; [lia |]. apply last_p4_file.
      - apply (Hold p b' Hin'). unfold fm in Hsome.
        rewrite lookup_insert_ne in Hsome by done.
        destruct (decide (p = staged name)) as [->|Hp']; [discriminate Hin' |].
        by rewrite lookup_delete_ne in Hsome. }
    split.
    + destruct Hf as [-> | [_ [cov ->]]]; [exact HfmA |].
      intros p b' Hin' Hsome. apply (HfmA p b' Hin').
      rewrite lookup_insert_ne in Hsome; [done |]. intros <-. discriminate Hin'.
    + assert (stored_total (fs (loop_body env self l1 w1).2) = stored_total fm) as ->.
      { destruct Hf as [-> | [_ [cov ->]]]; [done |].
        by apply stored_total_insert_other. }
      rewrite Hfm, Ht. clear Ht Hf.
      match goal with |- length (stored_names ?t) = _ =>
        assert (stored_names t = stored_names (trace w1) ++ [name]) as ->
      end.
      { destruct (find_p4smith env);
          destruct ((Z.of_nat n + 1) `mod` 10 =? 0)%Z;
          destruct ((Z.of_nat n + 1) `mod` loop_size self =? 0)%Z;
          by project Hq. }
      rewrite length_app. cbn. lia.
Qed.

Lemma finishing_stored_names l w :
  stored_names (trace (finishing env self l w)) = stored_names (trace w).
Proof.
  unfold finishing. rewrite print_summary_trace, stored_names_app.
  cbn [stored_names omap]. rewrite app_nil_r.
  destruct (_ >? 0)%Z; [| cbn; by rewrite stored_names_app, app_nil_r].
  destruct (negb _); [| cbn; by rewrite stored_names_app, app_nil_r].
  destruct (measure_trace env ((program_count l - 1) `div` loop_size self)
              (emit (GauntletCompleted (program_count l)) w)) as (es & -> & Hq).
  cbn [trace emit]. by project Hq.
Qed.

Lemma finishing_last_summary l w :
  last (summaries (trace (finishing env self l w)))
    = Some (summary_of (fs (finishing env self l w))).
Proof.
  unfold finishing. rewrite print_summary_trace, print_summary_fs, summaries_app.
  apply last_snoc.
Qed.

End stored_invariant.

(** X9: in a run that starts from a fresh gauntlet directory and in which
    no interrupt arrives while an iteration is under way (one at a stop
    check may end the run, as may the duration or the count), the total of
    the buckets is the number of programs the run recorded as processed,
    and the run ends with a summary of the counts of the final
    filesystem. *)
Theorem summary_total_counts_processed env self duration count fuel w l w' :
  fresh_gauntlet (fs w) ->
  stored_names (trace w) = [] ->
  check_dependencies env = true ->
  run_gauntlet env self duration count fuel w = Some (l, w') ->
  stored_total (fs w') = length (stored_names (trace w')) /\
  last (summaries (trace w')) = Some (summary_of (fs w')).
Proof.
  intros Hfresh Hnone Hdeps. unfold run_gauntlet. rewrite Hdeps. cbn [negb].
  destruct (run_loop _ _ _ _ _ _ _) as [[l1 w1]|] eqn:Hrun; [| done].
  intros [= <- <-].
  destruct (run_loop_result _ _ _ _ _ _ _ _ _ Hrun) as (n & e & _ & Hl & Hw & He).
  split; [| apply finishing_last_summary].
  rewrite finishing_stored, finishing_stored_names, Hw. cbn [fs trace emit].
  destruct (cycles_stored_inv env self n w Hfresh) as [_ Hlen].
  cbn zeta in Hlen. rewrite Hnone in Hlen. cbn in Hlen.
  rewrite stored_names_app. apply stop_check_events in He.
  destruct He as [-> | [-> | ->]]; cbn; rewrite app_nil_r; lia.
Qed.

Lemma summary_total_counts_processed_witness :
  match run_gauntlet
          (scenario_env (times_out_for "gauntlet00001") (crashes_for "gauntlet00002")
             all_ok no_coverage)
          (init 2) None (Some 5) 6 empty_world with
  | Some (l, w') => stored_total (fs w') = length (stored_names (trace w'))
  | None => False
  end.
Proof.
  pose proof (summary_total_counts_processed
                (scenario_env (times_out_for "gauntlet00001")
                   (crashes_for "gauntlet00002") all_ok no_coverage)
                (init 2) None (Some 5) 6 empty_world) as H.
  assert (Hs : match run_gauntlet
                       (scenario_env (times_out_for "gauntlet00001")
                          (crashes_for "gauntlet00002") all_ok no_coverage)
                       (init 2) None (Some 5) 6 empty_world with
               | Some _ => true
               | None => false
               end = true) by (vm_compute; reflexivity).
  revert Hs.
  destruct (run_gauntlet _ (init 2) None (Some 5) 6 empty_world) as [[l w']|].
  - intros _. apply (H l w'); [intros p; apply lookup_empty | reflexivity ..].
  - discriminate.
Defined.

(** ** The backup of [__init__] *)

Section backup.

Lemma relative_to_app d rest : relative_to d (d ++ rest) = Some rest.
Proof.
  induction d as [|x d IH]; [done |]. cbn. by rewrite bool_decide_eq_true_2.
Qed.

Lemma relative_to_Some d p rest : relative_to d p = Some rest -> p = d ++ rest.
Proof.
  revert p. induction d as [|x d IH]; intros p H; [by injection H as -> |].
  destruct p as [|y p]; [done |]. cbn in H.
  destruct (bool_decide_reflect (x = y)) as [->|]; [| done].
  by rewrite (IH p H).
Qed.

Lemma exists_at_false (d : path) (f : FS) :
  exists_at d f = false <-> forall rest, f !! (d ++ rest) = None.
Proof.
  unfold exists_at. rewrite bool_decide_eq_false, map_Exists_lookup. split.
  - intros Hno rest. destruct (f !! (d ++ rest)) as [c|] eqn:Hc; [| done].
    destruct Hno. exists (d ++ rest), c. split; [done |].
    rewrite relative_to_app. eauto.
  - intros Hnone (p & c & Hp & [rest Hrest]).
    apply relative_to_Some in Hrest as ->. by rewrite Hnone in Hp.
Qed.

Lemma exists_at_true (d : path) (f : FS) :
  exists_at d f = true <-> exists rest c, f !! (d ++ rest) = Some c.
Proof.
  unfold exists_at. rewrite bool_decide_eq_true, map_Exists_lookup. split.
  - intros (p & c & Hp & [rest Hrest]).
    apply relative_to_Some in Hrest as ->. eauto.
  - intros (rest & c & Hc). exists (d ++ rest), c. split; [done |].
    rewrite relative_to_app. eauto.
Qed.

Context (src dst : path) (f : FS).
Context (Hfree : forall rest, f !! (dst ++ rest) = None).
Context (Hapart : forall rest, relative_to src (dst ++ rest) = None).

Lemma renamed_inj_on p q c c' :
  f !! p = Some c -> f !! q = Some c' ->
  renamed src dst p = renamed src dst q -> p = q.
Proof.
  intros Hp Hq. unfold renamed.
  destruct (relative_to src p) as [r|] eqn:Ep, (relative_to src q) as [r'|] eqn:Eq.
  - intros ->%app_inv_head.
    apply relative_to_Some in Ep, Eq. congruence.
  - intros <-. by rewrite Hfree in Hq.
  - intros ->. by rewrite Hfree in Hp.
  - done.
Qed.

(** A file is in the renamed tree exactly where some file of the old tree
    is sent. *)
Lemma lookup_rename_dir q c :
  rename_dir src dst f !! q = Some c <->
  exists p, f !! p = Some c /\ renamed src dst p = q.
Proof.
  unfold rename_dir.
  rewrite <- elem_of_list_to_map.
  - rewrite list_elem_of_fmap. split.
    + intros ([p c'] & [= -> ->] & Hin%elem_of_map_to_list). eauto.
    + intros (p & Hp & <-). exists (p, c). split; [done |].
      by apply elem_of_map_to_list.
  - rewrite <- list_fmap_compose.
    apply NoDup_fmap_2_strong; [| apply NoDup_map_to_list].
    intros [p c1] [q' c2] Hp%elem_of_map_to_list Hq%elem_of_map_to_list Heq.
    cbn in Heq. assert (p = q') as -> by (by eapply renamed_inj_on).
    congruence.
Qed.

Lemma rename_dir_moved rest :
  rename_dir src dst f !! (dst ++ rest) = f !! (src ++ rest).
Proof.
  apply option_eq. intros c. rewrite lookup_rename_dir. split.
  - intros (p & Hp & Hren). unfold renamed in Hren.
    destruct (relative_to src p) as [r|] eqn:Ep.
    + apply app_inv_head in Hren as ->.
      apply relative_to_Some in Ep as ->. done.
    + subst p. by rewrite Hfree in Hp.
  - intros Hc. exists (src ++ rest). split; [done |].
    unfold renamed. by rewrite relative_to_app.
Qed.

Lemma rename_dir_source_gone rest :
  rename_dir src dst f !! (src ++ rest) = None.
Proof.
  destruct (rename_dir src dst f !! (src ++ rest)) as [c|] eqn:Hc; [| done].
  exfalso. apply lookup_rename_dir in Hc as (p & Hp & Hren).
  unfold renamed in Hren. destruct (relative_to src p) as [r|] eqn:Ep.
  - pose proof (Hapart r) as Hd. rewrite Hren, relative_to_app in Hd. done.
  - subst p. by rewrite relative_to_app in Ep.
Qed.

Lemma rename_dir_elsewhere p :
  relative_to src p = None -> relative_to dst p = None ->
  rename_dir src dst f !! p = f !! p.
Proof.
  intros Hs Hd. apply option_eq. intros c. rewrite lookup_rename_dir. split.
  - intros (p' & Hp' & Hren). unfold renamed in Hren.
    destruct (relative_to src p') as [r|] eqn:Ep; [| by subst].
    subst p. by rewrite relative_to_app in Hd.
  - intros Hc. exists p. split; [done |]. unfold renamed. by rewrite Hs.
Qed.

End backup.

Lemma backup_name_ne ts : "gauntlet" <> backup_name ts.
Proof. cbv [backup_name String.append]. discriminate. Qed.

Lemma backup_apart ts tail rest :
  relative_to gauntlet_dir ((backup_name ts :: tail) ++ rest) = None.
Proof.
  cbn. rewrite bool_decide_eq_false_2; [done | apply backup_name_ne].
Qed.

Lemma is_dir_true (d : path) (f : FS) :
  is_dir d f = true <-> exists x rest c, f !! (d ++ x :: rest) = Some c.
Proof.
  unfold is_dir. rewrite bool_decide_eq_true, map_Exists_lookup. split.
  - intros (p & c & Hp & Hbelow). unfold strictly_below in Hbelow.
    destruct (relative_to d p) as [[|x rest]|] eqn:Hrel; [done | | done].
    apply relative_to_Some in Hrel as ->. eauto.
  - intros (x & rest & c & Hc). exists (d ++ x :: rest), c. split; [done |].
    unfold strictly_below. by rewrite relative_to_app.
Qed.

Lemma is_dir_exists_at (d : path) (f : FS) :
  is_dir d f = true -> exists_at d f = true.
Proof.
  rewrite is_dir_true, exists_at_true. intros (x & rest & c & Hc). eauto.
Qed.

(** Nothing exists at [d]: it is neither a directory nor a file. *)
Lemma exists_at_false_free (d : path) (f : FS) :
  exists_at d f = false -> is_dir d f = false /\ exists_ d f = false.
Proof.
  intros Hd. split.
  - destruct (is_dir d f) eqn:E; [| done].
    apply is_dir_exists_at in E. congruence.
  - unfold exists_. apply bool_decide_eq_false_2. intros [c Hc].
    pose proof (proj1 (exists_at_false d f) Hd []) as Hnone.
    rewrite app_nil_r in Hnone. congruence.
Qed.

(** The backup onto a free backup path. *)
Lemma backup_fresh (ts : string) (f : FS) :
  exists_at [backup_name ts] f = false ->
  exists f',
    _backup_existing_gauntlet ts f = Some f' /\
    fresh_gauntlet f' /\
    (forall rest, f' !! (backup_name ts :: rest) = f !! ("gauntlet" :: rest)) /\
    (forall p, relative_to gauntlet_dir p = None ->
               relative_to [backup_name ts] p = None -> f' !! p = f !! p).
Proof.
  intros Hb. unfold _backup_existing_gauntlet. cbn [project_root app].
  destruct (exists_at_false_free _ _ Hb) as [-> ->].
  assert (Hfree : forall rest, f !! ([backup_name ts] ++ rest) = None)
    by (by apply exists_at_false).
  destruct (exists_at gauntlet_dir f) eqn:Hg.
  - assert (Hapart : forall rest,
              relative_to gauntlet_dir ([backup_name ts] ++ rest) = None)
      by (intros rest; apply backup_apart).
    eexists. split; [done |]. split; [| split].
    + intros p. by apply (rename_dir_source_gone gauntlet_dir [backup_name ts] f).
    + intros rest. by apply (rename_dir_moved gauntlet_dir [backup_name ts] f).
    + intros p Hs Hd. by apply rename_dir_elsewhere.
  - assert (Hfresh : fresh_gauntlet f).
    { intros p. apply (proj1 (exists_at_false gauntlet_dir f) Hg p). }
    exists f. split; [done |]. split; [done |]. split; [| done].
    intros rest. rewrite Hfresh. apply (Hfree rest).
Qed.

(** The backup into a backup directory that is already there. *)
Lemma backup_into (ts : string) (f : FS) :
  is_dir [backup_name ts] f = true ->
  exists_at [backup_name ts; "gauntlet"] f = false ->
  exists f',
    _backup_existing_gauntlet ts f = Some f' /\
    fresh_gauntlet f' /\
    (forall rest, f' !! (backup_name ts :: "gauntlet" :: rest)
                  = f !! ("gauntlet" :: rest)) /\
    (forall p, relative_to gauntlet_dir p = None ->
               relative_to [backup_name ts; "gauntlet"] p = None ->
               f' !! p = f !! p).
Proof.
  intros Hdir Hb. unfold _backup_existing_gauntlet. cbn [project_root app].
  rewrite Hdir, Hb.
  assert (Hfree : forall rest, f !! ([backup_name ts; "gauntlet"] ++ rest) = None)
    by (by apply exists_at_false).
  destruct (exists_at gauntlet_dir f) eqn:Hg.
  - assert (Hapart : forall rest,
              relative_to gauntlet_dir ([backup_name ts; "gauntlet"] ++ rest) = None)
      by (intros rest; apply backup_apart).
    eexists. split; [done |]. split; [| split].
    + intros p.
      by apply (rename_dir_source_gone gauntlet_dir [backup_name ts; "gauntlet"] f).
    + intros rest.
      by apply (rename_dir_moved gauntlet_dir [backup_name ts; "gauntlet"] f).
    + intros p Hs Hd. by apply rename_dir_elsewhere.
  - assert (Hfresh : fresh_gauntlet f).
    { intros p. apply (proj1 (exists_at_false gauntlet_dir f) Hg p). }
    exists f. split; [done |]. split; [done |]. split; [| done].
    intros rest. rewrite Hfresh. apply (Hfree rest).
Qed.

(** X10: the backup made by [__init__], on a filesystem given by its
    files.  When nothing exists at the backup path, it succeeds and every
    file that was below the gauntlet directory is found, unchanged, at the
    same place below [gauntlet_backup_<timestamp>].  When the backup path
    is a directory that holds files and no entry [gauntlet], the files are
    found below its [gauntlet] subdirectory, and what the backup directory
    held stays.  In both cases nothing is left below the gauntlet
    directory and no other file is touched.  When a regular file is at the
    backup path and the gauntlet directory holds files, the program exits
    and nothing is moved. *)
Theorem backup_keeps_earlier_results (ts : string) (f : FS) :
  (exists_at [backup_name ts] f = false ->
   exists f',
     _backup_existing_gauntlet ts f = Some f' /\
     fresh_gauntlet f' /\ stored_total f' = 0%nat /\
     (forall rest, f' !! (backup_name ts :: rest) = f !! ("gauntlet" :: rest)) /\
     (forall p, relative_to gauntlet_dir p = None ->
                relative_to [backup_name ts] p = None -> f' !! p = f !! p)) /\
  (is_dir [backup_name ts] f = true ->
   exists_at [backup_name ts; "gauntlet"] f = false ->
   exists f',
     _backup_existing_gauntlet ts f = Some f' /\
     fresh_gauntlet f' /\ stored_total f' = 0%nat /\
     (forall rest, f' !! (backup_name ts :: "gauntlet" :: rest)
                   = f !! ("gauntlet" :: rest)) /\
     (forall p, relative_to gauntlet_dir p = None ->
                relative_to [backup_name ts; "gauntlet"] p = None ->
                f' !! p = f !! p)) /\
  (is_dir [backup_name ts] f = false ->
   exists_ [backup_name ts] f = true ->
   is_dir gauntlet_dir f = true ->
   _backup_existing_gauntlet ts f = None).
Proof.
  split; [| split].
  - intros Hb. destruct (backup_fresh ts f Hb) as (f' & Hbk & Hfresh & Hrest).
    exists f'. split; [done |]. split; [done |].
    split; [by apply fresh_gauntlet_stored | done].
  - intros Hdir Hb.
    destruct (backup_into ts f Hdir Hb) as (f' & Hbk & Hfresh & Hrest).
    exists f'. split; [done |]. split; [done |].
    split; [by apply fresh_gauntlet_stored | done].
  - intros Hnodir Hfile Hgdir. unfold _backup_existing_gauntlet.
    cbn [project_root app].
    by rewrite (is_dir_exists_at _ _ Hgdir), Hnodir, Hfile, Hgdir.
Qed.

Lemma backup_keeps_earlier_results_witness :
  (exists f',
     _backup_existing_gauntlet "20261104_120000" earlier_results = Some f' /\
     f' !! ["gauntlet_backup_20261104_120000"; "loop00"; "welltyped";
            "gauntlet00000.p4"] = Some (ProgramText "old") /\
     f' !! ["notes.txt"] = Some (ProgramText "keep") /\
     fresh_gauntlet f') /\
  (exists f',
     _backup_existing_gauntlet "20261104_120000"
       (<[ ["gauntlet_backup_20261104_120000"; "kept.txt"] := ProgramText "k" ]>
          earlier_results) = Some f' /\
     f' !! ["gauntlet_backup_20261104_120000"; "gauntlet"; "loop00"; "welltyped";
            "gauntlet00000.p4"] = Some (ProgramText "old") /\
     f' !! ["gauntlet_backup_20261104_120000"; "kept.txt"]
       = Some (ProgramText "k")) /\
  _backup_existing_gauntlet "20261104_120000"
    (<[ ["gauntlet_backup_20261104_120000"] := ProgramText "in the way" ]>
       earlier_results) = None.
Proof.
  split; [| split].
  - destruct (backup_keeps_earlier_results "20261104_120000" earlier_results)
      as [H _].
    destruct (H ltac:(vm_compute; reflexivity))
      as (f' & Hbk & Hfresh & _ & Hmoved & Helse).
    exists f'. split; [exact Hbk |]. split; [| split; [| exact Hfresh]].
    + etrans; [apply (Hmoved ["loop00"; "welltyped"; "gauntlet00000.p4"]) |].
      vm_compute. reflexivity.
    + etrans; [apply Helse; reflexivity |]. vm_compute. reflexivity.
  - destruct (backup_keeps_earlier_results "20261104_120000"
                (<[ ["gauntlet_backup_20261104_120000"; "kept.txt"]
                      := ProgramText "k" ]> earlier_results))
      as (_ & H & _).
    destruct (H ltac:(vm_compute; reflexivity) ltac:(vm_compute; reflexivity))
      as (f' & Hbk & _ & _ & Hmoved & Helse).
    exists f'. split; [exact Hbk |]. split.
    + etrans; [apply (Hmoved ["loop00"; "welltyped"; "gauntlet00000.p4"]) |].
      vm_compute. reflexivity.
    + etrans; [apply Helse; reflexivity |]. vm_compute. reflexivity.
  - apply (backup_keeps_earlier_results "20261104_120000"
             (<[ ["gauntlet_backup_20261104_120000"] := ProgramText "in the way" ]>
                earlier_results));
      vm_compute; reflexivity.
Defined.

(** ** [main] *)

Section directories.

Context (env : Env) (self : GauntletRunner).

(** The loop writes below the gauntlet directory and [p4c/build] only. *)
Lemma loop_body_frame_dirs l w p :
  relative_to gauntlet_dir p = None ->
  relative_to p4c_build_dir p = None ->
  fs (loop_body env self l w).2 !! p = fs w !! p.
Proof.
  intros Hg Hb. pose proof (cycle_effect env self l w) as H. cbn zeta in H.
  set (name := program_name_of (program_count l)) in *.
  set (fg := if find_p4smith env then p4smith_effect env name (fs w) else fs w) in *.
  assert (Hstaged : p <> p4_file p4c_build_dir name).
  { intros ->. unfold p4_file in Hb.
    by rewrite (relative_to_app p4c_build_dir) in Hb. }
  assert (Hfg : fg !! p = fs w !! p).
  { subst fg. destruct (find_p4smith env); [by apply p4smith_effect_other | done]. }
  assert (Hcov : forall k, p <> cov_file k).
  { intros k ->. unfold cov_file in Hg.
    by rewrite (relative_to_app gauntlet_dir) in Hg. }
  destruct H as
      (_ & [(_ & _ & -> & _) | [(out & _ & _ & _ & -> & _)
        | [(e & _ & _ & -> & _) | (rt & b & c & es & _ & _ & _ & _ & _ & Hf & _)]]]).
  - done.
  - by rewrite lookup_delete_ne.
  - done.
  - assert (Hdest : p <> p4_file (_loop_dir_for_program self name ++ [b]) name).
    { intros ->. unfold _loop_dir_for_program, p4_file in Hg.
      rewrite <- !app_assoc, (relative_to_app gauntlet_dir) in Hg. done. }
    destruct Hf as [-> | [_ [cov ->]]].
    + by rewrite lookup_insert_ne, lookup_delete_ne.
    + rewrite lookup_insert_ne by (symmetry; apply Hcov).
      by rewrite lookup_insert_ne, lookup_delete_ne.
Qed.

Lemma cycles_frame_dirs n l w p :
  relative_to gauntlet_dir p = None ->
  relative_to p4c_build_dir p = None ->
  fs (cycles env self n (l, w)).2 !! p = fs w !! p.
Proof.
  intros Hg Hb. induction n as [|n IH]; [done |].
  by rewrite cycles_S, loop_body_frame_dirs.
Qed.

Lemma finishing_frame_dirs l w p :
  relative_to gauntlet_dir p = None ->
  fs (finishing env self l w) !! p = fs w !! p.
Proof.
  intros Hg. destruct (finishing_fs env self l w) as [-> | (k & cov & ->)]; [done |].
  rewrite lookup_insert_ne; [done |]. intros <-. unfold cov_file in Hg.
  by rewrite (relative_to_app gauntlet_dir) in Hg.
Qed.

End directories.

(** X11: [main] with a count [c > 0] and no duration, when the backup
    directory of this second is free and the dependencies are found, makes
    exactly [c] iterations and finishes.  Whatever the gauntlet directory
    held before is then found below the backup directory, the buckets hold
    exactly the programs this run recorded as processed, at most [c] of
    them, and no file outside the gauntlet, backup and [p4c/build]
    directories has changed. *)
Theorem main_count_run env duration (c : Z) (configured : Z) ts (extra : nat) w :
  truthy duration = false ->
  0 < c ->
  check_dependencies env = true ->
  (forall k, interrupt env k = false) ->
  stored_names (trace w) = [] ->
  exists_at [backup_name ts] (fs w) = false ->
  exists l w',
    main env duration (Some c) configured ts (S (Z.to_nat c) + extra) w
      = Finished l w' /\
    program_count l = c /\
    stored_total (fs w') = length (stored_names (trace w')) /\
    (stored_total (fs w') <= Z.to_nat c)%nat /\
    (forall rest, fs w' !! (backup_name ts :: rest) = fs w !! ("gauntlet" :: rest)) /\
    (forall p, relative_to gauntlet_dir p = None ->
               relative_to p4c_build_dir p = None ->
               relative_to [backup_name ts] p = None ->
               fs w' !! p = fs w !! p).
Proof.
  intros Hd Hc Hdeps Hint Hnone Hfreeb.
  pose proof (backup_fresh ts (fs w) Hfreeb) as (f & Hbk & Hfresh & Hmoved & Helse).
  set (self := init configured).
  set (n := Z.to_nat c).
  set (w0 := set_fs f w).
  set (lw := cycles env self n (initial_locals, w0)).
  assert (Hloop : run_loop env self duration (Some c) (S n + extra) initial_locals w0
                  = Some (lw.1, emit CountLimit lw.2)).
  { apply run_loop_first_stop.
    - intros j l' Hj Hl'. apply stop_check_cases. cbn in Hl'.
      split; [apply Hint |]. split.
      + intros (d & -> & Hd0 & _). cbn in Hd. by destruct (Z.eqb_spec d 0).
      + intros (c' & [= <-] & _ & Hle). lia.
    - intros l' Hl'. apply stop_check_cases. cbn in Hl'.
      split; [apply Hint |]. split.
      + intros (d & -> & Hd0 & _). cbn in Hd. by destruct (Z.eqb_spec d 0).
      + exists c. split; [done |]. split; lia. }
  assert (Hmain : main env duration (Some c) configured ts (S n + extra) w
                  = Finished lw.1 (finishing env self lw.1 (emit CountLimit lw.2))).
  { unfold main. rewrite Hd. cbn [negb andb truthy].
    destruct (Z.eqb_spec c 0) as [?|_]; [lia |]. cbn [negb andb].
    rewrite Hbk. unfold run_gauntlet. rewrite Hdeps. cbn [negb].
    fold self w0. by rewrite Hloop. }
  exists lw.1, (finishing env self lw.1 (emit CountLimit lw.2)).
  split; [exact Hmain |]. split.
  { unfold lw. rewrite cycles_count. cbn. lia. }
  assert (Hst : stored_total (fs (finishing env self lw.1 (emit CountLimit lw.2)))
                = stored_total (fs lw.2)).
  { by rewrite finishing_stored. }
  split.
  { rewrite Hst, finishing_stored_names. cbn [trace emit].
    rewrite stored_names_app. cbn. rewrite app_nil_r.
    destruct (cycles_stored_inv env self n w0 Hfresh) as [_ Hlen].
    cbn zeta in Hlen. fold lw in Hlen. cbn [trace set_fs w0] in Hlen.
    rewrite Hnone in Hlen. cbn in Hlen. lia. }
  split.
  { rewrite Hst. pose proof (cycles_stored_le env self n w0) as Hle.
    fold lw in Hle. cbn [fs set_fs w0] in Hle.
    rewrite (fresh_gauntlet_stored _ Hfresh) in Hle. lia. }
  assert (Hout : forall p, relative_to gauntlet_dir p = None ->
            relative_to p4c_build_dir p = None ->
            fs (finishing env self lw.1 (emit CountLimit lw.2)) !! p = f !! p).
  { intros p Hg Hb. rewrite finishing_frame_dirs by done. cbn [fs emit].
    unfold lw. by rewrite cycles_frame_dirs. }
  split.
  - intros rest. rewrite Hout; [apply Hmoved | |].
    + cbn. rewrite bool_decide_eq_false_2; [done | apply backup_name_ne].
    + cbn. rewrite bool_decide_eq_false_2; [done |].
      cbv [backup_name String.append]. discriminate.
  - intros p Hg Hb Hbk'. rewrite Hout by done. by apply Helse.
Qed.

Lemma main_count_run_witness :
  let env := scenario_env all_ok (says "well-typed") all_ok no_coverage in
  let w := set_fs earlier_results empty_world in
  exists l w',
    main env None (Some 2) 1000 "20261104_120000" 3 w = Finished l w' /\
    program_count l = 2 /\
    (stored_total (fs w') <= 2)%nat /\
    fs w' !! ["gauntlet_backup_20261104_120000"; "loop00"; "welltyped";
              "gauntlet00000.p4"] = Some (ProgramText "old").
Proof.
  intros env w.
  destruct (main_count_run env None 2 1000 "20261104_120000" 0 w)
    as (l & w' & Hmain & Hpc & _ & Hle & Hbackup & _).
  - reflexivity.
  - lia.
  - reflexivity.
  - intros k. reflexivity.
  - reflexivity.
  - vm_compute. reflexivity.
  - exists l, w'. split; [exact Hmain |]. split; [exact Hpc |].
    split; [exact Hle |].
    etrans; [apply (Hbackup ["loop00"; "welltyped"; "gauntlet00000.p4"]) |].
    vm_compute. reflexivity.
Defined.

(** ** Termination *)

Lemma least_index {A} (f : nat -> option A) (N : nat) :
  (exists n a, (n <= N)%nat /\ f n = Some a /\
               forall j, (j < n)%nat -> f j = None)
  \/ (forall j, (j <= N)%nat -> f j = None).
Proof.
  induction N as [|N [IH | IH]].
  - destruct (f 0%nat) as [a|] eqn:H0.
    + left. exists 0%nat, a. split; [lia |]. split; [done |]. intros j Hj. lia.
    + right. intros j Hj. by replace j with 0%nat by lia.
  - left. destruct IH as (n & a & Hn & Ha & Hleast).
    exists n, a. split; [lia |]. done.
  - destruct (f (S N)) as [a|] eqn:HS.
    + left. exists (S N), a. split; [lia |]. split; [done |].
      intros j Hj. apply IH. lia.
    + right. intros j Hj. destruct (decide (j = S N)) as [-> | Hne]; [done |].
      apply IH. lia.
Qed.

Section termination.

Context (env : Env) (self : GauntletRunner) (duration count : option Z).

(** X12: when an interrupt arrives, the duration has elapsed or the count
    is reached at the stop check of index [N], the run returns after at
    most [N] iterations, and it has asked p4smith for exactly the programs
    [gauntlet00000] up to the one before the final counter, in order. *)
Theorem run_terminates (N extra : nat) w :
  check_dependencies env = true ->
  interrupt env (Z.of_nat N) = true
    \/ duration_due env duration (Z.of_nat N)
    \/ count_reached count (Z.of_nat N) ->
  exists (n : nat) l w',
    run_gauntlet env self duration count (S N + extra) w = Some (l, w') /\
    (n <= N)%nat /\ program_count l = Z.of_nat n /\
    attempts (trace w') =
      attempts (trace w) ++ ((fun k => program_name_of (Z.of_nat k)) <$> seq 0 n).
Proof.
  intros Hdeps Hstop.
  set (at_ := fun k : nat =>
         stop_check env duration count
           {| program_count := Z.of_nat k; last_measured_loop_index := -1 |}).
  assert (Hat : forall k l, program_count l = Z.of_nat k ->
                            stop_check env duration count l = at_ k).
  { intros k l Hl. by apply stop_check_counter. }
  destruct (least_index at_ N) as [(n & e & Hn & He & Hleast) | Hnone].
  2: { specialize (Hnone N (le_n N)).
       apply (stop_check_cases env duration count) in Hnone as (Hi & Hd & Hf).
       cbn [program_count] in Hi, Hd, Hf.
       destruct Hstop as [? | [? | ?]]; [congruence | done ..]. }
  set (lw := cycles env self n (initial_locals, w)).
  assert (Hloop : run_loop env self duration count (S N + extra) initial_locals w
                  = Some (lw.1, emit e lw.2)).
  { replace (S N + extra)%nat with (S n + (N - n + extra))%nat by lia.
    apply run_loop_first_stop.
    - intros j l' Hj Hl'. cbn in Hl'. rewrite (Hat j) by done. by apply Hleast.
    - intros l' Hl'. cbn in Hl'. by rewrite (Hat n). }
  exists n, lw.1, (finishing env self lw.1 (emit e lw.2)).
  split; [| split; [done | split]].
  - unfold run_gauntlet. rewrite Hdeps. cbn [negb]. by rewrite Hloop.
  - unfold lw. rewrite cycles_count. cbn. lia.
  - rewrite finishing_attempts. cbn [trace emit]. rewrite attempts_app.
    assert (Hfind : find_p4smith env = true).
    { unfold check_dependencies in Hdeps.
      by destruct (p4spectec_exists env), (find_p4smith env). }
    unfold lw. rewrite cycles_attempts by done.
    apply (stop_check_events env duration count) in He.
    by destruct He as [-> | [-> | ->]]; cbn; rewrite app_nil_r.
Qed.

End termination.

Lemma run_terminates_witness :
  let env := with_clock (fun k => 10 * k)
               (scenario_env all_ok (says "well-typed") all_ok no_coverage) in
  exists (n : nat) l w',
    run_gauntlet env (init 2) (Some 25) None 8 empty_world = Some (l, w') /\
    (n <= 5)%nat /\ program_count l = Z.of_nat n.
Proof.
  intros env.
  destruct (run_terminates env (init 2) (Some 25) None 5 2 empty_world)
    as (n & l & w' & Hrun & Hn & Hpc & _).
  - reflexivity.
  - right. left. exists 25. split; [reflexivity |]. split; [lia |].
    vm_compute. discriminate.
  - exists n, l, w'. split; [exact Hrun |]. split; [exact Hn | exact Hpc].
Defined.

(** X13: with accepted arguments, nothing at the backup path and a
    dependency missing, [main] has already moved the earlier results to
    the backup directory when the dependency check fails: no iteration
    runs, no file is left below the gauntlet directory (which [__init__]
    has created anew), the files it held are found below the backup
    directory, and every other file is as it was. *)
Theorem main_missing_dependency env duration count (configured : Z)
    (ts : string) (fuel : nat) w :
  xorb (truthy duration) (truthy count) = true ->
  check_dependencies env = false ->
  exists_at [backup_name ts] (fs w) = false ->
  exists w',
    main env duration count configured ts fuel w = Finished initial_locals w' /\
    trace w' = trace w ++ [DependencyCheckFailed] /\
    fresh_gauntlet (fs w') /\
    (forall rest, fs w' !! (backup_name ts :: rest) = fs w !! ("gauntlet" :: rest)) /\
    (forall p, relative_to gauntlet_dir p = None ->
               relative_to [backup_name ts] p = None ->
               fs w' !! p = fs w !! p).
Proof.
  intros Hargs Hdeps Hfreeb.
  pose proof (backup_fresh ts (fs w) Hfreeb) as (f & Hbk & Hfresh & Hmoved & Helse).
  exists (emit DependencyCheckFailed (set_fs f w)).
  split; [| done].
  unfold main. rewrite Hbk. unfold run_gauntlet. rewrite Hdeps. cbn [negb].
  by destruct (truthy duration), (truthy count).
Qed.

Lemma main_missing_dependency_witness :
  let env := with_clock (fun k => k)
               (scenario_env all_ok (says "well-typed") all_ok no_coverage) in
  let env := {| p4spectec_exists := false; find_p4smith := find_p4smith env;
                spec_concrete_exists := spec_concrete_exists env;
                p4include_exists := p4include_exists env;
                p4smith := p4smith env; p4smith_output := p4smith_output env;
                watsup_present := watsup_present env;
                p4spectec_run_sl := p4spectec_run_sl env;
                p4spectec_cover := p4spectec_cover env;
                measured := measured env; move_ok := move_ok env;
                elapsed := elapsed env; interrupt := interrupt env |} in
  exists w',
    main env None (Some 5) 1000 "20261104_120000" 0
      (set_fs earlier_results empty_world) = Finished initial_locals w' /\
    fresh_gauntlet (fs w').
Proof.
  intros env0 env.
  destruct (main_missing_dependency env None (Some 5) 1000 "20261104_120000" 0
              (set_fs earlier_results empty_world))
    as (w' & Hmain & _ & Hfresh & _).
  - reflexivity.
  - reflexivity.
  - vm_compute. reflexivity.
  - exists w'. split; [exact Hmain | exact Hfresh].
Defined.

(** ** The staging area [p4c/build] *)

Section staging.

Context (env : Env) (self : GauntletRunner).

Local Abbreviation staged name := (p4_file p4c_build_dir name).

Lemma staged_outside_gauntlet name : relative_to gauntlet_dir (staged name) = None.
Proof. reflexivity. Qed.

Lemma loop_body_frame_staged l w p :
  relative_to gauntlet_dir p = None ->
  p <> staged (program_name_of (program_count l)) ->
  fs (loop_body env self l w).2 !! p = fs w !! p.
Proof.
  intros Hg Hstaged. pose proof (cycle_effect env self l w) as H. cbn zeta in H.
  set (name := program_name_of (program_count l)) in *.
  set (fg := if find_p4smith env then p4smith_effect env name (fs w) else fs w) in *.
  assert (Hfg : fg !! p = fs w !! p).
  { subst fg. destruct (find_p4smith env); [by apply p4smith_effect_other | done]. }
  assert (Hcov : forall k, p <> cov_file k).
  { intros k ->. unfold cov_file in Hg.
    by rewrite (relative_to_app gauntlet_dir) in Hg. }
  destruct H as
      (_ & [(_ & _ & -> & _) | [(out & _ & _ & _ & -> & _)
        | [(e & _ & _ & -> & _) | (rt & b & c & es & _ & _ & _ & _ & _ & Hf & _)]]]).
  - done.
  - by rewrite lookup_delete_ne.
  - done.
  - assert (Hdest : p <> p4_file (_loop_dir_for_program self name ++ [b]) name).
    { intros ->. unfold _loop_dir_for_program, p4_file in Hg.
      rewrite <- !app_assoc, (relative_to_app gauntlet_dir) in Hg. done. }
    destruct Hf as [-> | [_ [cov ->]]].
    + by rewrite lookup_insert_ne, lookup_delete_ne.
    + rewrite lookup_insert_ne by (symmetry; apply Hcov).
      by rewrite lookup_insert_ne, lookup_delete_ne.
Qed.

(** A generation that fails although p4smith wrote its file. *)
Lemma generate_false_no_file name w :
  p4smith_writes_on_success env ->
  (generate_p4_program env name w).1 = false ->
  fs (generate_p4_program env name w).2 = fs w.
Proof.
  intros Hclean. rewrite generate_fs. unfold generate_p4_program.
  destruct (find_p4smith env); cbn [negb]; [| done].
  unfold p4smith_effect.
  destruct (p4smith_output env name) as [text|] eqn:Hout; [| done].
  destruct (Hclean name text Hout) as (out & err & ->). cbn [Z.eqb negb].
  unfold exists_. cbn [fs emit set_fs].
  rewrite bool_decide_eq_true_2; [done |]. rewrite lookup_insert_eq. eauto.
Qed.

Lemma categorize_moves name rt w :
  is_Some (fs w !! staged name) -> rt <> Error -> move_ok env name = true ->
  (categorize_program env self name rt w).1 = true.
Proof.
  intros Hfile Hrt Hmove. unfold categorize_program, exists_.
  rewrite bool_decide_eq_true_2 by done. cbn [negb]. rewrite Hmove.
  by destruct rt.
Qed.

Lemma loop_body_staged_consumed l w :
  p4smith_writes_on_success env ->
  move_ok env (program_name_of (program_count l)) = true ->
  fs w !! staged (program_name_of (program_count l)) = None ->
  fs (loop_body env self l w).2 !! staged (program_name_of (program_count l)) = None.
Proof.
  intros Hclean Hmove Hnone.
  pose proof (loop_body_outcome env self l w) as H.
  inversion H as [wg Hg | wg out Hg Ht | wg rt out wc Hg Ht Hrt Hc
                  | wg rt out wc Hg Ht Hrt Hc]; clear H.
  - cbn [fs emit snd].
    pose proof (generate_false_no_file (program_name_of (program_count l)) w Hclean) as Hfs.
    rewrite Hg in Hfs. cbn [fst snd] in Hfs. by rewrite Hfs.
  - cbn [fs set_fs snd]. apply lookup_delete_eq.
  - pose proof (generate_ok env (program_name_of (program_count l)) w) as Hok. rewrite Hg in Hok.
    destruct (Hok eq_refl) as [_ Hfile].
    pose proof (categorize_moves (program_name_of (program_count l)) rt wg Hfile Hrt Hmove) as Hcat.
    rewrite Hc in Hcat. done.
  - apply (categorize_true env self) in Hc as (b & c & _ & _ & _ & Hfs & _).
    assert (Hwc : fs wc !! staged (program_name_of (program_count l)) = None).
    { rewrite Hfs, lookup_insert_ne; [apply lookup_delete_eq |].
      intros Heq. pose proof (staged_outside_gauntlet (program_name_of (program_count l))) as Hout.
      rewrite <- Heq in Hout. unfold _loop_dir_for_program, p4_file in Hout.
      rewrite <- !app_assoc, (relative_to_app gauntlet_dir) in Hout. done. }
    assert (Hcov : forall k w0, fs w0 !! staged (program_name_of (program_count l)) = None ->
              fs (measure_loop_coverage env k w0) !! staged (program_name_of (program_count l)) = None).
    { intros k w0 Hw0. destruct (measure_fs env k w0) as [-> | [cov ->]]; [done |].
      rewrite lookup_insert_ne; [done |]. intros Heq.
      pose proof (staged_outside_gauntlet (program_name_of (program_count l))) as Hout.
      rewrite <- Heq in Hout. unfold cov_file in Hout.
      by rewrite (relative_to_app gauntlet_dir) in Hout. }
    cbn zeta.
    destruct (_ mod 10 =? 0)%Z, (_ mod loop_size self =? 0)%Z; cbn [snd];
      try apply Hcov; by rewrite ?print_summary_fs.
Qed.

Lemma cycles_no_new_file n l w p :
  p4smith_writes_on_success env ->
  (forall name, move_ok env name = true) ->
  relative_to gauntlet_dir p = None ->
  fs w !! p = None ->
  fs (cycles env self n (l, w)).2 !! p = None.
Proof.
  intros Hclean Hmove Hg Hnone. induction n as [|n IH]; [done |].
  rewrite cycles_S.
  destruct (decide (p = staged (program_name_of
                                  (program_count (cycles env self n (l, w)).1))))
    as [-> | Hne].
  - by apply loop_body_staged_consumed.
  - by rewrite loop_body_frame_staged.
Qed.

End staging.

(** X14: when p4smith leaves a program file only on success, every move
    succeeds and no interrupt arrives while an iteration is under way, a
    run that returns has created no file outside the gauntlet directory:
    in particular every program it staged in [p4c/build] has been moved to
    a bucket or deleted. *)
Theorem run_leaves_no_staged_file env self duration count fuel w l w' :
  p4smith_writes_on_success env ->
  (forall name, move_ok env name = true) ->
  run_gauntlet env self duration count fuel w = Some (l, w') ->
  forall p, relative_to gauntlet_dir p = None ->
            fs w !! p = None -> fs w' !! p = None.
Proof.
  intros Hclean Hmove Hrun p Hg Hnone. unfold run_gauntlet in Hrun.
  destruct (check_dependencies env); cbn [negb] in Hrun;
    [| by injection Hrun as <- <-].
  destruct (run_loop env self duration count fuel initial_locals w)
    as [[l1 w1]|] eqn:Hloop; [| done].
  injection Hrun as <- <-.
  apply run_loop_result in Hloop as (n & e & _ & -> & -> & _).
  rewrite finishing_frame_dirs by done. cbn [fs emit].
  by apply cycles_no_new_file.
Qed.

Lemma run_leaves_no_staged_file_witness :
  match run_gauntlet
          (scenario_env all_ok (crashes_for "gauntlet00001") all_ok no_coverage)
          (init 2) None (Some 3) 10 empty_world with
  | Some (l, w') => fs w' !! ["p4c"; "build"; "gauntlet00001.p4"] = None
  | None => False
  end.
Proof.
  pose proof (run_leaves_no_staged_file
                (scenario_env all_ok (crashes_for "gauntlet00001") all_ok no_coverage)
                (init 2) None (Some 3) 10 empty_world) as H.
  assert (Hs : match run_gauntlet
                       (scenario_env all_ok (crashes_for "gauntlet00001") all_ok
                          no_coverage)
                       (init 2) None (Some 3) 10 empty_world with
               | Some _ => true
               | None => false
               end = true) by (vm_compute; reflexivity).
  revert Hs.
  destruct (run_gauntlet _ (init 2) None (Some 3) 10 empty_world) as [[l w']|].
  - intros _. apply (H l w').
    + intros name text Hout. cbn in Hout. cbn. eauto.
    + intros name. reflexivity.
    + reflexivity.
    + reflexivity.
    + reflexivity.
  - discriminate.
Defined.

Section failed_move.

Context (env : Env) (self : GauntletRunner).

Local Abbreviation staged name := (p4_file p4c_build_dir name).

Lemma loop_body_trace_grows l w :
  exists es, trace (loop_body env self l w).2 = trace w ++ es.
Proof.
  pose proof (cycle_effect env self l w) as H. cbn zeta in H.
  destruct H as
      (_ & [(_ & _ & _ & ->) | [(out & _ & _ & _ & _ & ->)
        | [(e & _ & _ & _ & _ & ->) | (rt & b & c & es & _ & _ & _ & _ & -> & _)]]]);
    eauto.
Qed.

Lemma staged_inj i j :
  0 <= i -> 0 <= j ->
  staged (program_name_of i) = staged (program_name_of j) -> i = j.
Proof.
  intros Hi Hj H. unfold p4_file in H. apply app_inv_head in H.
  assert (Hn : program_name_of i +:+ ".p4" = program_name_of j +:+ ".p4")
    by congruence.
  by apply p4_file_name_inj.
Qed.

(** The iteration of a program that is generated and judged but cannot be
    moved. *)
Lemma loop_body_move_fails l w :
  (generate_p4_program env (program_name_of (program_count l)) w).1 = true ->
  (forall w0, is_Some (fs w0 !! staged (program_name_of (program_count l))) ->
     (test_p4_program env (program_name_of (program_count l)) w0).1 <> Error) ->
  move_ok env (program_name_of (program_count l)) = false ->
  is_Some (fs (loop_body env self l w).2
             !! staged (program_name_of (program_count l))) /\
  CategorizeFailed (program_name_of (program_count l))
    ∈ trace (loop_body env self l w).2 /\
  fs (loop_body env self l w).2
    = p4smith_effect env (program_name_of (program_count l)) (fs w).
Proof.
  intros Hgen Hver Hmove.
  pose proof (loop_body_outcome env self l w) as H.
  pose proof (generate_ok env (program_name_of (program_count l)) w Hgen)
    as [Hfind Hfile].
  pose proof (generate_fs env (program_name_of (program_count l)) w) as Hfs.
  rewrite Hfind in Hfs.
  inversion H as [wg Hg | wg out Hg Ht | wg rt out wc Hg Ht Hrt Hc
                  | wg rt out wc Hg Ht Hrt Hc]; clear H;
    rewrite Hg in Hgen, Hfile, Hfs; cbn [fst snd] in Hgen, Hfile, Hfs.
  - done.
  - specialize (Hver wg Hfile). by rewrite Ht in Hver.
  - apply (categorize_false env self) in Hc as (Hwc & e & Htr & _).
    cbn [fs trace emit snd]. rewrite Hwc. split; [done |]. split.
    + set_solver.
    + done.
  - apply (categorize_true env self) in Hc as (b & c & _ & _ & Hok & _).
    congruence.
Qed.

Lemma cycles_frame_before (i : Z) n w p :
  Z.of_nat n <= i ->
  last p = Some (program_name_of i +:+ ".p4") ->
  fs (cycles env self n (initial_locals, w)).2 !! p = fs w !! p.
Proof.
  intros Hi Hp. induction n as [|n IH]; [done |].
  rewrite cycles_S, loop_body_frame; [apply IH; lia | |].
  - rewrite cycles_count, Hp. intros Heq.
    assert (Hn : program_name_of (program_count initial_locals + Z.of_nat n) +:+ ".p4"
                 = program_name_of i +:+ ".p4") by congruence.
    apply p4_file_name_inj in Hn; cbn in *; lia.
  - intros k. by eapply cov_file_not_p4.
Qed.

End failed_move.

(** X15: a program that p4smith generates and the oracle judges, but whose
    move to its bucket fails, is left behind in [p4c/build]: the iteration
    stores nothing, and no later iteration touches the staged file, so it
    is still there however long the loop goes on. *)
Theorem failed_move_leaves_staged_file env self (i : Z) (n : nat) w :
  0 <= i < Z.of_nat n ->
  (forall w0, (generate_p4_program env (program_name_of i) w0).1 = true) ->
  (forall w0, is_Some (fs w0 !! p4_file p4c_build_dir (program_name_of i)) ->
     (test_p4_program env (program_name_of i) w0).1 <> Error) ->
  move_ok env (program_name_of i) = false ->
  is_Some (fs (cycles env self n (initial_locals, w)).2
             !! p4_file p4c_build_dir (program_name_of i)) /\
  CategorizeFailed (program_name_of i)
    ∈ trace (cycles env self n (initial_locals, w)).2 /\
  (forall b, fs (cycles env self n (initial_locals, w)).2
               !! p4_file (_loop_dir_for_program self (program_name_of i) ++ [b])
                    (program_name_of i)
             = fs w !! p4_file (_loop_dir_for_program self (program_name_of i) ++ [b])
                         (program_name_of i)).
Proof.
  intros Hi Hgen Hver Hmove.
  induction n as [|n IH]; [lia |].
  rewrite cycles_S.
  pose proof (cycles_count env self n initial_locals w) as Hpc.
  cbn in Hpc. rewrite Z.add_0_l in Hpc.
  destruct (decide (i = Z.of_nat n)) as [-> | Hne].
  - pose proof (loop_body_move_fails env self
                  (cycles env self n (initial_locals, w)).1
                  (cycles env self n (initial_locals, w)).2) as H.
    rewrite Hpc in H. destruct (H (Hgen _) Hver Hmove) as (Hfile & Htr & Hfs).
    split; [done |]. split; [done |].
    intros b. rewrite Hfs, p4smith_effect_other.
    + apply (cycles_frame_before env self (Z.of_nat n)); [lia | apply last_p4_file].
    + intros Heq. pose proof (staged_outside_gauntlet (program_name_of (Z.of_nat n))) as Hout.
      rewrite <- Heq in Hout. unfold _loop_dir_for_program, p4_file in Hout.
      rewrite <- !app_assoc, (relative_to_app gauntlet_dir) in Hout. done.
  - destruct IH as (Hfile & Htr & Hb); [lia |].
    split; [| split].
    + rewrite loop_body_frame_staged; [done | reflexivity |].
      rewrite Hpc. intros Heq%staged_inj; lia.
    + destruct (loop_body_trace_grows env self (cycles env self n (initial_locals, w)).1
                  (cycles env self n (initial_locals, w)).2) as [es ->].
      apply elem_of_app. by left.
    + intros b. rewrite loop_body_frame; [apply Hb | |].
      * rewrite Hpc, last_p4_file. intros Heq.
        assert (Hn : program_name_of i +:+ ".p4"
                     = program_name_of (Z.of_nat n) +:+ ".p4") by congruence.
        apply p4_file_name_inj in Hn; lia.
      * intros k. eapply cov_file_not_p4. apply last_p4_file.
Qed.

Lemma failed_move_leaves_staged_file_witness :
  let env := with_moves (fun name => negb (bool_decide (name = "gauntlet00001")))
               (scenario_env all_ok (says "well-typed") all_ok no_coverage) in
  is_Some (fs (cycles env (init 2) 3 (initial_locals, empty_world)).2
             !! p4_file p4c_build_dir (program_name_of 1)) /\
  CategorizeFailed (program_name_of 1)
    ∈ trace (cycles env (init 2) 3 (initial_locals, empty_world)).2.
Proof.
  intros env.
  destruct (failed_move_leaves_staged_file env (init 2) 1 3 empty_world)
    as (Hfile & Htr & _).
  - lia.
  - intros w0. unfold generate_p4_program, exists_. cbn [env with_moves
      scenario_env find_p4smith p4smith all_ok negb Z.eqb fs emit set_fs].
    unfold p4smith_effect. cbn [env with_moves scenario_env p4smith_output all_ok].
    rewrite bool_decide_eq_true_2; [done |]. rewrite lookup_insert_eq. eauto.
  - intros w0 Hw0. unfold test_p4_program, exists_.
    rewrite bool_decide_eq_true_2 by done.
    cbn [env with_moves scenario_env watsup_present p4spectec_run_sl says negb fst].
    discriminate.
  - vm_compute. reflexivity.
  - split; [exact Hfile | exact Htr].
Defined.
